(** * Client management system: the data-access layer and its HTTP controller

    A shallow embedding of

    - [backend/src/models/Client.js]   (class [Client]: findAll, findById,
      create, update, delete, getStats and the private validators),
    - [backend/src/controllers/clientController.js] (the six handlers and
      their helpers),
    - [backend/src/database/init.js]   (the [clients] table, its UNIQUE
      constraint and the update trigger),
    - [backend/src/database/seed.js]   (insertClient, seedDatabase and
      verifySeedData),

    followed by the properties of the specification that concern them.

    Conventions of the embedding.

    - A JavaScript string is a [string]: a sequence of code units below 256.
      [trim], [toLowerCase], [\s] and [\d] are written out on that range;
      [toUpperCase] is used only to compare with 'ASC' and leaves the three
      letters whose capitals lie outside the range as they are.
    - A JavaScript number that holds an integer is a [Z].  Doubles represent
      integers exactly up to [MAX_SAFE_INTEGER]; statements about a number
      that a request names, and that the code feeds back through [parseInt],
      carry that bound.  Beyond it the code behaves otherwise: modules
      [Number] and [Double] embed the identifier and pagination paths with
      doubles, rounded and printed as the language does, and the last
      section shows that within the bound the two embeddings agree.
    - A field of a JSON body is undefined, null, a boolean, an integer or a
      string; arrays and objects, which a body can also carry, are outside
      the embedding, and statements that would be false of them say so.
    - A thrown [Error] is its message: the source classifies errors by
      [message.includes(...)], and so does the embedding.
    - [CURRENT_TIMESTAMP] is a parameter [now] of every statement that reads
      the clock; a timestamp is a number of seconds.
    - The SQLite table is the list of its rows in rowid order together with
      the AUTOINCREMENT counter. *)

From Stdlib Require Import ZArith List String Ascii Bool Lia Sorted Permutation.
From Stdlib Require Import DecimalString DecimalPos.
Import ListNotations.

Local Open Scope string_scope.
Local Open Scope Z_scope.

(** ** JavaScript values and string primitives *)

Module JS.

(** The values a JSON body puts in a field, arrays and objects apart. *)
Inductive jsval : Type :=
| JUndefined
| JNull
| JBool (b : bool)
| JNum (n : Z)
| JStr (s : string).

Definition code (c : ascii) : Z := Z.of_N (N_of_ascii c).

Definition between (lo hi n : Z) : bool := (lo <=? n) && (n <=? hi).

(** WhiteSpace and LineTerminator code units below 256: TAB, LF, VT, FF, CR,
    SP and NBSP.  The same set is the regular-expression class [\s]. *)
Definition isWhiteSpace (c : ascii) : bool :=
  let n := code c in
  between 9 13 n || (n =? 32) || (n =? 160).

Fixpoint trimStart (s : string) : string :=
  match s with
  | EmptyString => EmptyString
  | String c s' => if isWhiteSpace c then trimStart s' else s
  end.

Fixpoint trimEnd (s : string) : string :=
  match s with
  | EmptyString => EmptyString
  | String c s' =>
      match trimEnd s' with
      | EmptyString => if isWhiteSpace c then EmptyString else String c EmptyString
      | t => String c t
      end
  end.

(** [String.prototype.trim] *)
Definition trim (s : string) : string := trimEnd (trimStart s).

Definition shift_char (c : ascii) (d : Z) : ascii :=
  ascii_of_N (Z.to_N (code c + d)).

(** [toLowerCase] on one code unit: A-Z and the Latin-1 capitals. *)
Definition lower_char (c : ascii) : ascii :=
  let n := code c in
  if between 65 90 n || (between 192 222 n && negb (n =? 215))
  then shift_char c 32 else c.

Definition upper_char (c : ascii) : ascii :=
  let n := code c in
  if between 97 122 n || (between 224 254 n && negb (n =? 247))
  then shift_char c (-32) else c.

Fixpoint map_string (f : ascii -> ascii) (s : string) : string :=
  match s with
  | EmptyString => EmptyString
  | String c s' => String (f c) (map_string f s')
  end.

Definition toLowerCase : string -> string := map_string lower_char.
Definition toUpperCase : string -> string := map_string upper_char.

(** [String.prototype.includes] *)
Fixpoint includes (s sub : string) : bool :=
  String.prefix sub s ||
  match s with
  | EmptyString => false
  | String _ s' => includes s' sub
  end.

(** Truthiness, as [!x], [x || d] and [x ? a : b] see it. *)
Definition truthy (v : jsval) : bool :=
  match v with
  | JUndefined | JNull => false
  | JBool b => b
  | JNum n => negb (n =? 0)
  | JStr s => negb (s =? "")%string
  end.

(** [Number.prototype.toString] on an integer up to [MAX_SAFE_INTEGER] in
    magnitude: its decimal digits.  [Number.toString] below prints the
    larger ones. *)
Definition Number_toString (n : Z) : string :=
  NilZero.string_of_int (Z.to_int n).

(** [toString()] of a value that has the method. *)
Definition toString (v : jsval) : string :=
  match v with
  | JUndefined => "undefined"
  | JNull => "null"
  | JBool true => "true"
  | JBool false => "false"
  | JNum n => Number_toString n
  | JStr s => s
  end.

Definition MAX_SAFE_INTEGER : Z := 2 ^ 53 - 1.

(** *** parseInt *)

(** The value of a code unit as a digit of the given radix. *)
Definition digit_value (radix : Z) (c : ascii) : option Z :=
  let n := code c in
  let v := if between 48 57 n then Some (n - 48)
           else if between 97 122 n then Some (n - 87)
           else if between 65 90 n then Some (n - 55)
           else None in
  match v with
  | Some d => if d <? radix then Some d else None
  | None => None
  end.

(** Reads the longest prefix of digits; [None] while no digit was read. *)
Fixpoint parse_digits (radix : Z) (s : string) (acc : option Z) : option Z :=
  match s with
  | EmptyString => acc
  | String c s' =>
      match digit_value radix c with
      | Some d =>
          parse_digits radix s'
            (Some (radix * match acc with Some a => a | None => 0 end + d))
      | None => acc
      end
  end.

Definition strip_sign (s : string) : Z * string :=
  match s with
  | String "-" r => (-1, r)
  | String "+" r => (1, r)
  | _ => (1, s)
  end.

Definition strip_radix (s : string) : Z * string :=
  match s with
  | String "0" (String "x" r) => (16, r)
  | String "0" (String "X" r) => (16, r)
  | _ => (10, s)
  end.

(** [parseInt(string)] without a radix argument: leading white space, an
    optional sign, an optional [0x], then the longest run of digits.  [None]
    is [NaN]; the value is the integer the digits denote, which is the
    Number [parseInt] returns up to [MAX_SAFE_INTEGER] in magnitude
    ([Number.parseInt] below rounds the larger ones). *)
Definition parseInt_string (s : string) : option Z :=
  let (sign, s2) := strip_sign (trimStart s) in
  let (radix, s3) := strip_radix s2 in
  option_map (Z.mul sign) (parse_digits radix s3 None).

(** [parseInt(value)]: the argument is converted to a string first. *)
Definition parseInt (v : jsval) : option Z := parseInt_string (toString v).

(** [x || d] on the result of [parseInt]: [NaN] and [0] are falsy. *)
Definition number_or (x : option Z) (d : Z) : Z :=
  match x with
  | Some n => if n =? 0 then d else n
  | None => d
  end.

End JS.

(** ** Regular expressions

    The three patterns of the model are anchored at both ends and built from
    character classes, sequence, [+], [?] and a bounded repetition.  Matching
    is by derivatives. *)

Module Regex.

Inductive re : Type :=
| Void
| Eps
| Cls (p : ascii -> bool)
| Alt (a b : re)
| Seq (a b : re)
| Star (a : re).

Fixpoint nullable (r : re) : bool :=
  match r with
  | Void => false
  | Eps => true
  | Cls _ => false
  | Alt a b => nullable a || nullable b
  | Seq a b => nullable a && nullable b
  | Star _ => true
  end.

Fixpoint deriv (c : ascii) (r : re) : re :=
  match r with
  | Void => Void
  | Eps => Void
  | Cls p => if p c then Eps else Void
  | Alt a b => Alt (deriv c a) (deriv c b)
  | Seq a b =>
      if nullable a then Alt (Seq (deriv c a) b) (deriv c b)
      else Seq (deriv c a) b
  | Star a => Seq (deriv c a) (Star a)
  end.

(** [/^r$/.test(s)] *)
Fixpoint test (r : re) (s : string) : bool :=
  match s with
  | EmptyString => nullable r
  | String c s' => test (deriv c r) s'
  end.

Definition Plus (a : re) : re := Seq a (Star a).
Definition Opt (a : re) : re := Alt Eps a.

Fixpoint Exactly (n : nat) (a : re) : re :=
  match n with
  | O => Eps
  | S n' => Seq a (Exactly n' a)
  end.

Fixpoint AtMost (n : nat) (a : re) : re :=
  match n with
  | O => Eps
  | S n' => Opt (Seq a (AtMost n' a))
  end.

(** [a{lo,hi}] *)
Definition Rep (lo hi : nat) (a : re) : re :=
  Seq (Exactly lo a) (AtMost (hi - lo) a).

Definition chr (x : ascii) : ascii -> bool := Ascii.eqb x.
Definition one_of (l : list ascii) (c : ascii) : bool :=
  existsb (Ascii.eqb c) l.
Definition letter (c : ascii) : bool :=
  JS.between 97 122 (JS.code c) || JS.between 65 90 (JS.code c).
Definition digit (c : ascii) : bool := JS.between 48 57 (JS.code c).
Definition space : ascii -> bool := JS.isWhiteSpace.

End Regex.

(** ** Errors

    [Throw msg] is [throw new Error(msg)]. *)

Inductive result (A : Type) : Type :=
| Ok (a : A)
| Throw (msg : string).

Arguments Ok {A} a.
Arguments Throw {A} msg.

Definition bind {A B : Type} (m : result A) (k : A -> result B) : result B :=
  match m with
  | Ok a => k a
  | Throw msg => Throw msg
  end.

Notation "x <- m ;; k" := (bind m (fun x => k))
  (at level 61, m at next level, right associativity).

(** [try { body } catch (error) { handler(error.message) }] *)
Definition try_catch {A : Type} (body : result A) (handler : string -> result A)
  : result A :=
  match body with
  | Ok a => Ok a
  | Throw msg => handler msg
  end.

(** ** The [clients] table

    [CREATE_CLIENTS_TABLE] and [CREATE_UPDATE_TRIGGER] of
    [database/init.js], and the statements the model issues against them. *)

Module SQLite.

Record row : Type := mkRow {
  id : Z;
  name : string;
  email : string;
  phone : option string;      (* [None] is NULL *)
  created_at : Z;
  updated_at : Z
}.

(** [seq] is the table's entry in [sqlite_sequence]: the largest rowid that
    AUTOINCREMENT has handed out. *)
Record database : Type := mkDb {
  rows : list row;
  seq : Z
}.

Definition empty : database := mkDb [] 0.

Definition UNIQUE_email : string :=
  "SQLITE_CONSTRAINT: UNIQUE constraint failed: clients.email".

Definition no_such_column (c : string) : string :=
  "SQLITE_ERROR: no such column: " ++ c.

Definition count (l : list row) : Z := Z.of_nat (List.length l).

(** [SELECT * FROM clients WHERE id = ?] *)
Definition select_by_id (db : database) (i : Z) : option row :=
  find (fun r => id r =? i) (rows db).

(** [SELECT id FROM clients WHERE email = ?] and, with [excl],
    [... AND id != ?] *)
Definition select_by_email (db : database) (e : string) (excl : option Z)
  : option row :=
  find (fun r => (email r =? e)%string &&
                 match excl with
                 | Some x => negb (id r =? x)
                 | None => true
                 end) (rows db).

Definition max_rowid (l : list row) : Z :=
  fold_right (fun r m => Z.max (id r) m) 0 l.

(** [INSERT INTO clients (name, email, phone) VALUES (?, ?, ?)] at time
    [now].  The rowid is one more than the largest ever used; both timestamp
    columns take their DEFAULT CURRENT_TIMESTAMP.  Returns [lastID]. *)
Definition insert (db : database) (now : Z)
    (n e : string) (p : option string) : result Z * database :=
  if existsb (fun r => (email r =? e)%string) (rows db)
  then (Throw UNIQUE_email, db)
  else
    let i := Z.max (max_rowid (rows db)) (seq db) + 1 in
    (Ok i, mkDb (rows db ++ [mkRow i n e p now now]) i).

(** The assignments of an UPDATE statement: a column is [None] when the
    statement does not mention it. *)
Record assignments : Type := mkSet {
  set_name : option string;
  set_email : option string;
  set_phone : option (option string)
}.

Definition assign (a : assignments) (now : Z) (r : row) : row :=
  mkRow (id r)
        (match set_name a with Some n => n | None => name r end)
        (match set_email a with Some e => e | None => email r end)
        (match set_phone a with Some p => p | None => phone r end)
        (created_at r)
        now.

(** [update_clients_updated_at]: AFTER UPDATE, FOR EACH ROW,
    [UPDATE clients SET updated_at = CURRENT_TIMESTAMP WHERE id = NEW.id]. *)
Definition trigger_updated_at (now i : Z) (l : list row) : list row :=
  map (fun r => if id r =? i
                then mkRow (id r) (name r) (email r) (phone r) (created_at r) now
                else r) l.

(** [UPDATE clients SET ..., updated_at = CURRENT_TIMESTAMP WHERE id = ?].
    Returns [changes]. *)
Definition update (db : database) (now : Z) (a : assignments) (i : Z)
  : result Z * database :=
  match select_by_id db i with
  | None => (Ok 0, db)
  | Some _ =>
      let clash :=
        match set_email a with
        | Some e => existsb (fun r => (email r =? e)%string && negb (id r =? i))
                            (rows db)
        | None => false
        end in
      if clash then (Throw UNIQUE_email, db)
      else
        let l := map (fun r => if id r =? i then assign a now r else r)
                     (rows db) in
        (Ok 1, mkDb (trigger_updated_at now i l) (seq db))
  end.

(** [DELETE FROM clients WHERE id = ?].  Returns [changes]. *)
Definition delete (db : database) (i : Z) : Z * database :=
  let keep := filter (fun r => negb (id r =? i)) (rows db) in
  (count (rows db) - count keep, mkDb keep (seq db)).

(** *** LIKE *)

Definition fold_case (c : ascii) : ascii :=
  if JS.between 65 90 (JS.code c) then JS.shift_char c 32 else c.

(** [s LIKE p]: [%] is any run of characters, [_] any one character, and
    ASCII letters match without regard to case. *)
Fixpoint like (p s : string) : bool :=
  match p with
  | EmptyString => match s with EmptyString => true | _ => false end
  | String "%" p' =>
      (fix any (s : string) : bool :=
         like p' s ||
         match s with
         | EmptyString => false
         | String _ s' => any s'
         end) s
  | String "_" p' =>
      match s with
      | EmptyString => false
      | String _ s' => like p' s'
      end
  | String c p' =>
      match s with
      | EmptyString => false
      | String d s' => Ascii.eqb (fold_case c) (fold_case d) && like p' s'
      end
  end.

(** The WHERE clause of [findAll]: absent, or
    [(name LIKE ? OR email LIKE ?)] with the same pattern bound twice. *)
Definition where_clause (w : option string) (r : row) : bool :=
  match w with
  | None => true
  | Some pat => like pat (name r) || like pat (email r)
  end.

(** [SELECT COUNT( * ) FROM clients <where>] *)
Definition select_count (db : database) (w : option string) : Z :=
  count (filter (where_clause w) (rows db)).

(** *** ORDER BY *)

Inductive column : Type :=
| Cid | Cname | Cemail | Cphone | Ccreated_at | Cupdated_at.

Definition column_of_name (s : string) : option column :=
  if (s =? "id")%string then Some Cid
  else if (s =? "name")%string then Some Cname
  else if (s =? "email")%string then Some Cemail
  else if (s =? "phone")%string then Some Cphone
  else if (s =? "created_at")%string then Some Ccreated_at
  else if (s =? "updated_at")%string then Some Cupdated_at
  else None.

Inductive direction : Type := ASC | DESC.

(** NULL sorts before every text. *)
Definition compare_nullable (a b : option string) : comparison :=
  match a, b with
  | None, None => Eq
  | None, Some _ => Lt
  | Some _, None => Gt
  | Some x, Some y => String.compare x y
  end.

Definition compare_on (c : column) (a b : row) : comparison :=
  match c with
  | Cid => Z.compare (id a) (id b)
  | Cname => String.compare (name a) (name b)
  | Cemail => String.compare (email a) (email b)
  | Cphone => compare_nullable (phone a) (phone b)
  | Ccreated_at => Z.compare (created_at a) (created_at b)
  | Cupdated_at => Z.compare (updated_at a) (updated_at b)
  end.

(** Whether [a] may stand before [b]. *)
Definition before (c : column) (d : direction) (a b : row) : bool :=
  match d, compare_on c a b with
  | ASC, Gt => false
  | DESC, Lt => false
  | _, _ => true
  end.

Fixpoint place (c : column) (d : direction) (x : row) (l : list row)
  : list row :=
  match l with
  | [] => [x]
  | y :: l' => if before c d x y then x :: l else y :: place c d x l'
  end.

(** Rows that compare equal keep their rowid order here; SQLite promises no
    order among them. *)
Definition order_by (c : column) (d : direction) (l : list row) : list row :=
  fold_right (place c d) [] l.

Definition nat_of (n : Z) : nat := Z.to_nat n.

(** [SELECT * FROM clients <where> ORDER BY <col> <dir> LIMIT ? OFFSET ?] *)
Definition select_page (db : database) (w : option string)
    (col : string) (d : direction) (lim off : Z) : result (list row) :=
  match column_of_name col with
  | None => Throw (no_such_column col)
  | Some c =>
      Ok (firstn (nat_of lim)
            (skipn (nat_of off)
               (order_by c d (filter (where_clause w) (rows db)))))
  end.

End SQLite.

(** ** The model: [class Client] *)

(** [options] of [findAll].  [page] and [limit] arrive as numbers or as
    query strings; the other three are strings when present. *)
Module Options.
Record t : Type := make {
  page : JS.jsval;
  limit : JS.jsval;
  search : option string;
  sortBy : option string;
  order : option string
}.
End Options.

(** The object [findAll] returns. *)
Module Listing.
Record t : Type := make {
  clients : list SQLite.row;
  total : Z;
  page : Z;
  limit : Z;
  totalPages : Z;
  hasNext : bool;
  hasPrev : bool
}.
End Listing.

(** [clientData]: the three fields the model reads; any may be undefined. *)
Module Data.
Record t : Type := make {
  name : JS.jsval;
  email : JS.jsval;
  phone : JS.jsval
}.
Definition empty : t := make JS.JUndefined JS.JUndefined JS.JUndefined.
End Data.

(** The object [_validateClientData] returns.  [None] is undefined;
    [phone = Some None] is null. *)
Module Validated.
Record t : Type := make {
  name : option string;
  email : option string;
  phone : option (option string)
}.
End Validated.

(** The object [getStats] returns. *)
Module Stats.
Record t : Type := make {
  total : Z;
  recentlyAdded : Z;
  oldestCreated : option Z;
  newestCreated : option Z
}.
End Stats.

Module Client.

Import JS.

Definition nonempty (s : string) : bool := negb (s =? "")%string.

(** [x || d] on an optional string. *)
Definition or_string (x : option string) (d : string) : string :=
  match x with
  | Some s => if nonempty s then s else d
  | None => d
  end.

(** [(x || '').toString()] *)
Definition or_empty (v : jsval) : string :=
  if truthy v then toString v else "".

Definition is_undefined (v : jsval) : bool :=
  match v with JUndefined => true | _ => false end.

(** [Math.ceil(total / limit)] on a count and a positive page size. *)
Definition ceil_div (a b : Z) : Z := (a + b - 1) / b.

(** *** Private helpers *)

Definition _validateId (id : jsval) : result Z :=
  match parseInt id with
  | None => Throw "Invalid ID: must be a positive integer"
  | Some numId =>
      if numId <=? 0 then Throw "Invalid ID: must be a positive integer"
      else Ok numId
  end.

Definition allowedFields : list string :=
  ["id"; "name"; "email"; "phone"; "created_at"; "updated_at"].

Definition _validateSortField (field : string) : string :=
  if negb (existsb (String.eqb field) allowedFields)
  then "created_at"
  else field.

(** [/^[^\s@]+@[^\s@]+\.[^\s@]+$/] *)
Definition emailRegex : Regex.re :=
  let other := Regex.Cls (fun c => negb (Regex.space c || Regex.chr "@" c)) in
  Regex.Seq (Regex.Plus other)
    (Regex.Seq (Regex.Cls (Regex.chr "@"))
       (Regex.Seq (Regex.Plus other)
          (Regex.Seq (Regex.Cls (Regex.chr "."))
             (Regex.Plus other)))).

Definition _isValidEmail (email : string) : bool := Regex.test emailRegex email.

(** [/^[\+]?[\d\s\-\(\)\.]{10,20}$/] *)
Definition phoneRegex : Regex.re :=
  Regex.Seq (Regex.Opt (Regex.Cls (Regex.chr "+")))
    (Regex.Rep 10 20
       (Regex.Cls (fun c => Regex.digit c || Regex.space c ||
                            Regex.one_of ["-"; "("; ")"; "."]%char c))).

Definition _isValidPhone (phone : string) : bool := Regex.test phoneRegex phone.

(** [/^[a-zA-Z\s\-'\.]+$/] *)
Definition nameRegex : Regex.re :=
  Regex.Plus
    (Regex.Cls (fun c => Regex.letter c || Regex.space c ||
                         Regex.one_of ["-"; "'"; "."]%char c)).

Definition validate_name (v : jsval) (requireAll : bool)
  : result (option string) :=
  if negb (is_undefined v) then
    let name := trim (or_empty v) in
    if requireAll && negb (nonempty name) then
      Throw "Name is required"
    else if nonempty name &&
            ((String.length name <? 1)%nat || (100 <? String.length name)%nat) then
      Throw "Name must be between 1 and 100 characters"
    else if nonempty name && negb (Regex.test nameRegex name) then
      Throw "Name contains invalid characters"
    else Ok (if nonempty name then Some name else None)
  else if requireAll then Throw "Name is required"
  else Ok None.

Definition validate_email (v : jsval) (requireAll : bool)
  : result (option string) :=
  if negb (is_undefined v) then
    let email := toLowerCase (trim (or_empty v)) in
    if requireAll && negb (nonempty email) then
      Throw "Email is required"
    else if nonempty email && negb (_isValidEmail email) then
      Throw "Invalid email format"
    else if nonempty email && (100 <? String.length email)%nat then
      Throw "Email must be less than 100 characters"
    else Ok (if nonempty email then Some email else None)
  else if requireAll then Throw "Email is required"
  else Ok None.

Definition validate_phone (v : jsval) : result (option (option string)) :=
  if negb (is_undefined v) then
    let phone := if truthy v then Some (trim (toString v)) else None in
    match phone with
    | Some p =>
        if nonempty p && (20 <? String.length p)%nat then
          Throw "Phone number must be less than 20 characters"
        else if nonempty p && negb (_isValidPhone p) then
          Throw "Invalid phone number format"
        else Ok (Some phone)
    | None => Ok (Some phone)
    end
  else Ok None.

(** The three blocks of the source in their order: name, email, phone. *)
Definition _validateClientData (data : Data.t) (requireAll : bool)
  : result Validated.t :=
  name <- validate_name (Data.name data) requireAll ;;
  email <- validate_email (Data.email data) requireAll ;;
  phone <- validate_phone (Data.phone data) ;;
  Ok (Validated.make name email phone).

(** [email] is the bound parameter: undefined binds NULL, which equals no
    stored value.  [excludeId] is used when truthy. *)
Definition _checkEmailUniqueness (db : SQLite.database)
    (email : option string) (excludeId : option Z) : result unit :=
  let excl := match excludeId with
              | Some x => if x =? 0 then None else Some x
              | None => None
              end in
  let existing := match email with
                  | Some e => SQLite.select_by_email db e excl
                  | None => None
                  end in
  match existing with
  | Some _ => Throw "Email address already exists"
  | None => Ok tt
  end.

(** *** findAll *)

Definition findAll (db : SQLite.database) (options : Options.t)
  : result Listing.t :=
  try_catch
    (let page := Z.max 1 (number_or (parseInt (Options.page options)) 1) in
     let limit :=
       Z.min 100 (Z.max 1 (number_or (parseInt (Options.limit options)) 10)) in
     let search := trim (or_string (Options.search options) "") in
     let sortBy :=
       _validateSortField (or_string (Options.sortBy options) "created_at") in
     let order :=
       if (toUpperCase (or_string (Options.order options) "DESC") =? "ASC")%string
       then SQLite.ASC else SQLite.DESC in
     let offset := (page - 1) * limit in
     let whereClause :=
       if nonempty search then Some ("%" ++ search ++ "%") else None in
     let total := SQLite.select_count db whereClause in
     let totalPages := ceil_div total limit in
     let hasNext := page <? totalPages in
     let hasPrev := 1 <? page in
     clients <- SQLite.select_page db whereClause sortBy order limit offset ;;
     Ok (Listing.make clients total page limit totalPages hasNext hasPrev))
    (fun message => Throw ("Failed to retrieve clients: " ++ message)).

(** *** findById *)

Definition findById (db : SQLite.database) (id : jsval)
  : result (option SQLite.row) :=
  try_catch
    (clientId <- _validateId id ;;
     Ok (SQLite.select_by_id db clientId))
    (fun message =>
       if includes message "Invalid ID" then Ok None
       else Throw ("Failed to retrieve client: " ++ message)).

(** *** create

    Between the awaited pre-check and the awaited INSERT another request may
    run: [seen] is the table the pre-check reads, [db] the table the INSERT
    meets.  [create] is the case where nothing ran in between. *)

Definition create_catch {A : Type} (message : string) : result A :=
  if includes message "UNIQUE constraint failed"
  then Throw "Email address already exists"
  else Throw ("Failed to create client: " ++ message).

Definition flatten (p : option (option string)) : option string :=
  match p with
  | Some (Some s) => Some s
  | _ => None
  end.

Definition NOT_NULL (c : string) : string :=
  "SQLITE_CONSTRAINT: NOT NULL constraint failed: clients." ++ c.

(** [dbConnection.run] of the INSERT with its three bound parameters. *)
Definition run_insert (db : SQLite.database) (now : Z) (v : Validated.t)
  : result Z * SQLite.database :=
  match Validated.name v, Validated.email v with
  | None, _ => (Throw (NOT_NULL "name"), db)
  | _, None => (Throw (NOT_NULL "email"), db)
  | Some n, Some e => SQLite.insert db now n e (flatten (Validated.phone v))
  end.

Definition create_racing (seen db : SQLite.database) (now : Z)
    (clientData : Data.t) : result SQLite.row * SQLite.database :=
  match
    (validatedData <- _validateClientData clientData true ;;
     _ <- _checkEmailUniqueness seen (Validated.email validatedData) None ;;
     Ok validatedData)
  with
  | Throw message => (create_catch message, db)
  | Ok validatedData =>
      match run_insert db now validatedData with
      | (Throw message, db') => (create_catch message, db')
      | (Ok lastID, db') =>
          (try_catch
             (createdClient <- findById db' (JNum lastID) ;;
              match createdClient with
              | None => Throw "Failed to retrieve created client"
              | Some c => Ok c
              end)
             create_catch,
           db')
      end
  end.

Definition create (db : SQLite.database) (now : Z) (clientData : Data.t)
  : result SQLite.row * SQLite.database :=
  create_racing db db now clientData.

(** *** update *)

Definition update_catch {A : Type} (message : string) : result A :=
  if includes message "UNIQUE constraint failed"
  then Throw "Email address already exists"
  else Throw ("Failed to update client: " ++ message).

Definition differs (a : option string) (b : string) : bool :=
  match a with
  | Some x => nonempty x && negb (x =? b)%string
  | None => false
  end.

(** [updateFields]: one assignment per validated field that is not
    undefined. *)
Definition updateFields (v : Validated.t) : SQLite.assignments :=
  SQLite.mkSet (Validated.name v) (Validated.email v) (Validated.phone v).

Definition no_fields (a : SQLite.assignments) : bool :=
  match SQLite.set_name a, SQLite.set_email a, SQLite.set_phone a with
  | None, None, None => true
  | _, _, _ => false
  end.

Definition update_racing (seen db : SQLite.database) (now : Z)
    (id : jsval) (clientData : Data.t)
  : result (option SQLite.row) * SQLite.database :=
  match
    (clientId <- _validateId id ;;
     existingClient <- findById seen (JNum clientId) ;;
     match existingClient with
     | None => Throw "Client not found"
     | Some existing =>
         validatedData <- _validateClientData clientData false ;;
         _ <- (if differs (Validated.email validatedData) (SQLite.email existing)
               then _checkEmailUniqueness seen (Validated.email validatedData)
                      (Some clientId)
               else Ok tt) ;;
         Ok (clientId, existing, validatedData)
     end)
  with
  | Throw message => (update_catch message, db)
  | Ok (clientId, existing, validatedData) =>
      let fields := updateFields validatedData in
      if no_fields fields then (Ok (Some existing), db)
      else
        match SQLite.update db now fields clientId with
        | (Throw message, db') => (update_catch message, db')
        | (Ok _, db') =>
            (try_catch (findById db' (JNum clientId)) update_catch, db')
        end
  end.

Definition update (db : SQLite.database) (now : Z) (id : jsval)
    (clientData : Data.t) : result (option SQLite.row) * SQLite.database :=
  update_racing db db now id clientData.

(** *** delete *)

Definition delete (db : SQLite.database) (id : jsval)
  : result bool * SQLite.database :=
  match
    (clientId <- _validateId id ;;
     existingClient <- findById db (JNum clientId) ;;
     Ok (clientId, existingClient))
  with
  | Throw message => (Throw ("Failed to delete client: " ++ message), db)
  | Ok (_, None) => (Ok false, db)
  | Ok (clientId, Some _) =>
      let (changes, db') := SQLite.delete db clientId in
      (Ok (0 <? changes), db')
  end.

(** *** getStats *)

Definition seven_days : Z := 7 * 24 * 60 * 60.

Definition min_created (l : list SQLite.row) : option Z :=
  fold_right (fun r m => match m with
                         | Some x => Some (Z.min (SQLite.created_at r) x)
                         | None => Some (SQLite.created_at r)
                         end) None l.

Definition max_created (l : list SQLite.row) : option Z :=
  fold_right (fun r m => match m with
                         | Some x => Some (Z.max (SQLite.created_at r) x)
                         | None => Some (SQLite.created_at r)
                         end) None l.

Definition getStats (db : SQLite.database) (now : Z) : result Stats.t :=
  let totalClients := SQLite.count (SQLite.rows db) in
  let recentClients :=
    SQLite.count
      (filter (fun r => now - seven_days <=? SQLite.created_at r)
              (SQLite.rows db)) in
  let oldestClient := min_created (SQLite.rows db) in
  let newestClient := max_created (SQLite.rows db) in
  Ok (Stats.make totalClients recentClients oldestClient newestClient).

End Client.

(** ** The controller: [clientController.js] *)

(** [req.query].  A parameter the request gives once is a string.  One it
    repeats ([?search=a&search=b]) is an array, and one it writes with
    brackets ([?search[x]=a]) an object; the handler looks at such a value in
    three ways only: it is truthy, it has no string method, and [parseInt]
    reads the string it converts to, which [Obj] carries. *)
Module Query.

Inductive param : Type :=
| Absent
| Str (s : string)
| Obj (toString : string).

Record t : Type := make {
  page : param;
  limit : param;
  search : param;
  sortBy : param;
  order : param
}.

(** The parameter as a string, when it is one. *)
Definition string_of (p : param) : option string :=
  match p with
  | Str s => Some s
  | _ => None
  end.

(** Absent, or a string. *)
Definition plain (p : param) : Prop :=
  match p with
  | Obj _ => False
  | _ => True
  end.

End Query.

Module Controller.

Import JS.

(** The [data] member of a success envelope. *)
Inductive data : Type :=
| DClient (c : option SQLite.row)          (* a record, or null *)
| DClients (l : list SQLite.row) (meta : Listing.t)
| DStats (s : Stats.t).

(** What a handler does with the request: [res.status(s).json(...)],
    [res.status(s).send()], or [next(createError(s, code, message, details))],
    which the application's error handler sends with that status and code. *)
Inductive response : Type :=
| Json (status : Z) (d : data) (message : string)
| Send (status : Z)
| Next (status : Z) (code message details : string).

Definition status_of (r : response) : Z :=
  match r with
  | Json s _ _ => s
  | Send s => s
  | Next s _ _ _ => s
  end.

Definition code_of (r : response) : option string :=
  match r with
  | Next _ c _ _ => Some c
  | _ => None
  end.

Definition createError (status : Z) (code message details : string)
  : response := Next status code message details.

(** What [parseInt] converts a query parameter to. *)
Definition string_of_field (x : Query.param) : jsval :=
  match x with
  | Query.Absent => JUndefined
  | Query.Str s => JStr s
  | Query.Obj toString => JStr toString
  end.

(** *** Helper functions *)

Definition quote : string := String (ascii_of_nat 34) EmptyString.

(** The message of the TypeError for [callee(...)] where [callee] is
    undefined, as the engine words it. *)
Definition not_a_function (callee : string) : string :=
  callee ++ " is not a function".

(** [(x || d).method()] for a string method: an array or an object is truthy
    and has no such method. *)
Definition or_string_method (x : Query.param) (d callee : string)
    (method : string -> string) : result string :=
  match x with
  | Query.Obj _ => Throw (not_a_function callee)
  | _ => Ok (method (Client.or_string (Query.string_of x) d))
  end.

(** [query.sortBy || 'created_at'] as [findAll] receives it.  [findAll] only
    compares the value with the allowed column names; an array or an object
    equals none of them, and is passed on as a name that equals none. *)
Definition sortBy_of (x : Query.param) : string :=
  match x with
  | Query.Obj _ => "[object]"
  | _ => Client.or_string (Query.string_of x) "created_at"
  end.

Definition extractQueryOptions (query : Query.t) : result Options.t :=
  let page :=
    Z.max 1 (number_or (parseInt (string_of_field (Query.page query))) 1) in
  let limit :=
    Z.min 100
      (Z.max 1 (number_or (parseInt (string_of_field (Query.limit query))) 10)) in
  search <- or_string_method (Query.search query) ""
              ("(query.search || " ++ quote ++ quote ++ ").trim") trim ;;
  let sortBy := sortBy_of (Query.sortBy query) in
  order <- or_string_method (Query.order query) "desc"
             ("(query.order || " ++ quote ++ "desc" ++ quote ++ ").toLowerCase")
             toLowerCase ;;
  Ok (Options.make (JNum page) (JNum limit) (Some search) (Some sortBy)
        (Some (if (order =? "asc")%string then "ASC" else "DESC"))).

(** [req.body] is [None] when it is missing or not an object. *)
Definition extractClientData (body : option Data.t) : result Data.t :=
  match body with
  | None => Throw "Request body must be a valid JSON object"
  | Some b => Ok (Data.make (Data.name b) (Data.email b) (Data.phone b))
  end.

Definition field_of (data : Data.t) (field : string) : jsval :=
  if (field =? "name")%string then Data.name data
  else if (field =? "email")%string then Data.email data
  else if (field =? "phone")%string then Data.phone data
  else JUndefined.

Definition is_missing (v : jsval) : bool :=
  negb (truthy v) ||
  match v with
  | JStr s => (trim s =? "")%string
  | _ => false
  end.

Definition join (l : list string) : string := String.concat ", " l.

Definition validateRequiredFields (data : Data.t) (requiredFields : list string)
  : result unit :=
  let missingFields :=
    filter (fun field => is_missing (field_of data field)) requiredFields in
  if (0 <? List.length missingFields)%nat
  then Throw ("Missing required fields: " ++ join missingFields)
  else Ok tt.

Definition validateIdParameter (id : string) : result Z :=
  match parseInt (JStr id) with
  | None => Throw "Invalid ID: must be a positive integer"
  | Some numId =>
      if numId <=? 0 then Throw "Invalid ID: must be a positive integer"
      else Ok numId
  end.

(** *** Handlers *)

Definition getAllClients (db : SQLite.database) (query : Query.t) : response :=
  match
    (options <- extractQueryOptions query ;;
     Client.findAll db options)
  with
  | Ok result =>
      Json 200 (DClients (Listing.clients result) result)
        ("Retrieved " ++
         Number_toString (SQLite.count (Listing.clients result)) ++ " clients")
  | Throw message =>
      createError 500 "INTERNAL_ERROR" "Failed to retrieve clients" message
  end.

Definition getClientById (db : SQLite.database) (id : string) : response :=
  match
    (clientId <- validateIdParameter id ;;
     client <- Client.findById db (JNum clientId) ;;
     Ok (clientId, client))
  with
  | Ok (clientId, None) =>
      createError 404 "NOT_FOUND" "Client not found"
        ("No client found with ID " ++ Number_toString clientId)
  | Ok (_, Some client) =>
      Json 200 (DClient (Some client)) "Client retrieved successfully"
  | Throw message =>
      if includes message "Invalid ID" then
        createError 400 "VALIDATION_ERROR" "Invalid client ID" message
      else
        createError 500 "INTERNAL_ERROR" "Failed to retrieve client" message
  end.

Definition createClient_catch (message : string) : response :=
  if includes message "required" || includes message "Invalid" ||
     includes message "must be" then
    createError 400 "VALIDATION_ERROR" "Invalid input data" message
  else if includes message "already exists" then
    createError 409 "DUPLICATE_EMAIL" "Email already exists" message
  else
    createError 500 "INTERNAL_ERROR" "Failed to create client" message.

Definition createClient_racing (seen db : SQLite.database) (now : Z)
    (body : option Data.t) : response * SQLite.database :=
  match
    (clientData <- extractClientData body ;;
     _ <- validateRequiredFields clientData ["name"; "email"] ;;
     Ok clientData)
  with
  | Throw message => (createClient_catch message, db)
  | Ok clientData =>
      match Client.create_racing seen db now clientData with
      | (Ok createdClient, db') =>
          (Json 201 (DClient (Some createdClient)) "Client created successfully",
           db')
      | (Throw message, db') => (createClient_catch message, db')
      end
  end.

Definition createClient (db : SQLite.database) (now : Z)
    (body : option Data.t) : response * SQLite.database :=
  createClient_racing db db now body.

Definition updateClient_catch (message : string) : response :=
  if includes message "Invalid ID" then
    createError 400 "VALIDATION_ERROR" "Invalid client ID" message
  else if includes message "not found" then
    createError 404 "NOT_FOUND" "Client not found" message
  else if includes message "Invalid" || includes message "must be" then
    createError 400 "VALIDATION_ERROR" "Invalid input data" message
  else if includes message "already exists" then
    createError 409 "DUPLICATE_EMAIL" "Email already exists" message
  else
    createError 500 "INTERNAL_ERROR" "Failed to update client" message.

Definition updateClient_racing (seen db : SQLite.database) (now : Z)
    (id : string) (body : option Data.t) : response * SQLite.database :=
  match
    (clientId <- validateIdParameter id ;;
     clientData <- extractClientData body ;;
     Ok (clientId, clientData))
  with
  | Throw message => (updateClient_catch message, db)
  | Ok (clientId, clientData) =>
      match Client.update_racing seen db now (JNum clientId) clientData with
      | (Ok updatedClient, db') =>
          (Json 200 (DClient updatedClient) "Client updated successfully", db')
      | (Throw message, db') => (updateClient_catch message, db')
      end
  end.

Definition updateClient (db : SQLite.database) (now : Z)
    (id : string) (body : option Data.t) : response * SQLite.database :=
  updateClient_racing db db now id body.

Definition deleteClient (db : SQLite.database) (id : string)
  : response * SQLite.database :=
  match validateIdParameter id with
  | Throw message =>
      (if includes message "Invalid ID" then
         createError 400 "VALIDATION_ERROR" "Invalid client ID" message
       else createError 500 "INTERNAL_ERROR" "Failed to delete client" message,
       db)
  | Ok clientId =>
      match Client.delete db (JNum clientId) with
      | (Ok false, db') =>
          (createError 404 "NOT_FOUND" "Client not found"
             ("No client found with ID " ++ Number_toString clientId), db')
      | (Ok true, db') => (Send 204, db')
      | (Throw message, db') =>
          (if includes message "Invalid ID" then
             createError 400 "VALIDATION_ERROR" "Invalid client ID" message
           else createError 500 "INTERNAL_ERROR" "Failed to delete client" message,
           db')
      end
  end.

Definition getClientStats (db : SQLite.database) (now : Z) : response :=
  match Client.getStats db now with
  | Ok stats => Json 200 (DStats stats) "Client statistics retrieved successfully"
  | Throw message =>
      createError 500 "INTERNAL_ERROR" "Failed to retrieve statistics" message
  end.

End Controller.

(** ** Numbers as doubles

    The Number type of the language, for the integers beyond
    [MAX_SAFE_INTEGER] that a request can name.  [parseInt] rounds what it
    reads to the nearest double, ties to the even significand, and gives
    [Infinity] from [2^1024 - 2^970] on; a Number is printed by the shortest
    decimal that reads back as the same double, in exponent notation once that
    decimal has more than 21 digits. *)

Module Number.

(** NaN, the infinities, and the finite Numbers that hold an integer:
    in [Finite z], [z] is a double. *)
Inductive t : Type :=
| NaN
| Finite (z : Z)
| Infinity (negative : bool).

(** The double nearest to the natural number [a]; [None] when it is beyond
    the largest. *)
Definition round_magnitude (a : Z) : option Z :=
  if a <? 2 ^ 53 then Some a
  else
    let e := Z.log2 a - 52 in
    let q := Z.shiftr a e in
    let r := a - Z.shiftl q e in
    let half := Z.shiftl 1 (e - 1) in
    let q' := if (half <? r) || ((r =? half) && Z.odd q) then q + 1 else q in
    let v := Z.shiftl q' e in
    if 2 ^ 1024 <=? v then None else Some v.

(** The Number value for the integer [z]. *)
Definition of_Z (z : Z) : t :=
  match round_magnitude (Z.abs z) with
  | Some v => Finite (Z.sgn z * v)
  | None => Infinity (z <? 0)
  end.

(** [parseInt(string)], with the digits read as in [JS.parseInt_string]. *)
Definition parseInt (s : string) : t :=
  match JS.parseInt_string s with
  | Some z => of_Z z
  | None => NaN
  end.

(** *** Number::toString *)

(** The decimal [c] reads back as the double [x]. *)
Definition reads_as (x c : Z) : bool :=
  match of_Z c with
  | Finite y => y =? x
  | _ => false
  end.

Definition digit_count (x : Z) : Z :=
  Z.of_nat (String.length (JS.Number_toString x)).

(** The decimals of [k] significant digits next to [x], for [k] from 1 up:
    the first that reads back as [x], the nearer one when both do, the one
    with the even last digit when they are as near. *)
Fixpoint shortest_from (fuel : nat) (k n x : Z) : Z :=
  match fuel with
  | O => x
  | S fuel' =>
      let scale := 10 ^ (n - k) in
      let lo := x / scale * scale in
      let hi := lo + scale in
      match reads_as x lo, reads_as x hi with
      | true, true =>
          if (x - lo <? hi - x) || ((x - lo =? hi - x) && Z.even (lo / scale))
          then lo else hi
      | true, false => lo
      | false, true => hi
      | false, false => shortest_from fuel' (k + 1) n x
      end
  end.

(** The shortest decimal that reads back as the positive double [x]. *)
Definition shortest (x : Z) : Z :=
  let n := digit_count x in
  shortest_from (Z.to_nat n) 1 n x.

Fixpoint strip_zeros (s : string) : string :=
  match s with
  | EmptyString => EmptyString
  | String c s' =>
      match strip_zeros s' with
      | EmptyString => if Ascii.eqb c "0" then EmptyString else String c EmptyString
      | t => String c t
      end
  end.

(** [d.ddde+x] *)
Definition exponential (v : Z) : string :=
  let e := JS.Number_toString (digit_count v - 1) in
  match strip_zeros (JS.Number_toString v) with
  | EmptyString => "0"
  | String d EmptyString => String d ("e+" ++ e)
  | String d rest => String d ("." ++ rest ++ "e+" ++ e)
  end.

Definition toString (x : t) : string :=
  match x with
  | NaN => "NaN"
  | Infinity false => "Infinity"
  | Infinity true => "-Infinity"
  | Finite z =>
      let v := shortest (Z.abs z) in
      (if z <? 0 then "-" else "") ++
      (if v <? 10 ^ 21 then JS.Number_toString v else exponential v)
  end.

(** *** Operators *)

Definition isNaN (x : t) : bool :=
  match x with NaN => true | _ => false end.

(** [a < b] *)
Definition ltb (a b : t) : bool :=
  match a, b with
  | Finite x, Finite y => x <? y
  | Finite _, Infinity negative => negb negative
  | Infinity negative, Finite _ => negative
  | Infinity n1, Infinity n2 => n1 && negb n2
  | _, _ => false
  end.

(** [a <= b] *)
Definition leb (a b : t) : bool :=
  match a, b with
  | Finite x, Finite y => x <=? y
  | Finite _, Infinity negative => negb negative
  | Infinity negative, Finite _ => negative
  | Infinity n1, Infinity n2 => n1 || negb n2
  | _, _ => false
  end.

(** [x || d]: NaN and zero are falsy. *)
Definition or_else (x : t) (d : Z) : t :=
  match x with
  | NaN => Finite d
  | Finite z => if z =? 0 then Finite d else x
  | Infinity _ => x
  end.

(** [Math.max(a, b)] and [Math.min(a, b)] *)
Definition max (a b : t) : t :=
  match a, b with
  | NaN, _ | _, NaN => NaN
  | _, _ => if ltb a b then b else a
  end.

Definition min (a b : t) : t :=
  match a, b with
  | NaN, _ | _, NaN => NaN
  | _, _ => if ltb b a then b else a
  end.

(** [a - b] *)
Definition sub (a b : t) : t :=
  match a, b with
  | Finite x, Finite y => of_Z (x - y)
  | Infinity negative, Finite _ => Infinity negative
  | Finite _, Infinity negative => Infinity (negb negative)
  | Infinity n1, Infinity n2 => if Bool.eqb n1 n2 then NaN else Infinity n1
  | _, _ => NaN
  end.

(** [a * b] *)
Definition mul (a b : t) : t :=
  match a, b with
  | Finite x, Finite y => of_Z (x * y)
  | Infinity negative, Finite y | Finite y, Infinity negative =>
      if y =? 0 then NaN else Infinity (xorb negative (y <? 0))
  | Infinity n1, Infinity n2 => Infinity (xorb n1 n2)
  | _, _ => NaN
  end.

(** For [x >= y > 0]: the significand [m] and the exponent [e] of the double
    nearest to [x / y], which is [m * 2 ^ e]. *)
Definition rounded_quotient (x y : Z) : Z * Z :=
  let e := Z.log2 (x / y) - 52 in
  let n := if 0 <=? e then x else x * 2 ^ (- e) in
  let d := if 0 <=? e then y * 2 ^ e else y in
  let m := n / d in
  let r := n mod d in
  (if (d <? 2 * r) || ((2 * r =? d) && Z.odd m) then m + 1 else m, e).

(** [Math.ceil(x / y)] and [Math.floor(x / y)] for [x >= 0] and [y > 0]:
    of the rounded quotient, not of the exact one. *)
Definition ceil_positive (x y : Z) : Z :=
  if x =? 0 then 0
  else if x <? y then 1
  else
    let (m, e) := rounded_quotient x y in
    if 0 <=? e then m * 2 ^ e else - ((- m) / 2 ^ (- e)).

Definition floor_positive (x y : Z) : Z :=
  if x <? y then 0
  else
    let (m, e) := rounded_quotient x y in
    if 0 <=? e then m * 2 ^ e else m / 2 ^ (- e).

(** [Math.ceil(a / b)] *)
Definition ceil_quotient (a b : t) : t :=
  match a, b with
  | Finite x, Finite y =>
      if y =? 0 then
        (if x =? 0 then NaN else Infinity (x <? 0))
      else if (0 <=? x) && (0 <? y) || (x <=? 0) && (y <? 0) then
        Finite (ceil_positive (Z.abs x) (Z.abs y))
      else
        Finite (- floor_positive (Z.abs x) (Z.abs y))
  | Finite _, Infinity _ => Finite 0
  | Infinity negative, Finite y => Infinity (xorb negative (y <? 0))
  | _, _ => NaN
  end.

End Number.

(** ** The identifier and pagination paths over doubles

    [validateIdParameter], [getClientById], [_validateId], [findById] and
    [findAll] once more, statement by statement as above, with a [Number.t]
    wherever the source holds a number. *)

Module Double.

Import JS.

(** The values the three functions of the model are called with: a Number
    from the controller, a string or nothing from other callers. *)
Inductive value : Type :=
| Undefined
| Num (x : Number.t)
| Str (s : string).

Definition toString (v : value) : string :=
  match v with
  | Undefined => "undefined"
  | Num x => Number.toString x
  | Str s => s
  end.

(** [parseInt(value)] *)
Definition parseInt (v : value) : Number.t := Number.parseInt (toString v).

(** *** Bound parameters

    A Number bound to [WHERE id = ?] is compared with the INTEGER column by
    value.  One bound to LIMIT or OFFSET must convert to a 64-bit integer
    without loss. *)

Definition select_by_id (db : SQLite.database) (x : Number.t)
  : option SQLite.row :=
  match x with
  | Number.Finite z => SQLite.select_by_id db z
  | _ => None
  end.

Definition MISMATCH : string := "SQLITE_MISMATCH: datatype mismatch".

Definition must_be_int (x : Number.t) : result Z :=
  match x with
  | Number.Finite z =>
      if (- (2 ^ 63) <? z) && (z <? 2 ^ 63) then Ok z else Throw MISMATCH
  | _ => Throw MISMATCH
  end.

Definition select_page (db : SQLite.database) (w : option string)
    (col : string) (d : SQLite.direction) (lim off : Number.t)
  : result (list SQLite.row) :=
  match SQLite.column_of_name col with
  | None => Throw (SQLite.no_such_column col)
  | Some _ =>
      l <- must_be_int lim ;;
      o <- must_be_int off ;;
      SQLite.select_page db w col d l o
  end.

Module Options.
Record t : Type := make {
  page : value;
  limit : value;
  search : option string;
  sortBy : option string;
  order : option string
}.
End Options.

Module Listing.
Record t : Type := make {
  clients : list SQLite.row;
  total : Z;
  page : Number.t;
  limit : Number.t;
  totalPages : Number.t;
  hasNext : bool;
  hasPrev : bool
}.
End Listing.

(** *** The model *)

Definition _validateId (id : value) : result Number.t :=
  let numId := parseInt id in
  if Number.isNaN numId || Number.leb numId (Number.Finite 0)
  then Throw "Invalid ID: must be a positive integer"
  else Ok numId.

Definition findById (db : SQLite.database) (id : value)
  : result (option SQLite.row) :=
  try_catch
    (clientId <- _validateId id ;;
     Ok (select_by_id db clientId))
    (fun message =>
       if includes message "Invalid ID" then Ok None
       else Throw ("Failed to retrieve client: " ++ message)).

Definition findAll (db : SQLite.database) (options : Options.t)
  : result Listing.t :=
  try_catch
    (let page :=
       Number.max (Number.Finite 1)
         (Number.or_else (parseInt (Options.page options)) 1) in
     let limit :=
       Number.min (Number.Finite 100)
         (Number.max (Number.Finite 1)
            (Number.or_else (parseInt (Options.limit options)) 10)) in
     let search := trim (Client.or_string (Options.search options) "") in
     let sortBy :=
       Client._validateSortField
         (Client.or_string (Options.sortBy options) "created_at") in
     let order :=
       if (toUpperCase (Client.or_string (Options.order options) "DESC")
           =? "ASC")%string
       then SQLite.ASC else SQLite.DESC in
     let offset := Number.mul (Number.sub page (Number.Finite 1)) limit in
     let whereClause :=
       if Client.nonempty search then Some ("%" ++ search ++ "%") else None in
     let total := SQLite.select_count db whereClause in
     let totalPages := Number.ceil_quotient (Number.Finite total) limit in
     let hasNext := Number.ltb page totalPages in
     let hasPrev := Number.ltb (Number.Finite 1) page in
     clients <- select_page db whereClause sortBy order limit offset ;;
     Ok (Listing.make clients total page limit totalPages hasNext hasPrev))
    (fun message => Throw ("Failed to retrieve clients: " ++ message)).

(** *** The controller *)

Definition validateIdParameter (id : string) : result Number.t :=
  let numId := Number.parseInt id in
  if Number.isNaN numId || Number.leb numId (Number.Finite 0)
  then Throw "Invalid ID: must be a positive integer"
  else Ok numId.

Definition getClientById (db : SQLite.database) (id : string)
  : Controller.response :=
  match
    (clientId <- validateIdParameter id ;;
     client <- findById db (Num clientId) ;;
     Ok (clientId, client))
  with
  | Ok (clientId, None) =>
      Controller.createError 404 "NOT_FOUND" "Client not found"
        ("No client found with ID " ++ Number.toString clientId)
  | Ok (_, Some client) =>
      Controller.Json 200 (Controller.DClient (Some client))
        "Client retrieved successfully"
  | Throw message =>
      if includes message "Invalid ID" then
        Controller.createError 400 "VALIDATION_ERROR" "Invalid client ID" message
      else
        Controller.createError 500 "INTERNAL_ERROR" "Failed to retrieve client"
          message
  end.

End Double.


(** ** Histories of the table

    The vocabulary in which the properties below speak of "every reachable
    state": requests served one after the other, each stamped with the clock
    reading of its statement, readings never decreasing.  A write request
    carries the table its pre-check read, which need not be the table its
    statement meets. *)

Module History.

Inductive request : Type :=
| Create (seen : SQLite.database) (clientData : Data.t)
| Update (seen : SQLite.database) (id : JS.jsval) (clientData : Data.t)
| Delete (id : JS.jsval).

Definition run (db : SQLite.database) (now : Z) (r : request)
  : SQLite.database :=
  match r with
  | Create seen clientData => snd (Client.create_racing seen db now clientData)
  | Update seen id clientData => snd (Client.update_racing seen db now id clientData)
  | Delete id => snd (Client.delete db id)
  end.

(** [reachable t db]: [db] is the table at clock reading [t]. *)
Inductive reachable : Z -> SQLite.database -> Prop :=
| reach_empty (t : Z) : reachable t SQLite.empty
| reach_step (t : Z) (db : SQLite.database) (now : Z) (r : request) :
    reachable t db -> t <= now -> reachable now (run db now r).

(** What every stored record satisfies at clock reading [t]. *)
Definition row_ok (t : Z) (r : SQLite.row) : Prop :=
  0 < SQLite.id r /\
  SQLite.created_at r <= SQLite.updated_at r /\
  SQLite.updated_at r <= t /\
  SQLite.name r <> "" /\
  SQLite.email r <> "".

Definition db_ok (t : Z) (db : SQLite.database) : Prop :=
  0 <= SQLite.seq db /\ Forall (row_ok t) (SQLite.rows db).

End History.

(** ** Vocabulary of the statements *)

Definition invalid_id_message : string := "Invalid ID: must be a positive integer".

(** The email a payload's [email] field normalizes to. *)
Definition normalized (v : JS.jsval) : string :=
  JS.toLowerCase (JS.trim (Client.or_empty v)).

(** Some record of the table carries the email. *)
Definition email_taken (db : SQLite.database) (e : string) : Prop :=
  exists r, In r (SQLite.rows db) /\ SQLite.email r = e.

(** Some record other than [i] carries the email. *)
Definition email_taken_by_other (db : SQLite.database) (e : string) (i : Z)
  : Prop :=
  exists r, In r (SQLite.rows db) /\ SQLite.email r = e /\ SQLite.id r <> i.

(** Records that have a phone: the column is not NULL. *)
Definition with_phone (db : SQLite.database) : Z :=
  SQLite.count (filter (fun r => match SQLite.phone r with
                                 | Some _ => true
                                 | None => false
                                 end) (SQLite.rows db)).

Definition without_phone (db : SQLite.database) : Z :=
  SQLite.count (filter (fun r => match SQLite.phone r with
                                 | Some _ => false
                                 | None => true
                                 end) (SQLite.rows db)).

(** The pattern [findAll] binds for a search term, if any. *)
Definition search_pattern (search : option string) : option string :=
  let s := JS.trim (Client.or_string search "") in
  if Client.nonempty s then Some ("%" ++ s ++ "%") else None.

(** The rows the WHERE clause of [findAll] keeps. *)
Definition matching (db : SQLite.database) (search : option string)
  : list SQLite.row :=
  filter (SQLite.where_clause (search_pattern search)) (SQLite.rows db).

(** The direction [findAll] sorts in. *)
Definition sort_direction (order : option string) : SQLite.direction :=
  if (JS.toUpperCase (Client.or_string order "DESC") =? "ASC")%string
  then SQLite.ASC else SQLite.DESC.

(** The slice of a result list that page [p] of size [l] shows. *)
Definition page_slice (p l : Z) (sorted : list SQLite.row) : list SQLite.row :=
  firstn (Z.to_nat l) (skipn (Z.to_nat ((p - 1) * l)) sorted).

(** The table with every phone set to NULL. *)
Definition forget_phones (db : SQLite.database) : SQLite.database :=
  SQLite.mkDb
    (map (fun r => SQLite.mkRow (SQLite.id r) (SQLite.name r) (SQLite.email r)
                     None (SQLite.created_at r) (SQLite.updated_at r))
         (SQLite.rows db))
    (SQLite.seq db).


(** ** Sample requests and tables *)

Module Sample.

Import JS.

Definition john : Data.t :=
  Data.make (JStr "John Doe") (JStr "  JOHN@EX.com ") (JStr "(555) 123-4567").

Definition johnny : Data.t :=
  Data.make (JStr "Johnny") (JStr "john@ex.com") JUndefined.

Definition jane : Data.t :=
  Data.make (JStr "Jane Roe") (JStr "jane@ex.com") JUndefined.

Definition db1 : SQLite.database :=
  History.run SQLite.empty 100 (History.Create SQLite.empty john).

Definition db2 : SQLite.database :=
  History.run db1 200 (History.Create db1 jane).

Definition john_row : SQLite.row :=
  SQLite.mkRow 1 "John Doe" "john@ex.com" (Some "(555) 123-4567") 100 100.

Definition jane_row : SQLite.row :=
  SQLite.mkRow 2 "Jane Roe" "jane@ex.com" None 200 200.

End Sample.

(** The row an INSERT of the validated fields appends at time [now]. *)
Definition inserted (db : SQLite.database) (now : Z) (n e : string)
    (p : option string) : SQLite.row :=
  SQLite.mkRow (Z.max (SQLite.max_rowid (SQLite.rows db)) (SQLite.seq db) + 1)
    n e p now now.

(** ** Kinds of answers *)

(** The duplicate kind: 409 with code DUPLICATE_EMAIL. *)
Definition is_duplicate_error (r : Controller.response) : Prop :=
  exists details,
    r = Controller.Next 409 "DUPLICATE_EMAIL" "Email already exists" details.

(** 201 with the created record. *)
Definition is_created (r : Controller.response) : Prop :=
  exists c,
    r = Controller.Json 201 (Controller.DClient (Some c))
          "Client created successfully".

(** [clientData] with another [name], and with another [email]. *)
Definition with_name (d : Data.t) (v : JS.jsval) : Data.t :=
  Data.make v (Data.email d) (Data.phone d).

Definition with_email (d : Data.t) (v : JS.jsval) : Data.t :=
  Data.make (Data.name d) v (Data.phone d).

(** ** Seeding: [database/seed.js]

    The table exists when the script runs: [isDatabaseInitialized] and
    [initializeDatabase] concern the schema, which the embedding fixes.  The
    [k]-th INSERT of a run reads the clock as [clock k]. *)

Module Seed.

Record sample : Type := mkSample {
  name : string;
  email : string;
  phone : option string
}.

Definition SAMPLE_CLIENTS : list sample :=
  [ mkSample "John Smith" "john.smith@email.com" (Some "(555) 123-4567");
    mkSample "Maria Rodriguez" "maria.rodriguez@gmail.com" (Some "555-987-6543");
    mkSample "James Johnson Jr." "james.johnson@company.com" (Some "(555) 456-7890");
    mkSample "Sarah O'Connor" "sarah.oconnor@outlook.com" (Some "555.321.9876");
    mkSample "Michael Chen" "michael.chen@tech.io" (Some "(555) 654-3210");
    mkSample "Emma Thompson" "emma.thompson@design.co" None;
    mkSample "David Wilson" "david.wilson@startup.com" (Some "555-789-0123");
    mkSample "Lisa Anderson" "lisa.anderson@freelance.net" (Some "(555) 098-7654");
    mkSample "Robert Brown" "robert.brown@consulting.biz" (Some "555 432 1098");
    mkSample "Jennifer Davis" "jennifer.davis@marketing.agency" (Some "(555) 567-8901") ].

(** [insertClient]: the INSERT, then the SELECT of the new row; a UNIQUE
    failure is swallowed and answered [null]. *)
Definition insertClient (db : SQLite.database) (now : Z) (client : sample)
  : result (option SQLite.row) * SQLite.database :=
  match SQLite.insert db now (name client) (email client) (phone client) with
  | (Ok lastID, db') => (Ok (SQLite.select_by_id db' lastID), db')
  | (Throw message, db') =>
      if JS.includes message "UNIQUE constraint failed" then (Ok None, db')
      else (Throw message, db')
  end.

(** [DELETE FROM clients;] leaves the AUTOINCREMENT counter as it is. *)
Definition delete_all (db : SQLite.database) : SQLite.database :=
  SQLite.mkDb [] (SQLite.seq db).

(** The [for ... of] loop of [seedDatabase]: a sample whose insertion answers
    [null] or throws is skipped. *)
Fixpoint insert_each (clients : list sample) (db : SQLite.database)
    (clock : nat -> Z) (k : nat) : list SQLite.row * SQLite.database :=
  match clients with
  | [] => ([], db)
  | clientData :: rest =>
      match insertClient db (clock k) clientData with
      | (Ok (Some insertedClient), db') =>
          let (insertedClients, db'') := insert_each rest db' clock (S k) in
          (insertedClient :: insertedClients, db'')
      | (_, db') => insert_each rest db' clock (S k)
      end
  end.

Definition seedDatabase (clearFirst : bool) (db : SQLite.database)
    (clock : nat -> Z) : list SQLite.row * SQLite.database :=
  let db1 := if clearFirst then delete_all db else db in
  let existingCount := SQLite.count (SQLite.rows db1) in
  if (0 <? existingCount) && negb clearFirst then ([], db1)
  else insert_each SAMPLE_CLIENTS db1 clock 0.

(** [SELECT ... WHERE name IS NULL OR name = '' OR email IS NULL OR email = ''] *)
Definition invalidClients (db : SQLite.database) : list SQLite.row :=
  filter (fun r => (SQLite.name r =? "")%string || (SQLite.email r =? "")%string)
         (SQLite.rows db).

Definition occurrences (e : string) (db : SQLite.database) : Z :=
  SQLite.count (filter (fun r => (SQLite.email r =? e)%string) (SQLite.rows db)).

(** [SELECT email, COUNT( * ) ... GROUP BY email HAVING COUNT( * ) > 1] *)
Definition duplicateEmails (db : SQLite.database) : list (string * Z) :=
  filter (fun g => 1 <? snd g)
    (map (fun e => (e, occurrences e db))
       (nodup string_dec (map SQLite.email (SQLite.rows db)))).

(** [verifySeedData().valid]: the third check, for NULL timestamps, finds
    nothing in a table whose timestamp columns always hold a value. *)
Definition verifySeedData (db : SQLite.database) : bool :=
  if (0 <? List.length (invalidClients db))%nat then false
  else if (0 <? List.length (duplicateEmails db))%nat then false
  else true.

End Seed.

(** ** Keys and stored values *)

Module Integrity.

Definition ids (db : SQLite.database) : list Z :=
  map SQLite.id (SQLite.rows db).

Definition emails (db : SQLite.database) : list string :=
  map SQLite.email (SQLite.rows db).

(** The primary key and the UNIQUE column hold distinct values, and no id
    exceeds the AUTOINCREMENT counter. *)
Definition db_keys (db : SQLite.database) : Prop :=
  NoDup (ids db) /\ NoDup (emails db) /\
  Forall (fun r => SQLite.id r <= SQLite.seq db) (SQLite.rows db).

Definition name_valid (n : string) : Prop :=
  Regex.test Client.nameRegex n = true /\ (String.length n <= 100)%nat.

Definition email_valid (e : string) : Prop :=
  Client._isValidEmail e = true /\ (String.length e <= 100)%nat /\
  JS.toLowerCase e = e.

Definition phone_valid (p : option string) : Prop :=
  match p with
  | None => True
  | Some s => s = "" \/
              (Client._isValidPhone s = true /\ (String.length s <= 20)%nat)
  end.

(** A stored record passes the validators of the model. *)
Definition row_valid (r : SQLite.row) : Prop :=
  name_valid (SQLite.name r) /\ email_valid (SQLite.email r) /\
  phone_valid (SQLite.phone r).

End Integrity.

(** A string with its ASCII letters folded, as LIKE compares them. *)
Definition fold_string : string -> string := JS.map_string SQLite.fold_case.

(** No [%] and no [_] in the string. *)
Fixpoint no_wildcard (s : string) : bool :=
  match s with
  | EmptyString => true
  | String c s' => negb (Ascii.eqb c "%") && negb (Ascii.eqb c "_") && no_wildcard s'
  end.

(** The page numbers 1, ..., [n]. *)
Definition page_numbers (n : nat) : list Z :=
  map (fun k => Z.of_nat k + 1) (List.seq 0 n).

(** The name, trimmed, is not empty, has at most 100 characters and has a
    character outside the allowed set. *)
Definition name_has_invalid_characters (v : JS.jsval) : Prop :=
  let n := JS.trim (Client.or_empty v) in
  n <> "" /\ (String.length n <= 100)%nat /\ Regex.test Client.nameRegex n = false.

(** A field value that is no array and no object: undefined, null, a
    boolean, a string, or an integer that [toString] prints digit by digit. *)
Definition scalar (v : JS.jsval) : Prop :=
  match v with
  | JS.JUndefined | JS.JNull | JS.JBool _ | JS.JStr _ => True
  | JS.JNum n => Z.abs n <= JS.MAX_SAFE_INTEGER
  end.

(** A body whose three fields are such values. *)
Definition scalar_fields (data : Data.t) : Prop :=
  scalar (Data.name data) /\ scalar (Data.email data) /\
  scalar (Data.phone data).

(** The required fields that [validateRequiredFields] finds missing. *)
Definition missing_fields (data : Data.t) : list string :=
  filter (fun field => Controller.is_missing (Controller.field_of data field))
         ["name"; "email"].

(** The sample a stored row was inserted from. *)
Definition sample_of (r : SQLite.row) : Seed.sample :=
  Seed.mkSample (SQLite.name r) (SQLite.email r) (SQLite.phone r).

(** The direction GET /clients asks for. *)
Definition query_direction (order : option string) : SQLite.direction :=
  if (JS.toLowerCase (Client.or_string order "desc") =? "asc")%string
  then SQLite.ASC else SQLite.DESC.
(** * Properties *)

(** ** parseInt after toString *)

Section ParseIntRoundTrip.

Import JS.

Lemma parse_digits_pos (d : Decimal.uint) (a : positive) :
  parse_digits 10 (NilEmpty.string_of_uint d) (Some (Zpos a))
  = Some (Zpos (Pos.of_uint_acc d a)).
Proof.
  revert a; induction d; intro a; cbn [NilEmpty.string_of_uint parse_digits];
    try reflexivity;
    (change (digit_value 10 _) with (Some 0)
     || change (digit_value 10 _) with (Some 1)
     || change (digit_value 10 _) with (Some 2)
     || change (digit_value 10 _) with (Some 3)
     || change (digit_value 10 _) with (Some 4)
     || change (digit_value 10 _) with (Some 5)
     || change (digit_value 10 _) with (Some 6)
     || change (digit_value 10 _) with (Some 7)
     || change (digit_value 10 _) with (Some 8)
     || change (digit_value 10 _) with (Some 9));
    cbn [Pos.of_uint_acc];
    rewrite <- IHd; f_equal; f_equal; lia.
Qed.

Lemma parse_digits_zero (d : Decimal.uint) :
  parse_digits 10 (NilEmpty.string_of_uint d) (Some 0)
  = Some (Z.of_N (Pos.of_uint d)).
Proof.
  induction d; cbn [NilEmpty.string_of_uint parse_digits Pos.of_uint];
    try reflexivity;
    (change (digit_value 10 _) with (Some 0)
     || change (digit_value 10 _) with (Some 1)
     || change (digit_value 10 _) with (Some 2)
     || change (digit_value 10 _) with (Some 3)
     || change (digit_value 10 _) with (Some 4)
     || change (digit_value 10 _) with (Some 5)
     || change (digit_value 10 _) with (Some 6)
     || change (digit_value 10 _) with (Some 7)
     || change (digit_value 10 _) with (Some 8)
     || change (digit_value 10 _) with (Some 9));
    first [ exact IHd | apply parse_digits_pos ].
Qed.

Lemma parse_digits_start (d : Decimal.uint) :
  d <> Decimal.Nil ->
  parse_digits 10 (NilEmpty.string_of_uint d) None
  = parse_digits 10 (NilEmpty.string_of_uint d) (Some 0).
Proof.
  destruct d; intro H; try congruence; reflexivity.
Qed.

Lemma parseInt_string_of_uint (d : Decimal.uint) :
  d <> Decimal.Nil ->
  parseInt_string (NilEmpty.string_of_uint d) = Some (Z.of_N (Pos.of_uint d)).
Proof.
  intro H.
  assert (E : parseInt_string (NilEmpty.string_of_uint d)
              = option_map (Z.mul 1)
                  (parse_digits 10 (NilEmpty.string_of_uint d) None)).
  { destruct d as [|d|d|d|d|d|d|d|d|d|d]; try congruence; try reflexivity.
    destruct d; reflexivity. }
  rewrite E, parse_digits_start, parse_digits_zero by assumption.
  cbn [option_map]. f_equal. lia.
Qed.

Lemma to_uint_not_Nil (p : positive) : Pos.to_uint p <> Decimal.Nil.
Proof.
  intro E. pose proof (DecimalPos.Unsigned.of_to p) as H.
  rewrite E in H. discriminate H.
Qed.

(** A positive integer printed and parsed again is itself. *)
Lemma parseInt_Number (n : Z) : 0 < n -> parseInt (JNum n) = Some n.
Proof.
  intro H. destruct n as [|p|p]; try lia.
  unfold parseInt, toString, Number_toString.
  cbn [Z.to_int NilZero.string_of_int].
  assert (E : NilZero.string_of_uint (Pos.to_uint p)
              = NilEmpty.string_of_uint (Pos.to_uint p)).
  { pose proof (to_uint_not_Nil p). destruct (Pos.to_uint p); congruence || reflexivity. }
  rewrite E, parseInt_string_of_uint by apply to_uint_not_Nil.
  now rewrite DecimalPos.Unsigned.of_to.
Qed.

End ParseIntRoundTrip.

(** ** Identifiers *)

Section Identifiers.

Import JS Controller.

Lemma _validateId_Num (n : Z) : 0 < n -> Client._validateId (JNum n) = Ok n.
Proof.
  intro H. unfold Client._validateId. rewrite parseInt_Number by assumption.
  destruct (n <=? 0) eqn:E; [apply Z.leb_le in E; lia | reflexivity].
Qed.

Lemma findById_Num (db : SQLite.database) (n : Z) :
  0 < n -> Client.findById db (JNum n) = Ok (SQLite.select_by_id db n).
Proof.
  intro H. unfold Client.findById. now rewrite _validateId_Num.
Qed.

(** Both validators are the same function of the string. *)
Lemma validateIdParameter_eq (id : string) :
  validateIdParameter id = Client._validateId (JStr id).
Proof. reflexivity. Qed.

Lemma validateIdParameter_Ok (id : string) (n : Z) :
  parseInt_string id = Some n -> 0 < n -> validateIdParameter id = Ok n.
Proof.
  intros P H. unfold validateIdParameter, parseInt, toString. rewrite P.
  destruct (n <=? 0) eqn:E; [apply Z.leb_le in E; lia | reflexivity].
Qed.

Lemma validateIdParameter_Throw (id : string) :
  (forall n, parseInt_string id = Some n -> n <= 0) ->
  validateIdParameter id = Throw invalid_id_message.
Proof.
  intro H. unfold validateIdParameter, parseInt, toString.
  destruct (parseInt_string id) as [n|]; [|reflexivity].
  specialize (H n eq_refl).
  destruct (n <=? 0) eqn:E; [reflexivity | apply Z.leb_gt in E; lia].
Qed.

(** What the handler answers, by the value [parseInt] gives the parameter. *)
Lemma getClientById_invalid (db : SQLite.database) (id : string) :
  (forall n, parseInt_string id = Some n -> n <= 0) ->
  getClientById db id
  = Next 400 "VALIDATION_ERROR" "Invalid client ID" invalid_id_message.
Proof.
  intro H. unfold getClientById. rewrite validateIdParameter_Throw by assumption.
  reflexivity.
Qed.

Lemma getClientById_valid (db : SQLite.database) (id : string) (n : Z) :
  parseInt_string id = Some n -> 0 < n ->
  getClientById db id
  = match SQLite.select_by_id db n with
    | Some client => Json 200 (DClient (Some client)) "Client retrieved successfully"
    | None => Next 404 "NOT_FOUND" "Client not found"
                ("No client found with ID " ++ Number_toString n)
    end.
Proof.
  intros P H. unfold getClientById.
  rewrite (validateIdParameter_Ok id n P H). cbn [bind].
  rewrite findById_Num by assumption. cbn [bind].
  destruct (SQLite.select_by_id db n); reflexivity.
Qed.

(** C3.  GET /clients/1000000000000000000000, computed with doubles.  The
    parameter is a well-formed positive integer and passes
    [validateIdParameter] as the Number 1e21.  [findById] hands it to
    [_validateId], whose [parseInt] converts it to the string "1e+21" and
    reads 1: the request is answered with record 1 where there is one (200,
    although no record has the id asked for), and is the request for id 1 on
    every table. *)
Theorem huge_id_is_read_as_id_1 :
  parseInt_string "1000000000000000000000" = Some (10 ^ 21)
  /\ Double.validateIdParameter "1000000000000000000000"
     = Ok (Number.Finite (10 ^ 21))
  /\ Number.toString (Number.Finite (10 ^ 21)) = "1e+21"
  /\ Double._validateId (Double.Num (Number.Finite (10 ^ 21)))
     = Ok (Number.Finite 1)
  /\ SQLite.select_by_id Sample.db1 (10 ^ 21) = None
  /\ Double.getClientById Sample.db1 "1000000000000000000000"
     = Json 200 (DClient (Some Sample.john_row)) "Client retrieved successfully"
  /\ (forall db : SQLite.database,
        Double.getClientById db "1000000000000000000000"
        = match SQLite.select_by_id db 1 with
          | Some client =>
              Json 200 (DClient (Some client)) "Client retrieved successfully"
          | None =>
              Next 404 "NOT_FOUND" "Client not found"
                "No client found with ID 1e+21"
          end).
Proof.
  assert (V : Double.validateIdParameter "1000000000000000000000"
              = Ok (Number.Finite (10 ^ 21))) by (vm_compute; reflexivity).
  assert (W : Double._validateId (Double.Num (Number.Finite (10 ^ 21)))
              = Ok (Number.Finite 1)) by (vm_compute; reflexivity).
  assert (T : Number.toString (Number.Finite (10 ^ 21)) = "1e+21")
    by (vm_compute; reflexivity).
  assert (G : forall db : SQLite.database,
             Double.getClientById db "1000000000000000000000"
             = match SQLite.select_by_id db 1 with
               | Some client =>
                   Json 200 (DClient (Some client)) "Client retrieved successfully"
               | None =>
                   Next 404 "NOT_FOUND" "Client not found"
                     "No client found with ID 1e+21"
               end).
  { intro db. unfold Double.getClientById, Double.findById.
    rewrite V. cbn [bind]. rewrite W. cbn [bind try_catch Double.select_by_id].
    rewrite T. destruct (SQLite.select_by_id db 1); reflexivity. }
  split; [vm_compute; reflexivity|]. split; [exact V|]. split; [exact T|].
  split; [exact W|]. split; [vm_compute; reflexivity|].
  split; [rewrite G; reflexivity | exact G].
Qed.

(** C10.  Identifier validation is [parseInt] on the raw parameter, in the
    controller and in the model alike: a parameter whose prefix reads as a
    positive integer [n] is dispatched as id [n] (200 with the record, or 404),
    "12abc" being read as 12; the answer is 400 exactly when [parseInt]
    yields no positive integer. *)
Theorem id_prefix_accepted (db : SQLite.database) (id : string) :
  validateIdParameter id = Client._validateId (JStr id)
  /\ (forall n : Z,
        parseInt_string id = Some n -> 0 < n <= MAX_SAFE_INTEGER ->
        validateIdParameter id = Ok n
        /\ getClientById db id
           = match SQLite.select_by_id db n with
             | Some client =>
                 Json 200 (DClient (Some client)) "Client retrieved successfully"
             | None =>
                 Next 404 "NOT_FOUND" "Client not found"
                   ("No client found with ID " ++ Number_toString n)
             end)
  /\ (status_of (getClientById db id) = 400
      <-> forall n, parseInt_string id = Some n -> n <= 0)
  /\ parseInt_string "12abc" = Some 12
  /\ getClientById db "12abc" = getClientById db "12".
Proof.
  split; [apply validateIdParameter_eq|]. split; [|split; [|split]].
  - intros n P [H _]. split.
    + now apply validateIdParameter_Ok.
    + now apply getClientById_valid.
  - split.
    + intros S n P. destruct (Z.leb_spec n 0) as [L|L]; [exact L|].
      rewrite (getClientById_valid db id n P L) in S.
      destruct (SQLite.select_by_id db n); discriminate S.
    + intro H. now rewrite getClientById_invalid.
  - reflexivity.
  - rewrite (getClientById_valid db "12abc" 12), (getClientById_valid db "12" 12);
      reflexivity || lia.
Qed.

Lemma id_prefix_accepted_witness :
  getClientById Sample.db2 "2nd"
  = Json 200 (DClient (Some Sample.jane_row)) "Client retrieved successfully".
Proof.
  destruct (id_prefix_accepted Sample.db2 "2nd") as (_ & A & _).
  apply (A 2 eq_refl).
  vm_compute; split; [reflexivity | discriminate].
Defined.

End Identifiers.

(** ** Invariants of the table *)

Section Invariants.

Import JS History.

Lemma nonempty_true (s : string) : Client.nonempty s = true -> s <> "".
Proof.
  unfold Client.nonempty. intros H E. subst s. discriminate H.
Qed.

Ltac split_ifs :=
  repeat match goal with
         | H : context [if ?b then _ else _] |- _ => destruct b eqn:?
         end.

Lemma validate_name_nonempty (v : jsval) (b : bool) (n : string) :
  Client.validate_name v b = Ok (Some n) -> n <> "".
Proof.
  unfold Client.validate_name. intro H. split_ifs; try discriminate H.
  injection H as <-. now apply nonempty_true.
Qed.

Lemma validate_email_nonempty (v : jsval) (b : bool) (e : string) :
  Client.validate_email v b = Ok (Some e) -> e <> "".
Proof.
  unfold Client.validate_email. intro H. split_ifs; try discriminate H.
  injection H as <-. now apply nonempty_true.
Qed.

Lemma validate_name_required (v : jsval) (x : option string) :
  Client.validate_name v true = Ok x ->
  x = Some (trim (Client.or_empty v)) /\ trim (Client.or_empty v) <> "".
Proof.
  unfold Client.validate_name. intro H.
  destruct (Client.is_undefined v); cbn [negb andb] in H; [discriminate H|].
  destruct (Client.nonempty (trim (Client.or_empty v))) eqn:E;
    cbn [negb andb] in H; [|discriminate H].
  split_ifs; try discriminate H.
  injection H as <-. split; [reflexivity | now apply nonempty_true].
Qed.

Lemma validate_email_required (v : jsval) (x : option string) :
  Client.validate_email v true = Ok x ->
  x = Some (normalized v) /\ normalized v <> "".
Proof.
  unfold Client.validate_email, normalized. intro H.
  destruct (Client.is_undefined v); cbn [negb andb] in H; [discriminate H|].
  destruct (Client.nonempty (toLowerCase (trim (Client.or_empty v)))) eqn:E;
    cbn [negb andb] in H; [|discriminate H].
  split_ifs; try discriminate H.
  injection H as <-. split; [reflexivity | now apply nonempty_true].
Qed.

(** The parts of a successful validation. *)
Lemma _validateClientData_Ok (data : Data.t) (b : bool) (v : Validated.t) :
  Client._validateClientData data b = Ok v ->
  Client.validate_name (Data.name data) b = Ok (Validated.name v) /\
  Client.validate_email (Data.email data) b = Ok (Validated.email v) /\
  Client.validate_phone (Data.phone data) = Ok (Validated.phone v).
Proof.
  unfold Client._validateClientData, bind. intro H.
  destruct (Client.validate_name _ _); [|discriminate H].
  destruct (Client.validate_email _ _); [|discriminate H].
  destruct (Client.validate_phone _); [|discriminate H].
  injection H as <-. auto.
Qed.

Lemma row_ok_later (t t' : Z) (r : SQLite.row) :
  t <= t' -> row_ok t r -> row_ok t' r.
Proof. unfold row_ok. intuition lia. Qed.

Lemma db_ok_later (t t' : Z) (db : SQLite.database) :
  t <= t' -> db_ok t db -> db_ok t' db.
Proof.
  intros L [S F]. split; [exact S|].
  eapply Forall_impl; [|exact F]. intros r. now apply row_ok_later.
Qed.

Lemma max_rowid_nonneg (l : list SQLite.row) : 0 <= SQLite.max_rowid l.
Proof.
  induction l as [|x l IH]; [cbn; lia|].
  change (SQLite.max_rowid (x :: l))
    with (Z.max (SQLite.id x) (SQLite.max_rowid l)).
  lia.
Qed.

Lemma max_rowid_bound (l : list SQLite.row) (r : SQLite.row) :
  In r l -> SQLite.id r <= SQLite.max_rowid l.
Proof.
  induction l as [|x l IH]; [intros []|].
  change (SQLite.max_rowid (x :: l))
    with (Z.max (SQLite.id x) (SQLite.max_rowid l)).
  intros [->|H]; [lia | specialize (IH H); lia].
Qed.

Lemma insert_ok (now : Z) (db : SQLite.database) (n e : string)
    (p : option string) :
  db_ok now db -> n <> "" -> e <> "" ->
  db_ok now (snd (SQLite.insert db now n e p)).
Proof.
  intros [S F] Hn He. unfold SQLite.insert.
  destruct (existsb _ _); cbn [snd]; [now split|].
  pose proof (max_rowid_nonneg (SQLite.rows db)).
  split; cbn [SQLite.seq SQLite.rows]; [lia|].
  apply Forall_app. split; [exact F|].
  constructor; [|constructor].
  unfold row_ok; cbn. repeat split; try assumption; lia.
Qed.

Lemma update_ok (now : Z) (db : SQLite.database) (a : SQLite.assignments)
    (i : Z) :
  db_ok now db ->
  (forall n, SQLite.set_name a = Some n -> n <> "") ->
  (forall e, SQLite.set_email a = Some e -> e <> "") ->
  db_ok now (snd (SQLite.update db now a i)).
Proof.
  intros [S F] Hn He. unfold SQLite.update.
  destruct (SQLite.select_by_id db i) as [x|]; [|now split].
  match goal with |- context [if ?c then _ else _] => destruct c end;
    cbn [snd]; [now split|].
  split; [exact S|]. cbn [SQLite.rows].
  unfold SQLite.trigger_updated_at. rewrite map_map.
  apply Forall_map. eapply Forall_impl; [|exact F].
  intros r (Hi & Hc & Hu & Hne & Hee).
  destruct (SQLite.id r =? i) eqn:E.
  - cbn [SQLite.assign SQLite.id]. rewrite E.
    unfold row_ok; cbn. repeat split; try lia.
    + destruct (SQLite.set_name a) eqn:N; [now apply Hn | exact Hne].
    + destruct (SQLite.set_email a) eqn:M; [now apply He | exact Hee].
  - rewrite E. unfold row_ok. auto.
Qed.

Lemma delete_ok (t : Z) (db : SQLite.database) (i : Z) :
  db_ok t db -> db_ok t (snd (SQLite.delete db i)).
Proof.
  intros [S F]. unfold SQLite.delete. cbn [snd]. split; [exact S|].
  cbn [SQLite.rows]. apply Forall_forall. intros r H.
  apply filter_In in H. rewrite Forall_forall in F. now apply F.
Qed.

(** The table a create leaves: untouched, or the INSERT of the validated
    fields. *)
Lemma create_racing_table (seen db : SQLite.database) (now : Z)
    (data : Data.t) :
  snd (Client.create_racing seen db now data) = db \/
  exists v n e,
    Client._validateClientData data true = Ok v /\
    Validated.name v = Some n /\ Validated.email v = Some e /\
    snd (Client.create_racing seen db now data)
    = snd (SQLite.insert db now n e (Client.flatten (Validated.phone v))).
Proof.
  unfold Client.create_racing, bind.
  destruct (Client._validateClientData data true) as [v|] eqn:V; [|now left].
  destruct (Client._checkEmailUniqueness seen _ _); [|now left].
  unfold Client.run_insert.
  destruct (Validated.name v) as [n|] eqn:N; [|now left].
  destruct (Validated.email v) as [e|] eqn:M; [|now left].
  right. exists v, n, e. repeat split; try assumption.
  destruct (SQLite.insert db now n e _) as [[i|m] db']; reflexivity.
Qed.

(** The table an update leaves: untouched, or the UPDATE of the validated
    fields. *)
Lemma update_racing_table (seen db : SQLite.database) (now : Z)
    (id : jsval) (data : Data.t) :
  snd (Client.update_racing seen db now id data) = db \/
  exists v i,
    Client._validateClientData data false = Ok v /\
    snd (Client.update_racing seen db now id data)
    = snd (SQLite.update db now (Client.updateFields v) i).
Proof.
  unfold Client.update_racing, bind.
  destruct (Client._validateId id) as [i|]; [|now left].
  destruct (Client.findById seen (JNum i)) as [[x|]|]; try now left.
  destruct (Client._validateClientData data false) as [v|] eqn:V; [|now left].
  match goal with |- context [if ?c then _ else _] => destruct c end.
  - destruct (Client._checkEmailUniqueness seen _ _); [|now left].
    destruct (Client.no_fields _); [now left|].
    right. exists v, i. split; [reflexivity|].
    destruct (SQLite.update db now _ i) as [[k|m] db']; reflexivity.
  - destruct (Client.no_fields _); [now left|].
    right. exists v, i. split; [reflexivity|].
    destruct (SQLite.update db now _ i) as [[k|m] db']; reflexivity.
Qed.

Lemma delete_table (db : SQLite.database) (id : jsval) :
  snd (Client.delete db id) = db \/
  exists i, snd (Client.delete db id) = snd (SQLite.delete db i).
Proof.
  unfold Client.delete, bind.
  destruct (Client._validateId id) as [i|]; [|now left].
  destruct (Client.findById db (JNum i)) as [[x|]|]; try now left.
  right. exists i. unfold SQLite.delete. reflexivity.
Qed.

Lemma run_ok (now : Z) (db : SQLite.database) (r : request) :
  db_ok now db -> db_ok now (run db now r).
Proof.
  intro H. destruct r as [seen data|seen id data|id]; cbn [run].
  - destruct (create_racing_table seen db now data)
      as [->|(v & n & e & V & N & M & ->)]; [exact H|].
    apply _validateClientData_Ok in V. destruct V as (Vn & Ve & _).
    rewrite N in Vn. rewrite M in Ve.
    apply insert_ok; [exact H | | ].
    + eapply validate_name_nonempty, Vn.
    + eapply validate_email_nonempty, Ve.
  - destruct (update_racing_table seen db now id data)
      as [->|(v & i & V & ->)]; [exact H|].
    apply _validateClientData_Ok in V. destruct V as (Vn & Ve & _).
    apply update_ok; [exact H | | ]; cbn [Client.updateFields SQLite.set_name SQLite.set_email].
    + intros n N. rewrite N in Vn. eapply validate_name_nonempty, Vn.
    + intros e M. rewrite M in Ve. eapply validate_email_nonempty, Ve.
  - destruct (delete_table db id) as [->|(i & ->)]; [exact H|].
    now apply delete_ok.
Qed.

Lemma reachable_ok (t : Z) (db : SQLite.database) :
  reachable t db -> db_ok t db.
Proof.
  induction 1 as [t|t db now r _ IH L].
  - split; [cbn; lia | constructor].
  - apply run_ok. now apply (db_ok_later t).
Qed.

End Invariants.

(** ** Listing *)

Section Listing.

Import JS.

Lemma _validateSortField_column (field : string) :
  exists c, SQLite.column_of_name (Client._validateSortField field) = Some c.
Proof.
  unfold Client._validateSortField, Client.allowedFields, existsb.
  unfold SQLite.column_of_name.
  destruct (field =? "id")%string eqn:E1; cbn [orb negb]; [rewrite E1; eauto|].
  destruct (field =? "name")%string eqn:E2; cbn [orb negb];
    [rewrite E1, E2; eauto|].
  destruct (field =? "email")%string eqn:E3; cbn [orb negb];
    [rewrite E1, E2, E3; eauto|].
  destruct (field =? "phone")%string eqn:E4; cbn [orb negb];
    [rewrite E1, E2, E3, E4; eauto|].
  destruct (field =? "created_at")%string eqn:E5; cbn [orb negb];
    [rewrite E1, E2, E3, E4, E5; eauto|].
  destruct (field =? "updated_at")%string eqn:E6; cbn [orb negb];
    [rewrite E1, E2, E3, E4, E5, E6; eauto|].
  cbn. eauto.
Qed.


(** [findAll] unfolded on the vocabulary of the statements. *)
Lemma findAll_unfold (db : SQLite.database) (o : Options.t) :
  exists c,
    SQLite.column_of_name
      (Client._validateSortField (Client.or_string (Options.sortBy o) "created_at"))
    = Some c /\
    let page := Z.max 1 (number_or (parseInt (Options.page o)) 1) in
    let limit := Z.min 100 (Z.max 1 (number_or (parseInt (Options.limit o)) 10)) in
    let rows := matching db (Options.search o) in
    let total := SQLite.count rows in
    Client.findAll db o
    = Ok (Listing.make
            (page_slice page limit
               (SQLite.order_by c (sort_direction (Options.order o)) rows))
            total page limit (Client.ceil_div total limit)
            (page <? Client.ceil_div total limit) (1 <? page)).
Proof.
  destruct (_validateSortField_column
              (Client.or_string (Options.sortBy o) "created_at")) as [c C].
  exists c. split; [exact C|].
  unfold Client.findAll, SQLite.select_page. cbv zeta. rewrite C.
  reflexivity.
Qed.

Lemma place_length (c : SQLite.column) (d : SQLite.direction)
    (x : SQLite.row) (l : list SQLite.row) :
  List.length (SQLite.place c d x l) = S (List.length l).
Proof.
  induction l as [|y l IH]; [reflexivity|].
  cbn [SQLite.place]. destruct (SQLite.before c d x y); cbn [List.length];
    [reflexivity | now rewrite IH].
Qed.

Lemma order_by_length (c : SQLite.column) (d : SQLite.direction)
    (l : list SQLite.row) :
  List.length (SQLite.order_by c d l) = List.length l.
Proof.
  induction l as [|x l IH]; [reflexivity|].
  change (SQLite.order_by c d (x :: l))
    with (SQLite.place c d x (SQLite.order_by c d l)).
  rewrite place_length, IH. reflexivity.
Qed.

Lemma ceil_div_covers (a b : Z) :
  0 <= a -> 0 < b -> a <= Client.ceil_div a b * b.
Proof.
  intros Ha Hb. unfold Client.ceil_div.
  pose proof (Z.div_mod (a + b - 1) b ltac:(lia)).
  pose proof (Z.mod_pos_bound (a + b - 1) b Hb). nia.
Qed.

Lemma ceil_div_least (a b : Z) :
  0 <= a -> 0 < b -> (Client.ceil_div a b - 1) * b < a \/ (a = 0 /\ Client.ceil_div a b = 0).
Proof.
  intros Ha Hb. unfold Client.ceil_div.
  pose proof (Z.div_mod (a + b - 1) b ltac:(lia)).
  pose proof (Z.mod_pos_bound (a + b - 1) b Hb).
  destruct (Z.eq_dec a 0) as [->|N].
  - right. split; [reflexivity|]. apply Z.div_small. lia.
  - left. nia.
Qed.

Lemma page_slice_beyond (p l : Z) (sorted : list SQLite.row) :
  0 < l -> SQLite.count sorted <= (p - 1) * l -> page_slice p l sorted = [].
Proof.
  intros Hl H. unfold page_slice, SQLite.count in *.
  rewrite skipn_all2; [now rewrite firstn_nil | lia].
Qed.

Lemma page_slice_within (p l : Z) (sorted : list SQLite.row) :
  0 < l -> 1 <= p -> (p - 1) * l < SQLite.count sorted ->
  page_slice p l sorted <> [].
Proof.
  intros Hl Hp H. unfold page_slice, SQLite.count in *. intro E.
  apply (f_equal (@List.length _)) in E.
  rewrite length_firstn, length_skipn in E. cbn [List.length] in E. nia.
Qed.

End Listing.

(** ** Pagination and sorting of [findAll] *)

Section FindAll.

Import JS.

(** C6.  [findAll] on a page number far beyond the last page, computed with
    doubles.  The page 1e21 is read as page 1, since [parseInt] converts the
    Number to the string "1e+21": on the table of two records the first page
    comes back, both records on it, where the list should be empty.  The page
    1e19 is read as it is, and its offset 1e20 is no 64-bit integer: the page
    query fails, and [findAll] throws. *)
Theorem huge_page_is_read_as_page_1 :
  Double.parseInt (Double.Num (Number.Finite (10 ^ 21))) = Number.Finite 1
  /\ (forall (db : SQLite.database) (limit : Double.value)
             (search sortBy order : option string),
        Double.findAll db
          (Double.Options.make (Double.Num (Number.Finite (10 ^ 21))) limit
             search sortBy order)
        = Double.findAll db
            (Double.Options.make (Double.Num (Number.Finite 1)) limit
               search sortBy order))
  /\ Double.findAll Sample.db2
       (Double.Options.make (Double.Num (Number.Finite (10 ^ 21)))
          (Double.Num (Number.Finite 10)) None None None)
     = Ok (Double.Listing.make [Sample.jane_row; Sample.john_row] 2
             (Number.Finite 1) (Number.Finite 10) (Number.Finite 1) false false)
  /\ (exists message : string,
        Double.findAll Sample.db2
          (Double.Options.make (Double.Num (Number.Finite (10 ^ 19)))
             (Double.Num (Number.Finite 10)) None None None)
        = Throw message).
Proof.
  assert (P : Double.parseInt (Double.Num (Number.Finite (10 ^ 21)))
              = Double.parseInt (Double.Num (Number.Finite 1)))
    by (vm_compute; reflexivity).
  split; [vm_compute; reflexivity|]. split; [|split].
  - intros db limit search sortBy order. unfold Double.findAll.
    cbn [Double.Options.page Double.Options.limit Double.Options.search
         Double.Options.sortBy Double.Options.order].
    rewrite P. reflexivity.
  - vm_compute. reflexivity.
  - eexists. vm_compute. reflexivity.
Qed.



End FindAll.

(** ** Statements against the table *)

Section Statements.

Import JS.

Lemma find_id_fresh (l : list SQLite.row) (x : SQLite.row) :
  (forall r, In r l -> SQLite.id r <> SQLite.id x) ->
  find (fun r => SQLite.id r =? SQLite.id x) (l ++ [x]) = Some x.
Proof.
  induction l as [|y l IH]; intro H; cbn [app find].
  - now rewrite Z.eqb_refl.
  - destruct (SQLite.id y =? SQLite.id x) eqn:E.
    + apply Z.eqb_eq in E. exfalso. apply (H y); [now left | exact E].
    + apply IH. intros r I. apply H. now right.
Qed.

Lemma find_id_map (f : SQLite.row -> SQLite.row) (i : Z)
    (l : list SQLite.row) :
  (forall r, SQLite.id (f r) = SQLite.id r) ->
  find (fun r => SQLite.id r =? i) (map f l)
  = option_map f (find (fun r => SQLite.id r =? i) l).
Proof.
  intro H. induction l as [|y l IH]; [reflexivity|].
  cbn [map find]. rewrite H. destruct (SQLite.id y =? i); [reflexivity|exact IH].
Qed.

Lemma select_by_id_id (db : SQLite.database) (i : Z) (r : SQLite.row) :
  SQLite.select_by_id db i = Some r -> In r (SQLite.rows db) /\ SQLite.id r = i.
Proof.
  unfold SQLite.select_by_id. intro H. apply find_some in H.
  destruct H as [I E]. apply Z.eqb_eq in E. now split.
Qed.

Lemma existsb_email (db : SQLite.database) (e : string) :
  existsb (fun r => (SQLite.email r =? e)%string) (SQLite.rows db) = true
  <-> email_taken db e.
Proof.
  unfold email_taken. rewrite existsb_exists.
  split; intros (r & I & E); exists r; split; try assumption;
    now apply String.eqb_eq.
Qed.

Lemma insert_taken (db : SQLite.database) (now : Z) (n e : string)
    (p : option string) :
  email_taken db e ->
  SQLite.insert db now n e p = (Throw SQLite.UNIQUE_email, db).
Proof.
  intro T. unfold SQLite.insert. apply existsb_email in T. now rewrite T.
Qed.

Lemma insert_fresh (db : SQLite.database) (now : Z) (n e : string)
    (p : option string) :
  ~ email_taken db e ->
  SQLite.insert db now n e p
  = (Ok (SQLite.id (inserted db now n e p)),
     SQLite.mkDb (SQLite.rows db ++ [inserted db now n e p])
       (SQLite.id (inserted db now n e p))).
Proof.
  intro T. unfold SQLite.insert.
  destruct (existsb _ _) eqn:E; [apply existsb_email in E; contradiction|].
  reflexivity.
Qed.

Lemma inserted_id_pos (db : SQLite.database) (now : Z) (n e : string)
    (p : option string) : 0 < SQLite.id (inserted db now n e p).
Proof.
  cbn [inserted SQLite.id].
  pose proof (max_rowid_nonneg (SQLite.rows db)). lia.
Qed.

Lemma select_inserted (db : SQLite.database) (now : Z) (n e : string)
    (p : option string) :
  SQLite.select_by_id
    (SQLite.mkDb (SQLite.rows db ++ [inserted db now n e p])
       (SQLite.id (inserted db now n e p)))
    (SQLite.id (inserted db now n e p))
  = Some (inserted db now n e p).
Proof.
  unfold SQLite.select_by_id. cbn [SQLite.rows].
  apply find_id_fresh. intros r I.
  pose proof (max_rowid_bound _ _ I). cbn [inserted SQLite.id]. lia.
Qed.

Lemma _checkEmailUniqueness_create (db : SQLite.database) (e : string) :
  (email_taken db e /\
   Client._checkEmailUniqueness db (Some e) None
   = Throw "Email address already exists")
  \/ (~ email_taken db e /\
      Client._checkEmailUniqueness db (Some e) None = Ok tt).
Proof.
  unfold Client._checkEmailUniqueness, SQLite.select_by_email.
  destruct (find _ _) as [r|] eqn:F.
  - left. split; [|reflexivity]. apply find_some in F. destruct F as [I E].
    rewrite andb_true_r in E. apply String.eqb_eq in E. now exists r.
  - right. split; [|reflexivity]. intros (r & I & E).
    apply (find_none _ _ F) in I. rewrite andb_true_r in I.
    apply String.eqb_neq in I. contradiction.
Qed.

(** A create whose validated email no record carries, at the pre-check and at
    the INSERT, stores and returns the inserted row. *)
Lemma create_racing_fresh (seen db : SQLite.database) (now : Z)
    (data : Data.t) (v : Validated.t) (n e : string) :
  Client._validateClientData data true = Ok v ->
  Validated.name v = Some n -> Validated.email v = Some e ->
  ~ email_taken seen e -> ~ email_taken db e ->
  let r := inserted db now n e (Client.flatten (Validated.phone v)) in
  Client.create_racing seen db now data
  = (Ok r, SQLite.mkDb (SQLite.rows db ++ [r]) (SQLite.id r)).
Proof.
  intros V N M Ts Td r. unfold Client.create_racing. rewrite V. cbn [bind].
  rewrite M. destruct (_checkEmailUniqueness_create seen e) as [[T _]|[_ ->]];
    [contradiction|].
  cbn [bind]. unfold Client.run_insert. rewrite N, M.
  rewrite insert_fresh by assumption. fold r.
  rewrite findById_Num by apply inserted_id_pos.
  unfold r. rewrite select_inserted. reflexivity.
Qed.

(** A create whose validated email some record carries when the INSERT runs
    throws the duplicate message, from the pre-check or from the constraint,
    and stores nothing. *)
Lemma create_racing_taken (seen db : SQLite.database) (now : Z)
    (data : Data.t) (v : Validated.t) (e : string) :
  Client._validateClientData data true = Ok v ->
  Validated.email v = Some e ->
  email_taken db e ->
  Client.create_racing seen db now data
  = (Throw (if existsb (fun r => (SQLite.email r =? e)%string) (SQLite.rows seen)
            then "Failed to create client: Email address already exists"
            else "Email address already exists"), db).
Proof.
  intros V M T. unfold Client.create_racing. rewrite V. cbn [bind]. rewrite M.
  destruct (_checkEmailUniqueness_create seen e) as [[Ts ->]|[Ts ->]].
  - apply existsb_email in Ts. rewrite Ts. reflexivity.
  - destruct (existsb _ (SQLite.rows seen)) eqn:X;
      [apply existsb_email in X; contradiction|].
    cbn [bind]. unfold Client.run_insert. rewrite M.
    apply _validateClientData_Ok in V. destruct V as (Vn & _ & _).
    apply validate_name_required in Vn. destruct Vn as [-> _].
    rewrite insert_taken by assumption. reflexivity.
Qed.

(** Every successful create is of the first kind. *)
Lemma create_racing_Ok (seen db : SQLite.database) (now : Z) (data : Data.t)
    (r : SQLite.row) (db' : SQLite.database) :
  Client.create_racing seen db now data = (Ok r, db') ->
  exists v n,
    Client._validateClientData data true = Ok v /\
    Validated.name v = Some n /\
    Validated.email v = Some (normalized (Data.email data)) /\
    ~ email_taken db (normalized (Data.email data)) /\
    r = inserted db now n (normalized (Data.email data))
          (Client.flatten (Validated.phone v)) /\
    db' = SQLite.mkDb (SQLite.rows db ++ [r]) (SQLite.id r).
Proof.
  intro H.
  destruct (Client._validateClientData data true) as [v|m] eqn:V.
  2:{ unfold Client.create_racing in H. rewrite V in H. cbn [bind] in H.
      unfold Client.create_catch in H. destruct (includes _ _); discriminate H. }
  pose proof (_validateClientData_Ok _ _ _ V) as (Vn & Ve & _).
  apply validate_name_required in Vn. destruct Vn as [N _].
  apply validate_email_required in Ve. destruct Ve as [M _].
  set (e := normalized (Data.email data)) in *.
  destruct (existsb (fun r => (SQLite.email r =? e)%string) (SQLite.rows db))
    eqn:Td.
  { apply existsb_email in Td.
    rewrite (create_racing_taken seen db now data v e V M Td) in H.
    discriminate H. }
  assert (Td' : ~ email_taken db e).
  { intro T. apply existsb_email in T. congruence. }
  destruct (_checkEmailUniqueness_create seen e) as [[Ts C]|[Ts C]].
  { unfold Client.create_racing in H. rewrite V in H. cbn [bind] in H.
    rewrite M, C in H. discriminate H. }
  rewrite (create_racing_fresh seen db now data v _ e V N M Ts Td') in H.
  injection H as <- <-. exists v, (trim (Client.or_empty (Data.name data))).
  repeat split; assumption || reflexivity.
Qed.

End Statements.

Section UpdateStatement.

Import JS.

Lemma _validateId_pos (id : jsval) (i : Z) :
  Client._validateId id = Ok i -> 0 < i.
Proof.
  unfold Client._validateId. destruct (parseInt id) as [n|]; [|discriminate].
  destruct (n <=? 0) eqn:E; [discriminate|].
  intro H. injection H as <-. now apply Z.leb_gt in E.
Qed.

(** The UPDATE of an absent row changes nothing. *)
Lemma update_absent (db : SQLite.database) (now : Z)
    (a : SQLite.assignments) (i : Z) :
  SQLite.select_by_id db i = None ->
  SQLite.update db now a i = (Ok 0, db).
Proof. intro H. unfold SQLite.update. now rewrite H. Qed.

(** The UPDATE of a present row either meets the UNIQUE constraint or leaves
    the row with its assignments and [updated_at = now]. *)
Lemma update_present (db : SQLite.database) (now : Z)
    (a : SQLite.assignments) (i : Z) (old : SQLite.row) :
  SQLite.select_by_id db i = Some old ->
  SQLite.update db now a i = (Throw SQLite.UNIQUE_email, db)
  \/ exists db',
       SQLite.update db now a i = (Ok 1, db') /\
       SQLite.select_by_id db' i = Some (SQLite.assign a now old).
Proof.
  intro H. unfold SQLite.update. rewrite H.
  match goal with |- context [if ?c then _ else _] => destruct c end;
    [now left|].
  right. eexists. split; [reflexivity|].
  unfold SQLite.select_by_id, SQLite.trigger_updated_at. cbn [SQLite.rows].
  rewrite map_map, find_id_map.
  - unfold SQLite.select_by_id in H. rewrite H. cbn [option_map].
    apply find_some in H. destruct H as [_ E]. rewrite E.
    cbn [SQLite.assign SQLite.id]. rewrite E. reflexivity.
  - intro r. destruct (SQLite.id r =? i) eqn:E.
    + cbn [SQLite.assign SQLite.id]. rewrite E. reflexivity.
    + rewrite E. reflexivity.
Qed.

Lemma update_racing_Ok (seen db : SQLite.database) (now : Z) (id : jsval)
    (data : Data.t) (r : SQLite.row) (db' : SQLite.database) :
  Client.update_racing seen db now id data = (Ok (Some r), db') ->
  exists i existing v,
    Client._validateId id = Ok i /\
    SQLite.select_by_id seen i = Some existing /\
    Client._validateClientData data false = Ok v /\
    ((Client.no_fields (Client.updateFields v) = true /\
      r = existing /\ db' = db)
     \/ (Client.no_fields (Client.updateFields v) = false /\
         exists old,
           SQLite.select_by_id db i = Some old /\
           r = SQLite.assign (Client.updateFields v) now old /\
           SQLite.select_by_id db' i = Some r)).
Proof.
  unfold Client.update_racing, bind.
  destruct (Client._validateId id) as [i|m] eqn:I.
  2:{ unfold Client.update_catch. destruct (includes _ _); discriminate. }
  pose proof (_validateId_pos _ _ I) as P.
  rewrite (findById_Num seen i P).
  destruct (SQLite.select_by_id seen i) as [existing|] eqn:X.
  2:{ unfold Client.update_catch. destruct (includes _ _); discriminate. }
  destruct (Client._validateClientData data false) as [v|m] eqn:V.
  2:{ unfold Client.update_catch. destruct (includes _ _); discriminate. }
  intro H. exists i, existing, v.
  split; [reflexivity|]. split; [exact X|]. split; [reflexivity|].
  assert (K :
    (if Client.no_fields (Client.updateFields v)
     then (Ok (Some existing), db)
     else
       match SQLite.update db now (Client.updateFields v) i with
       | (Ok _, d) => (try_catch (Client.findById d (JNum i)) Client.update_catch, d)
       | (Throw message, d) => (Client.update_catch message, d)
       end) = (Ok (Some r), db')).
  { destruct (Client.differs _ _); [|exact H].
    destruct (Client._checkEmailUniqueness seen _ _); [exact H|].
    unfold Client.update_catch in H. destruct (includes _ _); discriminate H. }
  clear H. destruct (Client.no_fields _).
  - left. injection K as <- <-. auto.
  - right. split; [reflexivity|].
    destruct (SQLite.select_by_id db i) as [old|] eqn:O.
    + destruct (update_present db now (Client.updateFields v) i old O)
        as [U|(d & U & S)]; rewrite U in K.
      * unfold Client.update_catch in K. destruct (includes _ _); discriminate K.
      * rewrite (findById_Num d i P), S in K. cbn [try_catch] in K.
        injection K as <- <-. exists old. auto.
    + rewrite (update_absent db now _ i O) in K.
      rewrite (findById_Num db i P), O in K. discriminate K.
Qed.

End UpdateStatement.

(** ** Create *)

Section Create.

Import JS.

Lemma normalized_string (s : string) : normalized (JStr s) = toLowerCase (trim s).
Proof.
  unfold normalized, Client.or_empty, truthy, toString.
  destruct (s =? "")%string eqn:E; [|reflexivity].
  apply String.eqb_eq in E. now subst s.
Qed.

(** C7.  The record [create] returns has a generated, positive id that no
    earlier record carries, [created_at] equal to [updated_at], and as email
    the payload's email trimmed and lowercased; it is the record stored under
    that id.  A payload that passes validation and whose normalized email no
    record carries does get such a record back. *)
Theorem create_returns_normalized_record (db : SQLite.database) (now : Z)
    (data : Data.t) :
  (forall r db',
      Client.create db now data = (Ok r, db') ->
      0 < SQLite.id r
      /\ (forall x, In x (SQLite.rows db) -> SQLite.id x <> SQLite.id r)
      /\ SQLite.created_at r = SQLite.updated_at r
      /\ SQLite.email r = toLowerCase (trim (Client.or_empty (Data.email data)))
      /\ (forall s, Data.email data = JStr s ->
                    SQLite.email r = toLowerCase (trim s))
      /\ SQLite.select_by_id db' (SQLite.id r) = Some r)
  /\ (forall v,
        Client._validateClientData data true = Ok v ->
        ~ email_taken db (normalized (Data.email data)) ->
        exists r db', Client.create db now data = (Ok r, db')).
Proof.
  split.
  - intros r db' H. apply create_racing_Ok in H.
    destruct H as (v & n & V & N & M & T & -> & ->).
    split; [apply inserted_id_pos|]. split.
    { intros x I. pose proof (max_rowid_bound _ _ I).
      cbn [inserted SQLite.id]. lia. }
    split; [reflexivity|]. split; [reflexivity|]. split.
    { intros s E. cbn [inserted SQLite.email]. rewrite E.
      apply normalized_string. }
    apply select_inserted.
  - intros v V T.
    pose proof (_validateClientData_Ok _ _ _ V) as (Vn & Ve & _).
    apply validate_name_required in Vn. destruct Vn as [N _].
    apply validate_email_required in Ve. destruct Ve as [M _].
    eexists. eexists. unfold Client.create.
    apply (create_racing_fresh db db now data v _ _ V N M T T).
Qed.

Lemma create_returns_normalized_record_witness :
  Client.create SQLite.empty 100 Sample.john
  = (Ok Sample.john_row, Sample.db1)
  /\ SQLite.email Sample.john_row = "john@ex.com"
  /\ 0 < SQLite.id Sample.john_row.
Proof.
  destruct (create_returns_normalized_record SQLite.empty 100 Sample.john)
    as [P _].
  destruct (P Sample.john_row Sample.db1 eq_refl) as (I & _ & _ & _ & E & _).
  split; [reflexivity|]. split; [exact (E _ eq_refl) | exact I].
Defined.

End Create.

(** ** Timestamps and updates *)

Section Update.

Import JS History.

(** C4.  In every table reachable from the empty one by creates, updates and
    deletes served at clock readings that never decrease, each record has
    [created_at <= updated_at].  A create stamps both columns with the time
    of its INSERT, and an update that writes at least one field leaves
    [updated_at] at the time of its UPDATE, not before [created_at]. *)
Theorem updated_at_not_before_created_at (t : Z) (db : SQLite.database) :
  reachable t db ->
  (forall r, In r (SQLite.rows db) ->
             SQLite.created_at r <= SQLite.updated_at r)
  /\ (forall now seen data r db',
        Client.create_racing seen db now data = (Ok r, db') ->
        SQLite.created_at r = now /\ SQLite.updated_at r = now)
  /\ (forall now seen id data v r db',
        t <= now ->
        Client._validateClientData data false = Ok v ->
        Client.no_fields (Client.updateFields v) = false ->
        Client.update_racing seen db now id data = (Ok (Some r), db') ->
        SQLite.updated_at r = now /\ SQLite.created_at r <= SQLite.updated_at r).
Proof.
  intro R. pose proof (reachable_ok t db R) as [_ F].
  rewrite Forall_forall in F. split; [|split].
  - intros r I. apply (F r I).
  - intros now seen data r db' H. apply create_racing_Ok in H.
    destruct H as (v & n & _ & _ & _ & _ & -> & _). split; reflexivity.
  - intros now seen id data v r db' L V N H.
    apply update_racing_Ok in H.
    destruct H as (i & existing & v' & _ & _ & V' & [(N' & _)|(_ & old & O & -> & _)]).
    + congruence.
    + apply select_by_id_id in O. destruct O as [I _].
      destruct (F old I) as (_ & C & U & _).
      cbn [SQLite.assign SQLite.updated_at SQLite.created_at]. lia.
Qed.

Lemma sample_db1_reachable : reachable 100 Sample.db1.
Proof.
  apply (reach_step 0 SQLite.empty 100 (Create SQLite.empty Sample.john)).
  - apply reach_empty.
  - discriminate.
Defined.

Lemma sample_db2_reachable : reachable 200 Sample.db2.
Proof.
  apply (reach_step 100 Sample.db1 200 (Create Sample.db1 Sample.jane)).
  - exact sample_db1_reachable.
  - discriminate.
Defined.

Lemma updated_at_not_before_created_at_witness :
  SQLite.created_at Sample.jane_row <= SQLite.updated_at Sample.jane_row.
Proof.
  destruct (updated_at_not_before_created_at 200 Sample.db2 sample_db2_reachable)
    as [P _].
  apply P. right. left. reflexivity.
Defined.

Lemma validate_empty :
  Client._validateClientData Data.empty false
  = Ok (Validated.make None None None).
Proof. reflexivity. Qed.

(** C5.  For the id of a record of a reachable table, [update(id, {})]
    returns that record, with that id and every field as stored, throws
    nothing and leaves the table as it was, so the record is still there;
    PUT /clients/:id with an empty body answers 200 with it. *)
Theorem update_without_fields_is_noop (t : Z) (db : SQLite.database)
    (now n : Z) (r : SQLite.row) :
  reachable t db ->
  SQLite.select_by_id db n = Some r ->
  Client.update db now (JNum n) Data.empty = (Ok (Some r), db)
  /\ SQLite.id r = n
  /\ SQLite.select_by_id (snd (Client.update db now (JNum n) Data.empty)) n
     = Some r
  /\ Controller.updateClient db now (Number_toString n) (Some Data.empty)
     = (Controller.Json 200 (Controller.DClient (Some r))
          "Client updated successfully", db).
Proof.
  intros R S. pose proof (reachable_ok t db R) as [_ F].
  rewrite Forall_forall in F.
  destruct (select_by_id_id db n r S) as [I E].
  assert (P : 0 < n) by (destruct (F r I) as [P _]; lia).
  assert (U : Client.update db now (JNum n) Data.empty = (Ok (Some r), db)).
  { unfold Client.update, Client.update_racing.
    rewrite (_validateId_Num n P). cbn [bind].
    rewrite (findById_Num db n P), S. cbn [bind].
    rewrite validate_empty. reflexivity. }
  split; [exact U|]. split; [exact E|]. split; [now rewrite U|].
  unfold Controller.updateClient, Controller.updateClient_racing.
  rewrite (validateIdParameter_Ok (Number_toString n) n (parseInt_Number n P) P).
  cbn [bind Controller.extractClientData Data.name Data.email Data.phone Data.empty].
  change (Client.update_racing db db now (JNum n)
            (Data.make JUndefined JUndefined JUndefined))
    with (Client.update db now (JNum n) Data.empty).
  rewrite U. reflexivity.
Qed.

Lemma update_without_fields_is_noop_witness :
  Client.update Sample.db2 300 (JNum 2) Data.empty
  = (Ok (Some Sample.jane_row), Sample.db2).
Proof.
  apply (update_without_fields_is_noop 200 Sample.db2 300 2 Sample.jane_row
           sample_db2_reachable eq_refl).
Defined.

End Update.

(** ** Empty fields in an update *)

Section EmptyFields.

Import JS History.

Lemma validate_name_blank (v : jsval) :
  trim (Client.or_empty v) = "" -> Client.validate_name v false = Ok None.
Proof.
  intro E. unfold Client.validate_name. rewrite E.
  destruct (Client.is_undefined v); reflexivity.
Qed.

Lemma validate_email_blank (v : jsval) :
  trim (Client.or_empty v) = "" -> Client.validate_email v false = Ok None.
Proof.
  intro E. unfold Client.validate_email. rewrite E.
  destruct (Client.is_undefined v); reflexivity.
Qed.

Lemma validate_blank_name (d : Data.t) :
  trim (Client.or_empty (Data.name d)) = "" ->
  Client._validateClientData d false
  = Client._validateClientData (with_name d JUndefined) false.
Proof.
  intro E. unfold Client._validateClientData, with_name.
  cbn [Data.name Data.email Data.phone].
  now rewrite (validate_name_blank _ E).
Qed.

Lemma validate_blank_email (d : Data.t) :
  trim (Client.or_empty (Data.email d)) = "" ->
  Client._validateClientData d false
  = Client._validateClientData (with_email d JUndefined) false.
Proof.
  intro E. unfold Client._validateClientData, with_email.
  cbn [Data.name Data.email Data.phone].
  now rewrite (validate_email_blank _ E).
Qed.

(** [update] reads the payload through its validation only. *)
Lemma update_racing_ext (seen db : SQLite.database) (now : Z) (id : jsval)
    (d d' : Data.t) :
  Client._validateClientData d false = Client._validateClientData d' false ->
  Client.update_racing seen db now id d = Client.update_racing seen db now id d'.
Proof.
  intro E. unfold Client.update_racing. now rewrite E.
Qed.

(** C9.  In an update payload a name or an email that trims to the empty
    string passes validation as if the field were not given; the UPDATE has
    no assignment for it and the record returned and stored keeps the value
    it had.  A create rejects such a field, so in every table reachable by
    creates, updates and deletes no record has an empty name or email. *)
Theorem blank_field_is_not_provided :
  (forall v : jsval,
      trim (Client.or_empty v) = "" ->
      Client.validate_name v false = Ok None
      /\ Client.validate_email v false = Ok None)
  /\ (forall seen db now id d,
        trim (Client.or_empty (Data.name d)) = "" ->
        Client.update_racing seen db now id d
        = Client.update_racing seen db now id (with_name d JUndefined))
  /\ (forall seen db now id d,
        trim (Client.or_empty (Data.email d)) = "" ->
        Client.update_racing seen db now id d
        = Client.update_racing seen db now id (with_email d JUndefined))
  /\ (forall db now id d r db',
        Client.update db now id d = (Ok (Some r), db') ->
        exists i old,
          Client._validateId id = Ok i
          /\ SQLite.select_by_id db i = Some old
          /\ SQLite.select_by_id db' i = Some r
          /\ (trim (Client.or_empty (Data.name d)) = "" ->
              SQLite.name r = SQLite.name old)
          /\ (trim (Client.or_empty (Data.email d)) = "" ->
              SQLite.email r = SQLite.email old))
  /\ (forall t db r,
        reachable t db -> In r (SQLite.rows db) ->
        SQLite.name r <> "" /\ SQLite.email r <> "").
Proof.
  split; [|split; [|split; [|split]]].
  - intros v E. split; [now apply validate_name_blank | now apply validate_email_blank].
  - intros seen db now id d E. apply update_racing_ext. now apply validate_blank_name.
  - intros seen db now id d E. apply update_racing_ext. now apply validate_blank_email.
  - intros db now id d r db' H. apply update_racing_Ok in H.
    destruct H as (i & existing & v & I & X & V & C).
    exists i, existing. split; [exact I|]. split; [exact X|].
    pose proof (_validateClientData_Ok _ _ _ V) as (Vn & Ve & _).
    destruct C as [(_ & -> & ->)|(_ & old & O & -> & S)].
    + split; [exact X|]. split; reflexivity.
    + rewrite X in O. injection O as <-. split; [exact S|].
      cbn [SQLite.assign SQLite.name SQLite.email Client.updateFields
           SQLite.set_name SQLite.set_email].
      split; intro E.
      * rewrite (validate_name_blank _ E) in Vn. injection Vn as <-. reflexivity.
      * rewrite (validate_email_blank _ E) in Ve. injection Ve as <-. reflexivity.
  - intros t db r R I. pose proof (reachable_ok t db R) as [_ F].
    rewrite Forall_forall in F. destruct (F r I) as (_ & _ & _ & N & E).
    now split.
Qed.

Lemma blank_field_is_not_provided_witness :
  Client.update_racing Sample.db2 Sample.db2 300 (JNum 2)
    (Data.make (JStr "   ") JUndefined JNull)
  = Client.update_racing Sample.db2 Sample.db2 300 (JNum 2)
      (Data.make JUndefined JUndefined JNull)
  /\ SQLite.name Sample.jane_row <> "".
Proof.
  destruct blank_field_is_not_provided as (_ & N & _ & _ & I).
  split.
  - apply (N Sample.db2 Sample.db2 300 (JNum 2)
             (Data.make (JStr "   ") JUndefined JNull)).
    reflexivity.
  - apply (I 200 Sample.db2 Sample.jane_row sample_db2_reachable).
    right. left. reflexivity.
Defined.

End EmptyFields.

(** ** Statistics *)

Section Statistics.

Lemma filter_map_length {A B : Type} (f : A -> B) (p : B -> bool) (l : list A) :
  List.length (filter p (map f l)) = List.length (filter (fun x => p (f x)) l).
Proof.
  induction l as [|x l IH]; [reflexivity|].
  cbn [map filter]. destruct (p (f x)); cbn [List.length]; now rewrite IH.
Qed.

Lemma min_created_map (f : SQLite.row -> SQLite.row) (l : list SQLite.row) :
  (forall r, SQLite.created_at (f r) = SQLite.created_at r) ->
  Client.min_created (map f l) = Client.min_created l.
Proof.
  intro H. induction l as [|x l IH]; [reflexivity|].
  unfold Client.min_created in *. cbn [map fold_right]. now rewrite IH, H.
Qed.

Lemma max_created_map (f : SQLite.row -> SQLite.row) (l : list SQLite.row) :
  (forall r, SQLite.created_at (f r) = SQLite.created_at r) ->
  Client.max_created (map f l) = Client.max_created l.
Proof.
  intro H. induction l as [|x l IH]; [reflexivity|].
  unfold Client.max_created in *. cbn [map fold_right]. now rewrite IH, H.
Qed.

(** C1.  What [getStats] returns is the total, the count of the last seven
    days and the oldest and newest creation time.  It is the same for a table
    and for that table with every phone removed: two tables with different
    numbers of records with a phone get the same answer, so the answer carries
    neither the with-phone nor the without-phone count. *)
Theorem getStats_reports_no_phone_counts :
  (forall db now,
      Client.getStats db now
      = Ok (Stats.make
              (SQLite.count (SQLite.rows db))
              (SQLite.count
                 (filter (fun r => now - Client.seven_days <=? SQLite.created_at r)
                         (SQLite.rows db)))
              (Client.min_created (SQLite.rows db))
              (Client.max_created (SQLite.rows db))))
  /\ (forall db now,
        Controller.getClientStats (forget_phones db) now
        = Controller.getClientStats db now)
  /\ with_phone Sample.db1 = 1
  /\ without_phone Sample.db1 = 0
  /\ with_phone (forget_phones Sample.db1) = 0
  /\ without_phone (forget_phones Sample.db1) = 1
  /\ Controller.getClientStats Sample.db1 150
     = Controller.Json 200
         (Controller.DStats (Stats.make 1 1 (Some 100) (Some 100)))
         "Client statistics retrieved successfully".
Proof.
  split; [reflexivity|]. split; [|repeat split].
  intros db now. unfold Controller.getClientStats, Client.getStats, forget_phones.
  cbn [SQLite.rows]. unfold SQLite.count.
  rewrite filter_map_length, length_map, min_created_map, max_created_map
    by reflexivity.
  reflexivity.
Qed.

End Statistics.

(** ** Duplicate emails *)

Section Duplicates.

Import JS Controller.

Lemma toLowerCase_empty (s : string) : toLowerCase s <> "" -> s <> "".
Proof. intros H E. subst s. now apply H. Qed.

Lemma is_missing_false (v : jsval) :
  trim (Client.or_empty v) <> "" -> is_missing v = false.
Proof.
  unfold Client.or_empty, is_missing. intro H.
  destruct v as [| |b|n|s]; cbn [truthy toString] in *;
    try (exfalso; now apply H).
  - destruct b; [reflexivity | exfalso; now apply H].
  - destruct (n =? 0); [exfalso; now apply H | reflexivity].
  - destruct (s =? "")%string; cbn [negb orb] in *; [exfalso; now apply H|].
    now apply String.eqb_neq.
Qed.

(** A payload the model accepts for a create has both required fields. *)
Lemma validateRequiredFields_valid (data : Data.t) (v : Validated.t) :
  Client._validateClientData data true = Ok v ->
  validateRequiredFields data ["name"; "email"] = Ok tt.
Proof.
  intro V. apply _validateClientData_Ok in V. destruct V as (Vn & Ve & _).
  apply validate_name_required in Vn. destruct Vn as [_ N].
  apply validate_email_required in Ve. destruct Ve as [_ M].
  apply toLowerCase_empty in M.
  unfold validateRequiredFields. cbn [filter field_of String.eqb Ascii.eqb Bool.eqb].
  change (field_of data "name") with (Data.name data).
  change (field_of data "email") with (Data.email data).
  now rewrite (is_missing_false _ N), (is_missing_false _ M).
Qed.

Lemma extractClientData_Some (data : Data.t) :
  extractClientData (Some data) = Ok data.
Proof. destruct data. reflexivity. Qed.

Lemma createClient_racing_taken (seen db : SQLite.database) (now : Z)
    (data : Data.t) (v : Validated.t) (e : string) :
  Client._validateClientData data true = Ok v ->
  Validated.email v = Some e ->
  email_taken db e ->
  is_duplicate_error (fst (createClient_racing seen db now (Some data)))
  /\ snd (createClient_racing seen db now (Some data)) = db.
Proof.
  intros V M T. unfold createClient_racing.
  rewrite extractClientData_Some. cbn [bind].
  rewrite (validateRequiredFields_valid data v V). cbn [bind].
  rewrite (create_racing_taken seen db now data v e V M T).
  destruct (existsb _ _); cbn [fst snd]; (split; [eexists; reflexivity | reflexivity]).
Qed.

Lemma createClient_fresh (db : SQLite.database) (now : Z) (data : Data.t)
    (v : Validated.t) (e : string) :
  Client._validateClientData data true = Ok v ->
  Validated.email v = Some e ->
  ~ email_taken db e ->
  is_created (fst (createClient db now (Some data)))
  /\ email_taken (snd (createClient db now (Some data))) e.
Proof.
  intros V M T.
  pose proof (_validateClientData_Ok _ _ _ V) as (Vn & _ & _).
  apply validate_name_required in Vn. destruct Vn as [N _].
  unfold createClient, createClient_racing.
  rewrite extractClientData_Some. cbn [bind].
  rewrite (validateRequiredFields_valid data v V). cbn [bind].
  rewrite (create_racing_fresh db db now data v _ e V N M T T).
  cbn [fst snd]. split; [eexists; reflexivity|].
  eexists. split; [cbn [SQLite.rows]; apply in_or_app; right; left; reflexivity|].
  reflexivity.
Qed.

Lemma _checkEmailUniqueness_cases (db : SQLite.database) (e : option string)
    (x : option Z) :
  Client._checkEmailUniqueness db e x = Ok tt \/
  Client._checkEmailUniqueness db e x = Throw "Email address already exists".
Proof.
  unfold Client._checkEmailUniqueness.
  match goal with |- context [match ?m with Some _ => Throw _ | None => _ end] =>
    destruct m end; auto.
Qed.

Lemma update_clash (db : SQLite.database) (now : Z) (a : SQLite.assignments)
    (i : Z) (cur : SQLite.row) (e : string) :
  SQLite.select_by_id db i = Some cur ->
  SQLite.set_email a = Some e ->
  email_taken_by_other db e i ->
  SQLite.update db now a i = (Throw SQLite.UNIQUE_email, db).
Proof.
  intros S M (r & I & E & N). unfold SQLite.update. rewrite S, M.
  assert (X : existsb (fun r => (SQLite.email r =? e)%string
                                && negb (SQLite.id r =? i)) (SQLite.rows db)
              = true).
  { apply existsb_exists. exists r. split; [exact I|].
    apply andb_true_intro. split; [now apply String.eqb_eq|].
    apply negb_true_iff. now apply Z.eqb_neq. }
  now rewrite X.
Qed.

Lemma updateClient_racing_taken (seen db : SQLite.database) (now : Z)
    (id : string) (n : Z) (data : Data.t) (v : Validated.t) (e : string)
    (old cur : SQLite.row) :
  parseInt_string id = Some n -> 0 < n ->
  SQLite.select_by_id seen n = Some old ->
  SQLite.select_by_id db n = Some cur ->
  Client._validateClientData data false = Ok v ->
  Validated.email v = Some e ->
  email_taken_by_other db e n ->
  is_duplicate_error (fst (updateClient_racing seen db now id (Some data)))
  /\ snd (updateClient_racing seen db now id (Some data)) = db.
Proof.
  intros P L So Sc V M T. unfold updateClient_racing.
  rewrite (validateIdParameter_Ok id n P L), extractClientData_Some.
  cbn [bind]. unfold Client.update_racing.
  rewrite (_validateId_Num n L). cbn [bind].
  rewrite (findById_Num seen n L), So. cbn [bind]. rewrite V. cbn [bind].
  assert (NF : Client.no_fields (Client.updateFields v) = false).
  { unfold Client.no_fields, Client.updateFields.
    cbn [SQLite.set_name SQLite.set_email SQLite.set_phone]. rewrite M.
    destruct (Validated.name v); reflexivity. }
  assert (U : SQLite.update db now (Client.updateFields v) n
              = (Throw SQLite.UNIQUE_email, db)).
  { apply (update_clash db now _ n cur e Sc); [exact M | exact T]. }
  destruct (Client.differs _ _).
  - destruct (_checkEmailUniqueness_cases seen (Validated.email v) (Some n))
      as [-> | ->]; cbn [bind].
    + rewrite NF, U. cbn [fst snd]. split; [eexists; reflexivity | reflexivity].
    + cbn [fst snd]. split; [eexists; reflexivity | reflexivity].
  - cbn [bind]. rewrite NF, U. cbn [fst snd].
    split; [eexists; reflexivity | reflexivity].
Qed.

(** C2.  A create whose validated (trimmed, lowercased) email some record
    carries when its INSERT runs is answered 409 DUPLICATE_EMAIL and stores
    nothing, whether the pre-check saw the record or only the UNIQUE
    constraint did; so is an update whose validated email a record other than
    its own carries.  Of two valid creates with the same normalized email,
    new to the table, the first served is answered 201 and the other 409,
    in either order and also when the second pre-check ran before the first
    INSERT. *)
Theorem duplicate_email_is_409 :
  (forall seen db now data v e,
      Client._validateClientData data true = Ok v ->
      Validated.email v = Some e ->
      email_taken db e ->
      is_duplicate_error (fst (createClient_racing seen db now (Some data)))
      /\ status_of (fst (createClient_racing seen db now (Some data))) <> 500
      /\ snd (createClient_racing seen db now (Some data)) = db)
  /\ (forall seen db now id n data v e old cur,
        parseInt_string id = Some n -> 0 < n <= MAX_SAFE_INTEGER ->
        SQLite.select_by_id seen n = Some old ->
        SQLite.select_by_id db n = Some cur ->
        Client._validateClientData data false = Ok v ->
        Validated.email v = Some e ->
        email_taken_by_other db e n ->
        is_duplicate_error (fst (updateClient_racing seen db now id (Some data)))
        /\ status_of (fst (updateClient_racing seen db now id (Some data))) <> 500
        /\ snd (updateClient_racing seen db now id (Some data)) = db)
  /\ (forall db now1 now2 seen2 a b va vb,
        Client._validateClientData a true = Ok va ->
        Client._validateClientData b true = Ok vb ->
        normalized (Data.email a) = normalized (Data.email b) ->
        ~ email_taken db (normalized (Data.email a)) ->
        is_created (fst (createClient db now1 (Some a)))
        /\ is_duplicate_error
             (fst (createClient_racing seen2
                     (snd (createClient db now1 (Some a))) now2 (Some b)))).
Proof.
  split; [|split].
  - intros seen db now data v e V M T.
    destruct (createClient_racing_taken seen db now data v e V M T) as [[d D] S].
    split; [now exists d|]. split; [rewrite D; discriminate | exact S].
  - intros seen db now id n data v e old cur P [L _] So Sc V M T.
    destruct (updateClient_racing_taken seen db now id n data v e old cur
                P L So Sc V M T) as [[d D] S].
    split; [now exists d|]. split; [rewrite D; discriminate | exact S].
  - intros db now1 now2 seen2 a b va vb Va Vb E T.
    pose proof (_validateClientData_Ok _ _ _ Va) as (_ & Ea & _).
    pose proof (_validateClientData_Ok _ _ _ Vb) as (_ & Eb & _).
    apply validate_email_required in Ea. destruct Ea as [Ma _].
    apply validate_email_required in Eb. destruct Eb as [Mb _].
    rewrite <- E in Mb.
    destruct (createClient_fresh db now1 a va _ Va Ma T) as [C K].
    split; [exact C|].
    apply (createClient_racing_taken seen2 _ now2 b vb _ Vb Mb K).
Qed.

Lemma duplicate_email_is_409_witness :
  is_created (fst (createClient SQLite.empty 100 (Some Sample.john)))
  /\ is_duplicate_error
       (fst (createClient_racing SQLite.empty Sample.db1 120 (Some Sample.johnny)))
  /\ is_duplicate_error
       (fst (createClient_racing Sample.db1 Sample.db1 120 (Some Sample.johnny))).
Proof.
  destruct duplicate_email_is_409 as (C & _ & T).
  assert (N : ~ email_taken SQLite.empty (normalized (Data.email Sample.john)))
    by (intros (r & [] & _)).
  destruct (T SQLite.empty 100 120 SQLite.empty Sample.john Sample.johnny
              _ _ eq_refl eq_refl eq_refl N) as [K D].
  split; [exact K|]. split; [exact D|].
  apply (C Sample.db1 Sample.db1 120 Sample.johnny _ "john@ex.com" eq_refl eq_refl).
  exists Sample.john_row. split; [left; reflexivity | reflexivity].
Defined.

End Duplicates.

(** ** Keys: the primary key and the UNIQUE column *)

Section Keys.

Import JS History Integrity.

Lemma NoDup_snoc {A : Type} (l : list A) (x : A) :
  NoDup l -> ~ In x l -> NoDup (l ++ [x]).
Proof.
  intros N I. induction N as [|y l Y N IH]; cbn [app].
  - constructor; [intros [] | constructor].
  - constructor.
    + intro H. apply in_app_or in H. destruct H as [H|[H|[]]].
      * contradiction.
      * subst y. apply I. now left.
    + apply IH. intro H. apply I. now right.
Qed.

(** Dropping rows keeps a column free of duplicates. *)
Lemma NoDup_column_kept (K : Type) (column : SQLite.row -> K)
    (keep : SQLite.row -> bool) (rows : list SQLite.row) :
  NoDup (map column rows) -> NoDup (map column (filter keep rows)).
Proof.
  intro N. induction rows as [|x rows IH]; [constructor|].
  cbn [map filter] in *. inversion N as [|y m Y N' E]; subst.
  destruct (keep x); cbn [map]; [|now apply IH].
  constructor; [|now apply IH].
  intro H. apply Y. apply in_map_iff in H. destruct H as (z & E & I).
  apply filter_In in I. apply in_map_iff. exists z. tauto.
Qed.

Lemma insert_keys (db : SQLite.database) (now : Z) (n e : string)
    (p : option string) :
  db_keys db -> db_keys (snd (SQLite.insert db now n e p)).
Proof.
  intros (Ni & Ne & B). unfold SQLite.insert.
  destruct (existsb _ _) eqn:X; cbn [snd]; [now repeat split|].
  pose proof (max_rowid_nonneg (SQLite.rows db)) as M.
  unfold db_keys, ids, emails. cbn [SQLite.rows SQLite.seq].
  rewrite !map_app. cbn [map SQLite.id SQLite.email].
  split; [|split].
  - apply NoDup_snoc; [exact Ni|]. intro H. apply in_map_iff in H.
    destruct H as (r & E & I). pose proof (max_rowid_bound _ _ I). lia.
  - apply NoDup_snoc; [exact Ne|]. intro H. apply in_map_iff in H.
    destruct H as (r & E & I).
    assert (T : email_taken db e) by (now exists r).
    apply existsb_email in T. congruence.
  - apply Forall_app. split.
    + eapply Forall_impl; [|exact B]. cbn. intros r H. lia.
    + constructor; [cbn; lia | constructor].
Qed.

(** Rewriting one key's email keeps the column free of duplicates when no
    other row carries the new value. *)
Lemma NoDup_set_email (i : Z) (e : string) (l : list SQLite.row) :
  NoDup (map SQLite.id l) -> NoDup (map SQLite.email l) ->
  (forall r, In r l -> SQLite.email r = e -> SQLite.id r = i) ->
  NoDup (map (fun r => if SQLite.id r =? i then e else SQLite.email r) l).
Proof.
  induction l as [|x l IH]; cbn [map]; intros Ni Ne H; [constructor|].
  inversion Ni as [|? ? Xi Ni' E1]; subst.
  inversion Ne as [|? ? Xe Ne' E2]; subst.
  constructor.
  - intro I. apply in_map_iff in I. destruct I as (r & E & I).
    destruct (SQLite.id x =? i) eqn:Ex; destruct (SQLite.id r =? i) eqn:Er.
    + apply Z.eqb_eq in Ex, Er. apply Xi. apply in_map_iff.
      exists r. split; [lia | exact I].
    + apply Z.eqb_neq in Er. apply Er. apply H; [now right | exact E].
    + apply Z.eqb_neq in Ex. apply Ex. apply H; [now left | now symmetry].
    + apply Xe. apply in_map_iff. now exists r.
  - apply IH; try assumption. intros r I. apply H. now right.
Qed.

Lemma update_rows (db : SQLite.database) (now : Z) (a : SQLite.assignments)
    (i : Z) :
  snd (SQLite.update db now a i) = db \/
  (existsb (fun r => match SQLite.set_email a with
                     | Some e => (SQLite.email r =? e)%string
                                 && negb (SQLite.id r =? i)
                     | None => false
                     end) (SQLite.rows db) = false /\
   snd (SQLite.update db now a i)
   = SQLite.mkDb
       (map (fun r => if SQLite.id r =? i then SQLite.assign a now r else r)
            (SQLite.rows db))
       (SQLite.seq db)).
Proof.
  unfold SQLite.update. destruct (SQLite.select_by_id db i) as [x|]; [|now left].
  destruct (SQLite.set_email a) as [e|] eqn:M.
  - destruct (existsb _ _) eqn:X; [now left|]. right. split; [reflexivity|].
    cbn [snd]. f_equal. unfold SQLite.trigger_updated_at. rewrite map_map.
    apply map_ext. intro r. destruct (SQLite.id r =? i) eqn:E.
    + cbn [SQLite.assign SQLite.id]. rewrite E. reflexivity.
    + now rewrite E.
  - right. split.
    + induction (SQLite.rows db); [reflexivity | assumption].
    + cbn [snd]. f_equal. unfold SQLite.trigger_updated_at. rewrite map_map.
      apply map_ext. intro r. destruct (SQLite.id r =? i) eqn:E.
      * cbn [SQLite.assign SQLite.id]. rewrite E. reflexivity.
      * now rewrite E.
Qed.

Lemma update_keys (db : SQLite.database) (now : Z) (a : SQLite.assignments)
    (i : Z) :
  db_keys db -> db_keys (snd (SQLite.update db now a i)).
Proof.
  intros (Ni & Ne & B).
  destruct (update_rows db now a i) as [->|[X ->]]; [now repeat split|].
  unfold db_keys, ids, emails in *. cbn [SQLite.rows SQLite.seq].
  rewrite !map_map.
  assert (Ei : map (fun r => SQLite.id (if SQLite.id r =? i
                                         then SQLite.assign a now r else r))
                   (SQLite.rows db) = map SQLite.id (SQLite.rows db)).
  { apply map_ext. intro r. destruct (SQLite.id r =? i); reflexivity. }
  rewrite Ei. split; [exact Ni|]. split.
  - destruct (SQLite.set_email a) as [e|] eqn:M.
    + assert (Ee : map (fun r => SQLite.email (if SQLite.id r =? i
                                              then SQLite.assign a now r else r))
                       (SQLite.rows db)
                   = map (fun r => if SQLite.id r =? i then e else SQLite.email r)
                         (SQLite.rows db)).
      { apply map_ext. intro r. destruct (SQLite.id r =? i); [|reflexivity].
        cbn [SQLite.assign SQLite.email]. now rewrite M. }
      rewrite Ee. apply NoDup_set_email; try assumption.
      intros r I E. destruct (Z.eq_dec (SQLite.id r) i) as [|D]; [assumption|].
      exfalso.
      assert (T : existsb (fun r => (SQLite.email r =? e)%string
                                    && negb (SQLite.id r =? i))
                          (SQLite.rows db) = true); [|congruence].
      apply existsb_exists. exists r. split; [exact I|].
      apply andb_true_intro. split; [now apply String.eqb_eq|].
      now apply negb_true_iff, Z.eqb_neq.
    + assert (Ee : map (fun r => SQLite.email (if SQLite.id r =? i
                                              then SQLite.assign a now r else r))
                       (SQLite.rows db)
                   = map SQLite.email (SQLite.rows db)).
      { apply map_ext. intro r. destruct (SQLite.id r =? i); [|reflexivity].
        cbn [SQLite.assign SQLite.email]. now rewrite M. }
      now rewrite Ee.
  - apply Forall_map. eapply Forall_impl; [|exact B]. cbn. intros r H.
    destruct (SQLite.id r =? i); exact H.
Qed.

Lemma delete_keys (db : SQLite.database) (i : Z) :
  db_keys db -> db_keys (snd (SQLite.delete db i)).
Proof.
  intros (Ni & Ne & B). unfold SQLite.delete, db_keys, ids, emails.
  cbn [snd SQLite.rows SQLite.seq].
  split; [now apply NoDup_column_kept|]. split; [now apply NoDup_column_kept|].
  apply Forall_forall. intros r I. apply filter_In in I.
  rewrite Forall_forall in B. now apply B.
Qed.

Lemma run_keys (db : SQLite.database) (now : Z) (r : request) :
  db_keys db -> db_keys (run db now r).
Proof.
  intro H. destruct r as [seen data|seen id data|id]; cbn [run].
  - destruct (create_racing_table seen db now data)
      as [->|(v & n & e & _ & _ & _ & ->)]; [exact H | now apply insert_keys].
  - destruct (update_racing_table seen db now id data)
      as [->|(v & i & _ & ->)]; [exact H | now apply update_keys].
  - destruct (delete_table db id) as [->|(i & ->)];
      [exact H | now apply delete_keys].
Qed.

Lemma reachable_keys (t : Z) (db : SQLite.database) :
  reachable t db -> db_keys db.
Proof.
  induction 1 as [t|t db now r _ IH L].
  - repeat split; constructor.
  - now apply run_keys.
Qed.

Lemma run_seq (db : SQLite.database) (now : Z) (r : request) :
  SQLite.seq db <= SQLite.seq (run db now r).
Proof.
  destruct r as [seen data|seen id data|id]; cbn [run].
  - destruct (create_racing_table seen db now data)
      as [->|(v & n & e & _ & _ & _ & ->)]; [lia|].
    unfold SQLite.insert. destruct (existsb _ _); cbn [snd SQLite.seq]; lia.
  - destruct (update_racing_table seen db now id data)
      as [->|(v & i & _ & ->)]; [lia|].
    destruct (update_rows db now (Client.updateFields v) i) as [->|[_ ->]];
      cbn [SQLite.seq]; lia.
  - destruct (delete_table db id) as [->|(i & ->)]; [lia|].
    unfold SQLite.delete. cbn [snd SQLite.seq]. lia.
Qed.

Lemma NoDup_map_injective {A B : Type} (f : A -> B) (l : list A) (a b : A) :
  NoDup (map f l) -> In a l -> In b l -> f a = f b -> a = b.
Proof.
  induction l as [|x l IH]; intros N Ia Ib E; [destruct Ia|].
  cbn [map] in N. inversion N as [|? ? X N']; subst.
  destruct Ia as [<-|Ia]; destruct Ib as [<-|Ib].
  - reflexivity.
  - exfalso. apply X. rewrite E. now apply in_map.
  - exfalso. apply X. rewrite <- E. now apply in_map.
  - now apply IH.
Qed.

(** X1.  Whatever the interleaving of pre-checks and statements, in every
    reachable table no two records have the same email. *)
Theorem emails_stay_unique (t : Z) (db : SQLite.database)
    (a b : SQLite.row) :
  reachable t db ->
  In a (SQLite.rows db) -> In b (SQLite.rows db) ->
  SQLite.email a = SQLite.email b -> a = b.
Proof.
  intros R Ia Ib E. destruct (reachable_keys t db R) as (_ & Ne & _).
  now apply (NoDup_map_injective SQLite.email (SQLite.rows db)).
Qed.

Lemma emails_stay_unique_witness :
  Sample.john_row = Sample.john_row.
Proof.
  apply (emails_stay_unique 200 Sample.db2 Sample.john_row Sample.john_row
           sample_db2_reachable).
  - left. reflexivity.
  - left. reflexivity.
  - reflexivity.
Defined.

(** X2.  In every reachable table the ids are pairwise distinct and none
    exceeds the AUTOINCREMENT counter; no request lowers the counter, and a
    create returns an id above it.  So an id, once given, is never given
    again, also after its record was deleted. *)
Theorem ids_never_reused (t : Z) (db : SQLite.database) :
  reachable t db ->
  NoDup (ids db)
  /\ (forall r, In r (SQLite.rows db) -> 0 < SQLite.id r <= SQLite.seq db)
  /\ (forall now q, SQLite.seq db <= SQLite.seq (run db now q))
  /\ (forall seen now data r db',
        Client.create_racing seen db now data = (Ok r, db') ->
        SQLite.seq db < SQLite.id r /\ SQLite.seq db' = SQLite.id r).
Proof.
  intro R. destruct (reachable_keys t db R) as (Ni & _ & B).
  destruct (reachable_ok t db R) as [S F].
  rewrite Forall_forall in B, F.
  split; [exact Ni|]. split; [|split].
  - intros r I. destruct (F r I) as [P _]. specialize (B r I). cbn in B. lia.
  - intros now q. apply run_seq.
  - intros seen now data r db' H. apply create_racing_Ok in H.
    destruct H as (v & n & _ & _ & _ & _ & -> & ->).
    cbn [inserted SQLite.id SQLite.seq]. lia.
Qed.

Lemma ids_never_reused_witness :
  0 < SQLite.id Sample.jane_row <= SQLite.seq Sample.db2.
Proof.
  destruct (ids_never_reused 200 Sample.db2 sample_db2_reachable)
    as (_ & B & _).
  apply B. right. left. reflexivity.
Defined.

End Keys.

(** ** Stored values pass the validators *)

Section StoredValues.

Import JS History Integrity.

Lemma lower_char_idempotent (c : ascii) : lower_char (lower_char c) = lower_char c.
Proof.
  destruct c as [[] [] [] [] [] [] [] []]; reflexivity.
Qed.

Lemma toLowerCase_idempotent (s : string) :
  toLowerCase (toLowerCase s) = toLowerCase s.
Proof.
  induction s as [|c s IH]; [reflexivity|].
  unfold toLowerCase in *. cbn [map_string].
  now rewrite lower_char_idempotent, IH.
Qed.

Lemma validate_name_valid (v : jsval) (b : bool) (n : string) :
  Client.validate_name v b = Ok (Some n) -> name_valid n.
Proof.
  unfold Client.validate_name. intro H.
  destruct (Client.is_undefined v); cbn [negb] in H;
    [destruct b; discriminate H|].
  set (name := trim (Client.or_empty v)) in *.
  destruct (Client.nonempty name) eqn:E; cbn [negb andb] in H.
  - rewrite andb_false_r in H.
    destruct ((String.length name <? 1)%nat || (100 <? String.length name)%nat)
      eqn:L; [discriminate H|].
    destruct (Regex.test Client.nameRegex name) eqn:T; cbn [negb] in H;
      [|discriminate H].
    injection H as <-. split; [exact T|].
    apply orb_false_iff in L. destruct L as [_ L].
    now apply Nat.ltb_ge in L.
  - rewrite andb_true_r in H. destruct b; discriminate H.
Qed.

Lemma validate_email_valid (v : jsval) (b : bool) (e : string) :
  Client.validate_email v b = Ok (Some e) -> email_valid e.
Proof.
  unfold Client.validate_email. intro H.
  destruct (Client.is_undefined v); cbn [negb] in H;
    [destruct b; discriminate H|].
  set (email := toLowerCase (trim (Client.or_empty v))) in *.
  destruct (Client.nonempty email) eqn:E; cbn [negb andb] in H.
  - rewrite andb_false_r in H.
    destruct (Client._isValidEmail email) eqn:T; cbn [negb] in H;
      [|discriminate H].
    destruct (100 <? String.length email)%nat eqn:L; [discriminate H|].
    injection H as <-. split; [exact T|]. split.
    + now apply Nat.ltb_ge in L.
    + apply toLowerCase_idempotent.
  - rewrite andb_true_r in H. destruct b; discriminate H.
Qed.

Lemma validate_phone_valid (v : jsval) (p : option (option string)) :
  Client.validate_phone v = Ok p -> phone_valid (Client.flatten p).
Proof.
  unfold Client.validate_phone. intro H.
  destruct (Client.is_undefined v); cbn [negb] in H.
  { injection H as <-. exact I. }
  destruct (truthy v); [|injection H as <-; exact I].
  set (s := trim (toString v)) in *.
  destruct (Client.nonempty s) eqn:E; cbn [andb] in H.
  - destruct (20 <? String.length s)%nat eqn:L; [discriminate H|].
    destruct (Client._isValidPhone s) eqn:T; cbn [negb] in H; [|discriminate H].
    injection H as <-. cbn. right. split; [exact T|]. now apply Nat.ltb_ge in L.
  - injection H as <-. cbn. left.
    unfold Client.nonempty in E. apply negb_false_iff in E.
    now apply String.eqb_eq.
Qed.

Lemma insert_valid (db : SQLite.database) (now : Z) (n e : string)
    (p : option string) :
  Forall row_valid (SQLite.rows db) ->
  name_valid n -> email_valid e -> phone_valid p ->
  Forall row_valid (SQLite.rows (snd (SQLite.insert db now n e p))).
Proof.
  intros F Hn He Hp. unfold SQLite.insert.
  destruct (existsb _ _); cbn [snd SQLite.rows]; [exact F|].
  apply Forall_app. split; [exact F|].
  constructor; [|constructor]. unfold row_valid. cbn. auto.
Qed.

Lemma update_valid (db : SQLite.database) (now : Z) (v : Validated.t) (i : Z) :
  Forall row_valid (SQLite.rows db) ->
  (forall n, Validated.name v = Some n -> name_valid n) ->
  (forall e, Validated.email v = Some e -> email_valid e) ->
  phone_valid (Client.flatten (Validated.phone v)) ->
  Forall row_valid
    (SQLite.rows (snd (SQLite.update db now (Client.updateFields v) i))).
Proof.
  intros F Hn He Hp.
  destruct (update_rows db now (Client.updateFields v) i) as [->|[_ ->]];
    [exact F|].
  cbn [SQLite.rows]. apply Forall_map. eapply Forall_impl; [|exact F].
  intros r (Rn & Re & Rp). destruct (SQLite.id r =? i); [|exact (conj Rn (conj Re Rp))].
  unfold row_valid.
  cbn [SQLite.assign SQLite.name SQLite.email SQLite.phone Client.updateFields
       SQLite.set_name SQLite.set_email SQLite.set_phone].
  split; [|split].
  - destruct (Validated.name v); [now apply Hn | exact Rn].
  - destruct (Validated.email v); [now apply He | exact Re].
  - destruct (Validated.phone v) as [[s|]|]; cbn in Hp |- *; auto.
Qed.

Lemma run_valid (db : SQLite.database) (now : Z) (q : request) :
  Forall row_valid (SQLite.rows db) ->
  Forall row_valid (SQLite.rows (run db now q)).
Proof.
  intro F. destruct q as [seen data|seen id data|id]; cbn [run].
  - destruct (create_racing_table seen db now data)
      as [->|(v & n & e & V & N & M & ->)]; [exact F|].
    apply _validateClientData_Ok in V. destruct V as (Vn & Ve & Vp).
    rewrite N in Vn. rewrite M in Ve.
    apply insert_valid; [exact F | | | ].
    + eapply validate_name_valid, Vn.
    + eapply validate_email_valid, Ve.
    + eapply validate_phone_valid, Vp.
  - destruct (update_racing_table seen db now id data)
      as [->|(v & i & V & ->)]; [exact F|].
    apply _validateClientData_Ok in V. destruct V as (Vn & Ve & Vp).
    apply update_valid; [exact F | | | ].
    + intros n N. rewrite N in Vn. eapply validate_name_valid, Vn.
    + intros e M. rewrite M in Ve. eapply validate_email_valid, Ve.
    + eapply validate_phone_valid, Vp.
  - destruct (delete_table db id) as [->|(i & ->)]; [exact F|].
    unfold SQLite.delete. cbn [snd SQLite.rows].
    apply Forall_forall. intros r I. apply filter_In in I.
    rewrite Forall_forall in F. now apply F.
Qed.

Lemma reachable_valid (t : Z) (db : SQLite.database) :
  reachable t db -> Forall row_valid (SQLite.rows db).
Proof.
  induction 1 as [t|t db now q _ IH L]; [constructor | now apply run_valid].
Qed.

(** X3.  Every record of a reachable table holds values the validators
    accept: a name of at most 100 characters from the allowed set, an email
    of the accepted shape, at most 100 characters long and already in lower
    case, and a phone that is NULL, the empty string, or of the accepted
    shape and at most 20 characters long. *)
Theorem stored_values_are_valid (t : Z) (db : SQLite.database)
    (r : SQLite.row) :
  reachable t db -> In r (SQLite.rows db) -> row_valid r.
Proof.
  intros R. revert r. apply Forall_forall. now apply (reachable_valid t).
Qed.

Lemma stored_values_are_valid_witness : row_valid Sample.john_row.
Proof.
  apply (stored_values_are_valid 200 Sample.db2 Sample.john_row
           sample_db2_reachable).
  left. reflexivity.
Defined.

End StoredValues.

(** ** Delete *)

Section Delete.

Import JS Controller.

Lemma filter_shorter {A : Type} (p : A -> bool) (l : list A) (x : A) :
  In x l -> p x = false -> (List.length (filter p l) < List.length l)%nat.
Proof.
  induction l as [|y l IH]; intros I P; [destruct I|].
  cbn [filter List.length]. pose proof (filter_length_le p l) as Le.
  destruct I as [->|I].
  - rewrite P. lia.
  - specialize (IH I P). destruct (p y); cbn [List.length]; lia.
Qed.

Lemma find_id_removed (n : Z) (l : list SQLite.row) :
  find (fun r => SQLite.id r =? n)
       (filter (fun r => negb (SQLite.id r =? n)) l) = None.
Proof.
  induction l as [|x l IH]; [reflexivity|].
  cbn [filter]. destruct (SQLite.id x =? n) eqn:E; cbn [negb]; [exact IH|].
  cbn [find]. now rewrite E.
Qed.

Lemma find_id_kept (n j : Z) (l : list SQLite.row) :
  j <> n ->
  find (fun r => SQLite.id r =? j)
       (filter (fun r => negb (SQLite.id r =? n)) l)
  = find (fun r => SQLite.id r =? j) l.
Proof.
  intro D. induction l as [|x l IH]; [reflexivity|].
  cbn [filter find]. destruct (SQLite.id x =? n) eqn:E; cbn [negb].
  - apply Z.eqb_eq in E.
    destruct (SQLite.id x =? j) eqn:F; [apply Z.eqb_eq in F; lia | exact IH].
  - cbn [find]. destruct (SQLite.id x =? j); [reflexivity | exact IH].
Qed.

Lemma delete_present (db : SQLite.database) (n : Z) (r : SQLite.row) :
  0 < n -> SQLite.select_by_id db n = Some r ->
  Client.delete db (JNum n)
  = (Ok true,
     SQLite.mkDb (filter (fun x => negb (SQLite.id x =? n)) (SQLite.rows db))
       (SQLite.seq db)).
Proof.
  intros P S. unfold Client.delete.
  rewrite (_validateId_Num n P). cbn [bind].
  rewrite (findById_Num db n P), S. cbn [bind].
  unfold SQLite.delete. f_equal. f_equal.
  apply Z.ltb_lt. unfold SQLite.count.
  destruct (select_by_id_id db n r S) as [I E].
  assert (K : negb (SQLite.id r =? n) = false)
    by (apply negb_false_iff; now apply Z.eqb_eq).
  pose proof (filter_shorter (fun x => negb (SQLite.id x =? n)) _ _ I K). lia.
Qed.

Lemma delete_absent (db : SQLite.database) (n : Z) :
  0 < n -> SQLite.select_by_id db n = None ->
  Client.delete db (JNum n) = (Ok false, db).
Proof.
  intros P S. unfold Client.delete.
  rewrite (_validateId_Num n P). cbn [bind].
  rewrite (findById_Num db n P), S. reflexivity.
Qed.

(** X4.  For an id between 1 and [MAX_SAFE_INTEGER]: deleting the id of a
    stored record answers [true] and removes that record only: [findById]
    then answers [null] for it, every other id is looked up as before, the
    AUTOINCREMENT counter is untouched, and a second delete of the id answers
    [false] and changes nothing.  Deleting an id that no record carries
    answers [false] and changes nothing. *)
Theorem delete_removes_one_record (db : SQLite.database) (n : Z) :
  0 < n <= MAX_SAFE_INTEGER ->
  (forall r,
      SQLite.select_by_id db n = Some r ->
      let db' := snd (Client.delete db (JNum n)) in
      fst (Client.delete db (JNum n)) = Ok true
      /\ Client.findById db' (JNum n) = Ok None
      /\ (forall j, j <> n ->
                    SQLite.select_by_id db' j = SQLite.select_by_id db j)
      /\ SQLite.seq db' = SQLite.seq db
      /\ Client.delete db' (JNum n) = (Ok false, db'))
  /\ (SQLite.select_by_id db n = None ->
      Client.delete db (JNum n) = (Ok false, db)).
Proof.
  intros [P _]. split; [|now apply delete_absent].
  intros r S. cbv zeta. rewrite (delete_present db n r P S). cbn [fst snd].
  assert (G : SQLite.select_by_id
                (SQLite.mkDb
                   (filter (fun x => negb (SQLite.id x =? n)) (SQLite.rows db))
                   (SQLite.seq db)) n = None)
    by apply find_id_removed.
  split; [reflexivity|]. split; [now rewrite (findById_Num _ n P), G|].
  split; [intros j D; now apply find_id_kept|]. split; [reflexivity|].
  now apply delete_absent.
Qed.

Lemma delete_removes_one_record_witness :
  fst (Client.delete Sample.db2 (JNum 1)) = Ok true
  /\ SQLite.select_by_id (snd (Client.delete Sample.db2 (JNum 1))) 2
     = Some Sample.jane_row.
Proof.
  destruct (delete_removes_one_record Sample.db2 1) as [H _];
    [vm_compute; split; [reflexivity | discriminate]|].
  destruct (H Sample.john_row eq_refl) as (A & _ & B & _).
  split; [exact A|]. rewrite (B 2); [reflexivity | discriminate].
Defined.

(** X5.  DELETE /clients/:id is answered 400 VALIDATION_ERROR, the table
    untouched, when [parseInt] reads no positive integer from the parameter.
    When it reads one up to [MAX_SAFE_INTEGER] the answer is not 400: it is
    204 when the record exists, which is then gone, so that the same request
    answers 404 the second time, and 404 with the table unchanged when it
    does not exist. *)
Theorem deleteClient_statuses (db : SQLite.database) (id : string) :
  ((forall n, parseInt_string id = Some n -> n <= 0) ->
   deleteClient db id
   = (Next 400 "VALIDATION_ERROR" "Invalid client ID" invalid_id_message, db))
  /\ (forall n,
        parseInt_string id = Some n -> 0 < n <= MAX_SAFE_INTEGER ->
        status_of (fst (deleteClient db id)) <> 400
        /\ (forall r,
              SQLite.select_by_id db n = Some r ->
              fst (deleteClient db id) = Send 204
              /\ SQLite.select_by_id (snd (deleteClient db id)) n = None
              /\ status_of (fst (deleteClient (snd (deleteClient db id)) id))
                 = 404)
        /\ (SQLite.select_by_id db n = None ->
            deleteClient db id
            = (Next 404 "NOT_FOUND" "Client not found"
                 ("No client found with ID " ++ Number_toString n), db))).
Proof.
  assert (V : forall n, parseInt_string id = Some n -> 0 < n ->
              forall d, deleteClient d id
                        = match Client.delete d (JNum n) with
                          | (Ok false, d') =>
                              (Next 404 "NOT_FOUND" "Client not found"
                                 ("No client found with ID " ++ Number_toString n), d')
                          | (Ok true, d') => (Send 204, d')
                          | (Throw message, d') =>
                              (if includes message "Invalid ID"
                               then Next 400 "VALIDATION_ERROR" "Invalid client ID" message
                               else Next 500 "INTERNAL_ERROR" "Failed to delete client" message,
                               d')
                          end).
  { intros n Pn L d. unfold deleteClient.
    now rewrite (validateIdParameter_Ok id n Pn L). }
  split.
  - intro H. unfold deleteClient.
    rewrite (validateIdParameter_Throw id H). reflexivity.
  - intros n Pn [L _]. split; [|split].
    + rewrite (V n Pn L db).
      destruct (SQLite.select_by_id db n) as [r|] eqn:E.
      * rewrite (delete_present db n r L E). discriminate.
      * rewrite (delete_absent db n L E). discriminate.
    + intros r E. rewrite (V n Pn L db), (delete_present db n r L E).
      cbn [fst snd].
      assert (G : SQLite.select_by_id
                    (SQLite.mkDb
                       (filter (fun x => negb (SQLite.id x =? n)) (SQLite.rows db))
                       (SQLite.seq db)) n = None)
        by apply find_id_removed.
      split; [reflexivity|]. split; [exact G|].
      rewrite (V n Pn L), (delete_absent _ n L G). reflexivity.
    + intro E. now rewrite (V n Pn L db), (delete_absent db n L E).
Qed.

Lemma deleteClient_statuses_witness :
  fst (deleteClient Sample.db2 "1") = Send 204
  /\ status_of (fst (deleteClient (snd (deleteClient Sample.db2 "1")) "1")) = 404
  /\ deleteClient Sample.db2 "0x0"
     = (Next 400 "VALIDATION_ERROR" "Invalid client ID" invalid_id_message,
        Sample.db2).
Proof.
  destruct (deleteClient_statuses Sample.db2 "1") as [_ H].
  destruct (H 1 eq_refl) as (_ & P & _);
    [vm_compute; split; [reflexivity|discriminate]|].
  destruct (P Sample.john_row eq_refl) as (A & _ & B).
  split; [exact A|]. split; [exact B|].
  destruct (deleteClient_statuses Sample.db2 "0x0") as [Z0 _].
  apply Z0. intros n E. injection E as <-. discriminate.
Defined.

End Delete.

(** ** What a write touches *)

Section Frames.

Import JS.

Lemma find_id_other (f : SQLite.row -> SQLite.row) (i j : Z)
    (l : list SQLite.row) :
  (forall x, SQLite.id (f x) = SQLite.id x) -> j <> i ->
  find (fun x => SQLite.id x =? j)
       (map (fun x => if SQLite.id x =? i then f x else x) l)
  = find (fun x => SQLite.id x =? j) l.
Proof.
  intros F D. induction l as [|x l IH]; [reflexivity|].
  cbn [map find]. destruct (SQLite.id x =? i) eqn:E.
  - rewrite F. apply Z.eqb_eq in E.
    destruct (SQLite.id x =? j) eqn:G; [apply Z.eqb_eq in G; lia | exact IH].
  - destruct (SQLite.id x =? j); [reflexivity | exact IH].
Qed.

Lemma find_app_l {A : Type} (p : A -> bool) (l l' : list A) (x : A) :
  find p l = Some x -> find p (l ++ l') = Some x.
Proof.
  induction l as [|y l IH]; cbn [app find]; [discriminate|].
  destruct (p y); [trivial | exact IH].
Qed.

Lemma update_Throw_db (db : SQLite.database) (now : Z)
    (a : SQLite.assignments) (i : Z) (m : string) (d : SQLite.database) :
  SQLite.update db now a i = (Throw m, d) -> d = db.
Proof.
  unfold SQLite.update. destruct (SQLite.select_by_id db i); [|discriminate].
  match goal with |- context [if ?c then _ else _] => destruct c end;
    [|discriminate].
  intro H. now injection H.
Qed.

Lemma update_catch_Throw {A : Type} (m : string) :
  exists m', @Client.update_catch A m = Throw m'.
Proof.
  unfold Client.update_catch. destruct (includes _ _); eexists; reflexivity.
Qed.

(** The three ways an update ends: it throws and the table is untouched; it
    has no field to write and returns the record it read; or its UPDATE ran
    and it returns what the table then holds under the id. *)
Lemma update_racing_cases (seen db : SQLite.database) (now : Z) (id : jsval)
    (d : Data.t) :
  (exists m, Client.update_racing seen db now id d = (Throw m, db))
  \/ (exists existing,
        Client.update_racing seen db now id d = (Ok (Some existing), db))
  \/ (exists i v k db',
        Client._validateId id = Ok i /\
        Client._validateClientData d false = Ok v /\
        SQLite.update db now (Client.updateFields v) i = (Ok k, db') /\
        Client.update_racing seen db now id d
        = (Ok (SQLite.select_by_id db' i), db')).
Proof.
  unfold Client.update_racing, bind.
  destruct (Client._validateId id) as [i|m] eqn:I.
  2:{ left. destruct (@update_catch_Throw (option SQLite.row) m) as [m' ->].
      now exists m'. }
  pose proof (_validateId_pos _ _ I) as P.
  rewrite (findById_Num seen i P).
  destruct (SQLite.select_by_id seen i) as [existing|].
  2:{ left. destruct (@update_catch_Throw (option SQLite.row) "Client not found")
        as [m' ->]. now exists m'. }
  destruct (Client._validateClientData d false) as [v|m] eqn:V.
  2:{ left. destruct (@update_catch_Throw (option SQLite.row) m) as [m' ->].
      now exists m'. }
  assert (K :
    (exists m,
        (if Client.no_fields (Client.updateFields v)
         then (Ok (Some existing), db)
         else
           match SQLite.update db now (Client.updateFields v) i with
           | (Ok _, db') =>
               (try_catch (Client.findById db' (JNum i)) Client.update_catch, db')
           | (Throw message, db') => (Client.update_catch message, db')
           end) = (Throw m, db))
    \/ (exists e,
          (if Client.no_fields (Client.updateFields v)
           then (Ok (Some existing), db)
           else
             match SQLite.update db now (Client.updateFields v) i with
             | (Ok _, db') =>
                 (try_catch (Client.findById db' (JNum i)) Client.update_catch, db')
             | (Throw message, db') => (Client.update_catch message, db')
             end) = (Ok (Some e), db))
    \/ (exists i0 v0 k db',
          Ok i = Ok i0 /\ Ok v = Ok v0 /\
          SQLite.update db now (Client.updateFields v0) i0 = (Ok k, db') /\
          (if Client.no_fields (Client.updateFields v)
           then (Ok (Some existing), db)
           else
             match SQLite.update db now (Client.updateFields v) i with
             | (Ok _, db') =>
                 (try_catch (Client.findById db' (JNum i)) Client.update_catch, db')
             | (Throw message, db') => (Client.update_catch message, db')
             end) = (Ok (SQLite.select_by_id db' i0), db'))).
  { destruct (Client.no_fields _); [right; left; now exists existing|].
    destruct (SQLite.update db now (Client.updateFields v) i) as [[k|m] db'] eqn:U.
    - right. right. exists i, v, k, db'.
      split; [reflexivity|]. split; [reflexivity|]. split; [exact U|].
      now rewrite (findById_Num db' i P).
    - left. apply update_Throw_db in U. subst db'.
      destruct (@update_catch_Throw (option SQLite.row) m) as [m' ->].
      now exists m'. }
  destruct (Client.differs _ _); [|exact K].
  destruct (Client._checkEmailUniqueness seen _ _) as [[]|m]; [exact K|].
  left. destruct (@update_catch_Throw (option SQLite.row) m) as [m' ->].
  now exists m'.
Qed.

(** X6.  A successful update returns the record of the given id with the same
    id and [created_at]; each of name, email and phone holds the validated
    value when the payload gave one and the stored value otherwise.  Every
    other record is looked up as before, and neither the number of records
    nor the AUTOINCREMENT counter changes.  An update that throws leaves the
    table as it was. *)
Theorem update_touches_one_record (db : SQLite.database) (now : Z)
    (id : jsval) (d : Data.t) :
  (forall r db',
      Client.update db now id d = (Ok (Some r), db') ->
      exists i old v,
        Client._validateId id = Ok i
        /\ SQLite.select_by_id db i = Some old
        /\ Client._validateClientData d false = Ok v
        /\ SQLite.id r = i
        /\ SQLite.created_at r = SQLite.created_at old
        /\ SQLite.name r = match Validated.name v with
                           | Some n => n
                           | None => SQLite.name old
                           end
        /\ SQLite.email r = match Validated.email v with
                            | Some e => e
                            | None => SQLite.email old
                            end
        /\ SQLite.phone r = match Validated.phone v with
                            | Some p => p
                            | None => SQLite.phone old
                            end
        /\ (forall j, j <> i ->
                      SQLite.select_by_id db' j = SQLite.select_by_id db j)
        /\ SQLite.seq db' = SQLite.seq db
        /\ SQLite.count (SQLite.rows db') = SQLite.count (SQLite.rows db))
  /\ (forall m db', Client.update db now id d = (Throw m, db') -> db' = db).
Proof.
  split.
  - intros r db' H. pose proof H as H0. apply update_racing_Ok in H.
    destruct H as (i & old & v & I & X & V & C).
    exists i, old, v. split; [exact I|]. split; [exact X|]. split; [exact V|].
    destruct (select_by_id_id db i old X) as [_ Eo].
    assert (Fr : (forall j, j <> i ->
                    SQLite.select_by_id db' j = SQLite.select_by_id db j)
                 /\ SQLite.seq db' = SQLite.seq db
                 /\ SQLite.count (SQLite.rows db') = SQLite.count (SQLite.rows db)).
    { unfold Client.update in H0.
      destruct (update_racing_cases db db now id d)
        as [[m E]|[[e E]|(i' & v' & k & d' & I' & V' & U & E)]];
        rewrite H0 in E.
      - discriminate E.
      - injection E as _ ->. repeat split; reflexivity.
      - injection E as _ E2. subst d'.
        rewrite I in I'. injection I' as <-. rewrite V in V'. injection V' as <-.
        destruct (update_rows db now (Client.updateFields v) i) as [W|[_ W]];
          rewrite U in W; cbn [snd] in W; subst db'; [repeat split; reflexivity|].
        split; [|split; [reflexivity|]].
        + intros j D. unfold SQLite.select_by_id. cbn [SQLite.rows].
          apply find_id_other; [reflexivity | exact D].
        + cbn [SQLite.rows]. unfold SQLite.count. now rewrite length_map. }
    destruct C as [(N & -> & _)|(N & old' & O & -> & S)].
    + unfold Client.no_fields, Client.updateFields in N.
      cbn [SQLite.set_name SQLite.set_email SQLite.set_phone] in N.
      destruct (Validated.name v); [discriminate N|].
      destruct (Validated.email v); [discriminate N|].
      destruct (Validated.phone v); [discriminate N|].
      split; [exact Eo|]. repeat (split; [reflexivity|]). exact Fr.
    + rewrite X in O. injection O as <-.
      cbn [SQLite.assign SQLite.id SQLite.name SQLite.email SQLite.phone
           SQLite.created_at Client.updateFields SQLite.set_name
           SQLite.set_email SQLite.set_phone].
      split; [exact Eo|]. repeat (split; [reflexivity|]). exact Fr.
  - intros m db' H. unfold Client.update in H.
    destruct (update_racing_cases db db now id d)
      as [[m' E]|[[e E]|(i' & v' & k & d' & _ & _ & _ & E)]];
      rewrite H in E; [now injection E | discriminate E | discriminate E].
Qed.

Lemma update_touches_one_record_witness :
  SQLite.select_by_id
    (snd (Client.update Sample.db2 300 (JNum 2)
            (Data.make (JStr " Jane Doe ") JUndefined JNull))) 1
  = Some Sample.john_row.
Proof.
  destruct (update_touches_one_record Sample.db2 300 (JNum 2)
              (Data.make (JStr " Jane Doe ") JUndefined JNull)) as [H _].
  destruct (H (SQLite.mkRow 2 "Jane Doe" "jane@ex.com" None 200 300)
              (snd (Client.update Sample.db2 300 (JNum 2)
                      (Data.make (JStr " Jane Doe ") JUndefined JNull)))
              eq_refl)
    as (i & old & v & I & _ & _ & _ & _ & _ & _ & _ & F & _).
  injection I as <-. rewrite (F 1); [reflexivity | discriminate].
Defined.

Lemma create_catch_Throw {A : Type} (m : string) :
  exists m', @Client.create_catch A m = Throw m'.
Proof.
  unfold Client.create_catch. destruct (includes _ _); eexists; reflexivity.
Qed.

Lemma insert_Throw_db (db : SQLite.database) (now : Z) (n e : string)
    (p : option string) (m : string) (d : SQLite.database) :
  SQLite.insert db now n e p = (Throw m, d) -> d = db.
Proof.
  unfold SQLite.insert. destruct (existsb _ _); [|discriminate].
  intro H. now injection H.
Qed.

Lemma validate_phone_stored (v : jsval) (p : option (option string)) :
  Client.validate_phone v = Ok p ->
  Client.flatten p = if truthy v then Some (trim (toString v)) else None.
Proof.
  unfold Client.validate_phone. intro H.
  destruct v as [| |b|n|s]; cbn [Client.is_undefined negb truthy] in *.
  - injection H as <-. reflexivity.
  - injection H as <-. reflexivity.
  - destruct b; [|injection H as <-; reflexivity].
    repeat match type of H with
           | context [if ?c then _ else _] => destruct c
           end; try discriminate H; injection H as <-; reflexivity.
  - destruct (negb (n =? 0)); [|injection H as <-; reflexivity].
    repeat match type of H with
           | context [if ?c then _ else _] => destruct c
           end; try discriminate H; injection H as <-; reflexivity.
  - destruct (negb (s =? "")%string); [|injection H as <-; reflexivity].
    repeat match type of H with
           | context [if ?c then _ else _] => destruct c
           end; try discriminate H; injection H as <-; reflexivity.
Qed.

(** X7.  A successful create appends exactly the record it returns: the
    records already stored are looked up as before, the name is the payload's
    name trimmed, the phone is the payload's phone trimmed, or NULL when the
    payload gave none or a falsy one.  A create that throws leaves the table
    as it was. *)
Theorem create_adds_one_record (db : SQLite.database) (now : Z) (d : Data.t) :
  (forall r db',
      Client.create db now d = (Ok r, db') ->
      SQLite.rows db' = (SQLite.rows db ++ [r])%list
      /\ (forall j x, SQLite.select_by_id db j = Some x ->
                      SQLite.select_by_id db' j = Some x)
      /\ SQLite.name r = trim (Client.or_empty (Data.name d))
      /\ SQLite.phone r = (if truthy (Data.phone d)
                           then Some (trim (toString (Data.phone d)))
                           else None))
  /\ (forall m db', Client.create db now d = (Throw m, db') -> db' = db).
Proof.
  split.
  - intros r db' H. apply create_racing_Ok in H.
    destruct H as (v & n & V & N & _ & _ & -> & ->).
    apply _validateClientData_Ok in V. destruct V as (Vn & _ & Vp).
    apply validate_name_required in Vn. destruct Vn as [Nn _].
    rewrite N in Nn. injection Nn as ->.
    split; [reflexivity|]. split.
    + intros j x S. unfold SQLite.select_by_id in *. cbn [SQLite.rows].
      now apply find_app_l.
    + split; [reflexivity|]. cbn [inserted SQLite.phone].
      now apply validate_phone_stored.
  - intros m db'. unfold Client.create, Client.create_racing.
    destruct (bind _ _) as [v|m0].
    2:{ destruct (@create_catch_Throw SQLite.row m0) as [m' ->].
        intro H. now injection H. }
    unfold Client.run_insert.
    destruct (Validated.name v) as [n|].
    2:{ destruct (@create_catch_Throw SQLite.row (Client.NOT_NULL "name"))
          as [m' ->]. intro H. now injection H. }
    destruct (Validated.email v) as [e|].
    2:{ destruct (@create_catch_Throw SQLite.row (Client.NOT_NULL "email"))
          as [m' ->]. intro H. now injection H. }
    destruct (SQLite.insert db now n e _) as [[i|m0] d'] eqn:U.
    + unfold SQLite.insert in U. destruct (existsb _ _) eqn:X; [discriminate U|].
      injection U as <- <-.
      pose proof (inserted_id_pos db now n e (Client.flatten (Validated.phone v)))
        as P.
      cbn [inserted SQLite.id] in P.
      rewrite (findById_Num _ _ P).
      pose proof (select_inserted db now n e (Client.flatten (Validated.phone v)))
        as S.
      cbn [inserted SQLite.id] in S. unfold inserted in S. rewrite S.
      discriminate.
    + apply insert_Throw_db in U. subst d'.
      destruct (@create_catch_Throw SQLite.row m0) as [m' ->].
      intro H. now injection H.
Qed.

Lemma create_adds_one_record_witness :
  SQLite.rows Sample.db2 = (SQLite.rows Sample.db1 ++ [Sample.jane_row])%list.
Proof.
  destruct (create_adds_one_record Sample.db1 200 Sample.jane) as [H _].
  destruct (H Sample.jane_row Sample.db2 eq_refl) as [A _]. exact A.
Defined.

End Frames.

(** ** How the handlers classify errors *)

Section Classification.

Import JS Controller.

Lemma or_empty_undefined (v : jsval) :
  Client.is_undefined v = true -> trim (Client.or_empty v) = "".
Proof. destruct v; try discriminate. reflexivity. Qed.

Lemma validate_name_invalid (v : jsval) (b : bool) :
  name_has_invalid_characters v ->
  Client.validate_name v b = Throw "Name contains invalid characters".
Proof.
  intros (N & L & T). unfold Client.validate_name.
  destruct (Client.is_undefined v) eqn:U.
  { apply or_empty_undefined in U. contradiction. }
  cbn [negb].
  assert (E : Client.nonempty (trim (Client.or_empty v)) = true).
  { unfold Client.nonempty. apply negb_true_iff. now apply String.eqb_neq. }
  rewrite E, T. cbn [negb andb]. rewrite andb_false_r.
  assert (L1 : (String.length (trim (Client.or_empty v)) <? 1)%nat = false).
  { apply Nat.ltb_ge. destruct (trim (Client.or_empty v)); [contradiction|].
    cbn [String.length]. lia. }
  assert (L2 : (100 <? String.length (trim (Client.or_empty v)))%nat = false)
    by (now apply Nat.ltb_ge).
  now rewrite L1, L2.
Qed.

Lemma validate_name_Throw (v : jsval) (b : bool) (m : string) :
  Client.validate_name v b = Throw m ->
  (m = "Name contains invalid characters" /\ name_has_invalid_characters v)
  \/ (b = true /\ m = "Name is required")
  \/ m = "Name must be between 1 and 100 characters".
Proof.
  unfold Client.validate_name, name_has_invalid_characters. intro H.
  destruct (Client.is_undefined v); cbn [negb] in H.
  { destruct b; [|discriminate H]. injection H as <-. auto. }
  set (n := trim (Client.or_empty v)) in *.
  destruct (Client.nonempty n) eqn:E; cbn [negb andb] in H.
  - rewrite andb_false_r in H.
    destruct ((String.length n <? 1)%nat || (100 <? String.length n)%nat) eqn:L.
    { injection H as <-. auto. }
    destruct (Regex.test Client.nameRegex n) eqn:T; cbn [negb] in H;
      [discriminate H|].
    injection H as <-. left. split; [reflexivity|].
    apply orb_false_iff in L. destruct L as [_ L]. apply Nat.ltb_ge in L.
    split; [now apply nonempty_true | now split].
  - rewrite andb_true_r in H. destruct b; [|discriminate H].
    injection H as <-. auto.
Qed.

Lemma validate_email_Throw (v : jsval) (b : bool) (m : string) :
  Client.validate_email v b = Throw m ->
  (b = true /\ m = "Email is required")
  \/ m = "Invalid email format"
  \/ m = "Email must be less than 100 characters".
Proof.
  unfold Client.validate_email. intro H.
  destruct (Client.is_undefined v); cbn [negb] in H.
  { destruct b; [|discriminate H]. injection H as <-. auto. }
  set (e := toLowerCase (trim (Client.or_empty v))) in *.
  destruct (Client.nonempty e) eqn:E; cbn [negb andb] in H.
  - rewrite andb_false_r in H.
    destruct (Client._isValidEmail e); cbn [negb] in H;
      [|injection H as <-; auto].
    destruct (100 <? String.length e)%nat; [|discriminate H].
    injection H as <-. auto.
  - rewrite andb_true_r in H. destruct b; [|discriminate H].
    injection H as <-. auto.
Qed.

Lemma validate_phone_Throw (v : jsval) (m : string) :
  Client.validate_phone v = Throw m ->
  m = "Phone number must be less than 20 characters"
  \/ m = "Invalid phone number format".
Proof.
  unfold Client.validate_phone. intro H.
  destruct (Client.is_undefined v); cbn [negb] in H; [discriminate H|].
  destruct (truthy v); [|discriminate H].
  destruct (Client.nonempty _); cbn [andb] in H; [|discriminate H].
  destruct (20 <? _)%nat; [injection H as <-; auto|].
  destruct (Client._isValidPhone _); cbn [negb] in H; [discriminate H|].
  injection H as <-. auto.
Qed.

(** The messages validation throws.  The name is validated first. *)
Lemma _validateClientData_Throw (d : Data.t) (b : bool) (m : string) :
  Client._validateClientData d b = Throw m ->
  (m = "Name contains invalid characters"
   /\ name_has_invalid_characters (Data.name d))
  \/ (~ name_has_invalid_characters (Data.name d)
      /\ ((b = true /\ (m = "Name is required" \/ m = "Email is required"))
          \/ In m ["Name must be between 1 and 100 characters";
                   "Invalid email format";
                   "Email must be less than 100 characters";
                   "Phone number must be less than 20 characters";
                   "Invalid phone number format"])).
Proof.
  unfold Client._validateClientData, bind. intro H.
  destruct (Client.validate_name (Data.name d) b) as [x|m0] eqn:N.
  - right. split.
    { intro I. rewrite (validate_name_invalid _ b I) in N. discriminate N. }
    destruct (Client.validate_email (Data.email d) b) as [y|m1] eqn:M.
    + destruct (Client.validate_phone (Data.phone d)) as [z|m2] eqn:P;
        [discriminate H|].
      injection H as <-. right.
      destruct (validate_phone_Throw _ _ P) as [->| ->];
        cbn [In]; repeat (first [left; reflexivity | right]).
    + injection H as <-.
      destruct (validate_email_Throw _ _ _ M) as [[-> ->]|[->| ->]].
      * left. split; [reflexivity | right; reflexivity].
      * right. cbn [In]. repeat (first [left; reflexivity | right]).
      * right. cbn [In]. repeat (first [left; reflexivity | right]).
  - injection H as <-.
    destruct (validate_name_Throw _ _ _ N) as [[-> I]|[[-> ->]| ->]].
    + now left.
    + right. split; [|left; split; [reflexivity | left; reflexivity]].
      intro I. rewrite (validate_name_invalid _ true I) in N. discriminate N.
    + right. split; [|right; left; reflexivity].
      intro I. rewrite (validate_name_invalid _ b I) in N. discriminate N.
Qed.

Lemma _validateClientData_invalid_name (d : Data.t) (b : bool) :
  name_has_invalid_characters (Data.name d) ->
  Client._validateClientData d b = Throw "Name contains invalid characters".
Proof.
  intro I. unfold Client._validateClientData.
  now rewrite (validate_name_invalid _ b I).
Qed.

Lemma validateRequiredFields_missing (data : Data.t) :
  validateRequiredFields data ["name"; "email"]
  = match missing_fields data with
    | [] => Ok tt
    | l => Throw ("Missing required fields: " ++ join l)
    end.
Proof.
  unfold validateRequiredFields, missing_fields.
  destruct (filter _ _); reflexivity.
Qed.

Lemma missing_fields_cases (data : Data.t) :
  missing_fields data
  = ((if is_missing (Data.name data) then ["name"] else [])
     ++ (if is_missing (Data.email data) then ["email"] else []))%list.
Proof.
  unfold missing_fields. cbn [filter].
  change (field_of data "name") with (Data.name data).
  change (field_of data "email") with (Data.email data).
  destruct (is_missing (Data.name data)), (is_missing (Data.email data));
    reflexivity.
Qed.

Lemma createClient_missing (seen db : SQLite.database) (now : Z)
    (data : Data.t) :
  missing_fields data <> [] ->
  createClient_racing seen db now (Some data)
  = (Next 400 "VALIDATION_ERROR" "Invalid input data"
       ("Missing required fields: " ++ join (missing_fields data)), db).
Proof.
  intro H. unfold createClient_racing.
  rewrite extractClientData_Some. cbn [bind].
  rewrite validateRequiredFields_missing.
  rewrite missing_fields_cases in *.
  destruct (is_missing (Data.name data)), (is_missing (Data.email data));
    cbn [app] in *; try (exfalso; now apply H); reflexivity.
Qed.

(** X8.  POST /clients with a required field missing (absent, falsy, or a
    string of white space) is answered 400 VALIDATION_ERROR before the model
    is called; the details name exactly the missing fields among name and
    email, in that order, and nothing is stored. *)
Theorem createClient_names_missing_fields (seen db : SQLite.database)
    (now : Z) (data : Data.t) :
  missing_fields data <> [] ->
  createClient_racing seen db now (Some data)
  = (Next 400 "VALIDATION_ERROR" "Invalid input data"
       ("Missing required fields: " ++ join (missing_fields data)), db)
  /\ missing_fields data
     = ((if is_missing (Data.name data) then ["name"] else [])
        ++ (if is_missing (Data.email data) then ["email"] else []))%list.
Proof.
  intro H. split; [now apply createClient_missing | apply missing_fields_cases].
Qed.

Lemma createClient_names_missing_fields_witness :
  createClient_racing SQLite.empty SQLite.empty 100
    (Some (Data.make (JStr "John Doe") (JStr "   ") JUndefined))
  = (Next 400 "VALIDATION_ERROR" "Invalid input data"
       "Missing required fields: email", SQLite.empty).
Proof.
  apply (createClient_names_missing_fields SQLite.empty SQLite.empty 100
           (Data.make (JStr "John Doe") (JStr "   ") JUndefined)).
  discriminate.
Defined.

End Classification.

Section Statuses.

Import JS Controller.

Lemma createClient_catch_validation (b : bool) (m : string) :
  (b = true /\ (m = "Name is required" \/ m = "Email is required"))
  \/ In m ["Name must be between 1 and 100 characters";
           "Invalid email format";
           "Email must be less than 100 characters";
           "Phone number must be less than 20 characters";
           "Invalid phone number format"] ->
  exists details,
    createClient_catch ("Failed to create client: " ++ m)
    = Next 400 "VALIDATION_ERROR" "Invalid input data" details
    /\ @Client.create_catch SQLite.row m
       = Throw ("Failed to create client: " ++ m).
Proof.
  intros [[_ [->| ->]]|H]; try (eexists; split; reflexivity).
  cbn [In] in H.
  destruct H as [<-|[<-|[<-|[<-|[<-|[]]]]]]; eexists; split; reflexivity.
Qed.

Lemma updateClient_catch_validation (m : string) :
  In m ["Name must be between 1 and 100 characters";
        "Invalid email format";
        "Email must be less than 100 characters";
        "Phone number must be less than 20 characters";
        "Invalid phone number format"] ->
  exists details,
    updateClient_catch ("Failed to update client: " ++ m)
    = Next 400 "VALIDATION_ERROR" "Invalid input data" details
    /\ @Client.update_catch (option SQLite.row) m
       = Throw ("Failed to update client: " ++ m).
Proof.
  cbn [In]. intros [<-|[<-|[<-|[<-|[<-|[]]]]]]; eexists; split; reflexivity.
Qed.

Lemma missing_fields_invalid_name (data : Data.t) :
  name_has_invalid_characters (Data.name data) ->
  is_missing (Data.email data) = false ->
  missing_fields data = [].
Proof.
  intros (N & _) M. rewrite missing_fields_cases.
  now rewrite (is_missing_false _ N), M.
Qed.

(** X9.  POST /clients is answered 201, 400, 409 or 500, and stores a record
    only when it answers 201.  It answers 500 INTERNAL_ERROR whenever both
    required fields are present and the name, trimmed, is non-empty, at most
    100 characters long and has a character outside the allowed set: the
    message of that rejection matches none of the substrings by which the
    handler recognizes a validation error.  For a body whose fields are
    neither arrays nor objects that is the only way to a 500. *)
Theorem createClient_statuses (db : SQLite.database) (now : Z)
    (body : option Data.t) :
  In (status_of (fst (createClient db now body))) [201; 400; 409; 500]
  /\ (status_of (fst (createClient db now body)) <> 201 ->
      snd (createClient db now body) = db)
  /\ (forall data,
        body = Some data ->
        is_missing (Data.email data) = false ->
        name_has_invalid_characters (Data.name data) ->
        status_of (fst (createClient db now body)) = 500)
  /\ (forall data,
        body = Some data ->
        scalar_fields data ->
        status_of (fst (createClient db now body)) = 500 ->
        is_missing (Data.email data) = false
        /\ name_has_invalid_characters (Data.name data)).
Proof.
  enough (K : In (status_of (fst (createClient db now body))) [201; 400; 409; 500]
              /\ (status_of (fst (createClient db now body)) <> 201 ->
                  snd (createClient db now body) = db)
              /\ (status_of (fst (createClient db now body)) = 500
                  <-> exists data,
                        body = Some data
                        /\ is_missing (Data.email data) = false
                        /\ name_has_invalid_characters (Data.name data))).
  { destruct K as (A & B & C). split; [exact A|]. split; [exact B|]. split.
    - intros data E M I. apply C. now exists data.
    - intros data E _ S. apply C in S. destruct S as (d & Ed & M & I).
      rewrite E in Ed. injection Ed as <-. now split. }
  destruct body as [data|].
  2:{ split; [cbn; auto|]. split; [reflexivity|]. split.
      - discriminate.
      - intros (d & E & _). discriminate E. }
  destruct (missing_fields data) as [|f l] eqn:MF.
  2:{ assert (NE : missing_fields data <> []) by (rewrite MF; discriminate).
      unfold createClient. rewrite (createClient_missing db db now data NE).
      cbn [fst snd status_of].
      split; [cbn; auto|]. split; [reflexivity|]. split; [discriminate|].
      intros (d & Ed & M & I). injection Ed as <-.
      rewrite (missing_fields_invalid_name _ I M) in MF. discriminate MF. }
  assert (Em : is_missing (Data.email data) = false).
  { rewrite missing_fields_cases in MF.
    destruct (is_missing (Data.name data)), (is_missing (Data.email data));
      try discriminate MF. reflexivity. }
  unfold createClient, createClient_racing.
  rewrite extractClientData_Some. cbn [bind].
  rewrite validateRequiredFields_missing, MF. cbn [bind].
  destruct (Client._validateClientData data true) as [v|m] eqn:V.
  - pose proof (_validateClientData_Ok _ _ _ V) as (Vn & Ve & _).
    apply validate_name_required in Vn. destruct Vn as [N _].
    apply validate_email_required in Ve. destruct Ve as [M _].
    assert (NI : ~ name_has_invalid_characters (Data.name data)).
    { intro I. rewrite (_validateClientData_invalid_name _ true I) in V.
      discriminate V. }
    destruct (existsb (fun r => (SQLite.email r =? normalized (Data.email data))%string)
                      (SQLite.rows db)) eqn:X.
    + apply existsb_email in X.
      rewrite (create_racing_taken db db now data v _ V M X).
      destruct (existsb _ _); cbn [fst snd status_of createClient_catch];
        (split; [cbn; auto|]); (split; [reflexivity|]);
        (split; [discriminate|]); intros (d & Ed & _ & I);
        injection Ed as <-; contradiction.
    + assert (T : ~ email_taken db (normalized (Data.email data))).
      { intro T. apply existsb_email in T. congruence. }
      rewrite (create_racing_fresh db db now data v _ _ V N M T T).
      cbn [fst snd status_of]. split; [cbn; auto|].
      split; [intro H; now contradiction H|]. split; [discriminate|].
      intros (d & Ed & _ & I). injection Ed as <-. contradiction.
  - unfold Client.create_racing. rewrite V. cbn [bind].
    destruct (_validateClientData_Throw _ _ _ V) as [[-> I]|[NI C]].
    + cbn [fst snd]. split; [cbn; auto|]. split; [reflexivity|].
      split; [|reflexivity]. intros _. now exists data.
    + destruct (createClient_catch_validation true m C) as (details & E1 & E2).
      rewrite E2, E1. cbn [fst snd status_of].
      split; [cbn; auto|]. split; [reflexivity|]. split; [discriminate|].
      intros (d & Ed & _ & I). injection Ed as <-. contradiction.
Qed.

Lemma createClient_statuses_witness :
  status_of (fst (createClient Sample.db1 300
                    (Some (Data.make (JStr "John3") (JStr "a@b.c") JUndefined))))
  = 500
  /\ name_has_invalid_characters (JStr "John3").
Proof.
  destruct (createClient_statuses Sample.db1 300
              (Some (Data.make (JStr "John3") (JStr "a@b.c") JUndefined)))
    as (_ & _ & H & G).
  assert (S : status_of
                (fst (createClient Sample.db1 300
                        (Some (Data.make (JStr "John3") (JStr "a@b.c") JUndefined))))
              = 500).
  { apply (H _ eq_refl); [reflexivity|].
    vm_compute. split; [discriminate|]. split; [|reflexivity].
    repeat constructor. }
  split; [exact S|].
  refine (proj2 (G _ eq_refl _ S)).
  unfold scalar_fields, scalar. cbn. tauto.
Defined.


(** X10.  PUT /clients/:id with a parameter that reads as a positive integer
    up to [MAX_SAFE_INTEGER] is answered 200, 400, 404, 409 or 500 and
    changes the table only when it answers 200.  It answers 404 exactly when
    a body is given and no record has the id.  It answers 500 INTERNAL_ERROR
    whenever the record exists and the name given, trimmed, is non-empty, at
    most 100 characters long and has a character outside the allowed set; for
    a body whose fields are neither arrays nor objects that is the only way
    to a 500. *)
Theorem updateClient_statuses (db : SQLite.database) (now : Z) (id : string)
    (n : Z) (body : option Data.t) :
  parseInt_string id = Some n -> 0 < n <= MAX_SAFE_INTEGER ->
  In (status_of (fst (updateClient db now id body))) [200; 400; 404; 409; 500]
  /\ (status_of (fst (updateClient db now id body)) <> 200 ->
      snd (updateClient db now id body) = db)
  /\ (status_of (fst (updateClient db now id body)) = 404
      <-> body <> None /\ SQLite.select_by_id db n = None)
  /\ (forall data old,
        body = Some data ->
        SQLite.select_by_id db n = Some old ->
        name_has_invalid_characters (Data.name data) ->
        status_of (fst (updateClient db now id body)) = 500)
  /\ (forall data,
        body = Some data ->
        scalar_fields data ->
        status_of (fst (updateClient db now id body)) = 500 ->
        SQLite.select_by_id db n <> None
        /\ name_has_invalid_characters (Data.name data)).
Proof.
  intros P0 L0.
  enough (K : In (status_of (fst (updateClient db now id body)))
                [200; 400; 404; 409; 500]
              /\ (status_of (fst (updateClient db now id body)) <> 200 ->
                  snd (updateClient db now id body) = db)
              /\ (status_of (fst (updateClient db now id body)) = 404
                  <-> body <> None /\ SQLite.select_by_id db n = None)
              /\ (status_of (fst (updateClient db now id body)) = 500
                  <-> exists data old,
                        body = Some data
                        /\ SQLite.select_by_id db n = Some old
                        /\ name_has_invalid_characters (Data.name data))).
  { destruct K as (A & B & C & D). split; [exact A|]. split; [exact B|].
    split; [exact C|]. split.
    - intros data old E S I. apply D. now exists data, old.
    - intros data E _ S. apply D in S. destruct S as (d & o & Ed & So & I).
      rewrite E in Ed. injection Ed as <-. rewrite So. split; [discriminate|exact I]. }
  revert P0 L0.
  intros P [L _]. unfold updateClient, updateClient_racing.
  rewrite (validateIdParameter_Ok id n P L). cbn [bind].
  destruct body as [data|].
  2:{ cbn [extractClientData fst snd status_of].
      split; [cbn; repeat (first [left; reflexivity | right])|]. split; [reflexivity|]. split; split.
      - discriminate.
      - intros [H _]. now contradiction H.
      - discriminate.
      - intros (d & o & E & _). discriminate E. }
  rewrite extractClientData_Some. cbn [bind]. unfold Client.update_racing.
  rewrite (_validateId_Num n L). cbn [bind].
  rewrite (findById_Num db n L).
  destruct (SQLite.select_by_id db n) as [old|] eqn:S; cbn [bind].
  2:{ cbn [fst snd status_of]. split; [cbn; repeat (first [left; reflexivity | right])|]. split; [reflexivity|].
      split; split.
      - intros _. split; [discriminate | reflexivity].
      - reflexivity.
      - discriminate.
      - intros (d & o & _ & E & _). discriminate E. }
  destruct (Client._validateClientData data false) as [v|m] eqn:V; cbn [bind].
  2:{ destruct (_validateClientData_Throw _ _ _ V) as [[-> I]|[NI [[C _]|C]]];
        [ | discriminate C | ].
      - cbn [fst snd]. split; [cbn; repeat (first [left; reflexivity | right])|]. split; [reflexivity|].
        split; split.
        + discriminate.
        + intros [_ E]. discriminate E.
        + intros _. now exists data, old.
        + reflexivity.
      - destruct (updateClient_catch_validation m C) as (details & E1 & E2).
        rewrite E2, E1. cbn [fst snd status_of].
        split; [cbn; repeat (first [left; reflexivity | right])|]. split; [reflexivity|]. split; split.
        + discriminate.
        + intros [_ E]. discriminate E.
        + discriminate.
        + intros (d & o & Ed & _ & I). injection Ed as <-. contradiction. }
  assert (NI : ~ name_has_invalid_characters (Data.name data)).
  { intro I. rewrite (_validateClientData_invalid_name _ false I) in V.
    discriminate V. }
  unfold bind.
  remember (if Client.differs (Validated.email v) (SQLite.email old)
            then Client._checkEmailUniqueness db (Validated.email v) (Some n)
            else Ok tt) as c eqn:Ec.
  assert (HA : c = Ok tt \/ c = Throw "Email address already exists").
  { subst c. destruct (Client.differs _ _);
      [apply _checkEmailUniqueness_cases | now left]. }
  clear Ec.
  assert (Done : forall resp : response * SQLite.database,
             status_of (fst resp) = 200
             \/ (status_of (fst resp) = 409 /\ snd resp = db) ->
             In (status_of (fst resp)) [200; 400; 404; 409; 500]
             /\ (status_of (fst resp) <> 200 -> snd resp = db)
             /\ (status_of (fst resp) = 404
                 <-> Some data <> None /\ Some old = None)
             /\ (status_of (fst resp) = 500
                 <-> exists data0 old0,
                       Some data = Some data0 /\ Some old = Some old0
                       /\ name_has_invalid_characters (Data.name data0))).
  { intros resp [K|[K1 K2]].
    - rewrite K. split; [cbn; auto|].
      split; [intro H; exfalso; now apply H|]. split; split.
      + discriminate.
      + intros [_ E]. discriminate E.
      + discriminate.
      + intros (d & o & Ed & _ & I). injection Ed as <-. contradiction.
    - rewrite K1. split; [cbn; auto 6|]. split; [intros _; exact K2|].
      split; split.
      + discriminate.
      + intros [_ E]. discriminate E.
      + discriminate.
      + intros (d & o & Ed & _ & I). injection Ed as <-. contradiction. }
  apply Done. destruct HA as [-> | ->].
  - destruct (Client.no_fields _); [left; reflexivity|].
    destruct (update_present db now (Client.updateFields v) n old S)
      as [->|(d' & -> & G)].
    + right. split; reflexivity.
    + left. rewrite (findById_Num d' n L), G. reflexivity.
  - right. split; reflexivity.
Qed.

Lemma updateClient_statuses_witness :
  status_of (fst (updateClient Sample.db2 300 "2"
                    (Some (Data.make (JStr "Jane_Roe") JUndefined JUndefined))))
  = 500
  /\ name_has_invalid_characters (JStr "Jane_Roe").
Proof.
  destruct (updateClient_statuses Sample.db2 300 "2" 2
              (Some (Data.make (JStr "Jane_Roe") JUndefined JUndefined))
              eq_refl)
    as (_ & _ & _ & H & G); [vm_compute; split; [reflexivity | discriminate]|].
  assert (S : status_of
                (fst (updateClient Sample.db2 300 "2"
                        (Some (Data.make (JStr "Jane_Roe") JUndefined JUndefined))))
              = 500).
  { apply (H _ Sample.jane_row eq_refl); [reflexivity|].
    vm_compute. split; [discriminate|]. split; [|reflexivity].
    repeat constructor. }
  split; [exact S|].
  refine (proj2 (G _ eq_refl _ S)).
  unfold scalar_fields, scalar. cbn. tauto.
Defined.

End Statuses.

(** ** The shape of a listing *)

Section ListingShape.

Import JS.

Lemma hasNext_iff (p l t : Z) :
  0 < l -> 0 <= t ->
  (p <? Client.ceil_div t l) = true <-> p * l < t.
Proof.
  intros Hl Ht. rewrite Z.ltb_lt.
  pose proof (ceil_div_covers t l Ht Hl) as C.
  destruct (ceil_div_least t l Ht Hl) as [Q|[-> Q]].
  - split; intro H; nia.
  - rewrite Q. split; intro H; nia.
Qed.

Lemma page_slice_length (p l : Z) (sorted : list SQLite.row) :
  0 < l -> 1 <= p ->
  SQLite.count (page_slice p l sorted)
  = Z.min l (Z.max 0 (SQLite.count sorted - (p - 1) * l)).
Proof.
  intros Hl Hp. unfold page_slice, SQLite.count.
  rewrite length_firstn, length_skipn. nia.
Qed.

(** X11.  [findAll] succeeds on every options object whose page is read by
    [parseInt] as at most [MAX_SAFE_INTEGER] and whose limit, when a number,
    is at most that.  The page it reports is at least 1 (1 when [page] does
    not parse, or parses to 0), the limit between 1 and 100 (10 when [limit]
    does not parse, or parses to 0).  [total] counts the rows the search
    keeps and [totalPages] is the least number of pages of [limit] rows that
    hold them.  It returns [min(limit, total - offset)] records for the
    offset [(page - 1) * limit]: none on a page beyond the last, and at least
    one on every page up to the last.  [hasNext] holds exactly when records
    remain after this page and [hasPrev] exactly when the page is not the
    first. *)
Theorem findAll_result_shape (db : SQLite.database) (o : Options.t) :
  (forall n, parseInt (Options.page o) = Some n -> n <= MAX_SAFE_INTEGER) ->
  (forall n, Options.limit o = JNum n -> n <= MAX_SAFE_INTEGER) ->
  exists res,
    Client.findAll db o = Ok res
    /\ Listing.page res = Z.max 1 (number_or (parseInt (Options.page o)) 1)
    /\ Listing.limit res
       = Z.min 100 (Z.max 1 (number_or (parseInt (Options.limit o)) 10))
    /\ 1 <= Listing.page res <= MAX_SAFE_INTEGER
    /\ 1 <= Listing.limit res <= 100
    /\ Listing.total res = SQLite.count (matching db (Options.search o))
    /\ Listing.totalPages res
       = Client.ceil_div (Listing.total res) (Listing.limit res)
    /\ (Listing.totalPages res - 1) * Listing.limit res < Listing.total res
       <= Listing.totalPages res * Listing.limit res
    /\ SQLite.count (Listing.clients res)
       = Z.min (Listing.limit res)
           (Z.max 0 (Listing.total res
                     - (Listing.page res - 1) * Listing.limit res))
    /\ (Listing.totalPages res < Listing.page res -> Listing.clients res = [])
    /\ (Listing.page res <= Listing.totalPages res -> Listing.clients res <> [])
    /\ (Listing.hasNext res = true
        <-> Listing.page res * Listing.limit res < Listing.total res)
    /\ (Listing.hasPrev res = true <-> 1 < Listing.page res).
Proof.
  intros Bp _.
  destruct (findAll_unfold db o) as (c & _ & E). cbv zeta in E.
  eexists. split; [exact E|].
  cbn [Listing.page Listing.limit Listing.total Listing.clients
       Listing.totalPages Listing.hasNext Listing.hasPrev].
  set (p := Z.max 1 (number_or (parseInt (Options.page o)) 1)).
  set (l := Z.min 100 (Z.max 1 (number_or (parseInt (Options.limit o)) 10))).
  set (rows := matching db (Options.search o)).
  assert (Hp : 1 <= p <= MAX_SAFE_INTEGER).
  { unfold p, number_or.
    assert (M : 1 <= MAX_SAFE_INTEGER) by (vm_compute; discriminate).
    destruct (parseInt (Options.page o)) as [n|] eqn:Pn; [|lia].
    specialize (Bp n eq_refl). destruct (n =? 0); lia. }
  assert (Hl : 1 <= l <= 100) by (unfold l; lia).
  assert (T0 : 0 <= SQLite.count rows) by (unfold SQLite.count; lia).
  pose proof (ceil_div_covers (SQLite.count rows) l T0 ltac:(lia)) as Cov.
  pose proof (ceil_div_least (SQLite.count rows) l T0 ltac:(lia)) as Least.
  assert (Len : SQLite.count
                  (SQLite.order_by c (sort_direction (Options.order o)) rows)
                = SQLite.count rows).
  { unfold SQLite.count. now rewrite order_by_length. }
  split; [reflexivity|]. split; [reflexivity|]. split; [exact Hp|].
  split; [exact Hl|]. split; [reflexivity|]. split; [reflexivity|].
  split; [split; [destruct Least as [L|[L1 L2]]; [exact L | rewrite L2, L1; lia]
                 | exact Cov]|].
  split; [rewrite page_slice_length by lia; now rewrite Len|].
  split; [intro Beyond; apply page_slice_beyond; [lia|]; rewrite Len; nia|].
  split; [intro Within; apply page_slice_within; [lia|lia|]; rewrite Len;
          destruct Least as [L|[_ L]]; nia|].
  split.
  - apply hasNext_iff; [lia | exact T0].
  - apply Z.ltb_lt.
Qed.

Lemma findAll_result_shape_witness :
  exists res,
    Client.findAll Sample.db2
      (Options.make (JStr "abc") (JNum 500) None None None) = Ok res
    /\ Listing.page res = 1 /\ Listing.limit res = 100
    /\ SQLite.count (Listing.clients res) = 2.
Proof.
  destruct (findAll_result_shape Sample.db2
              (Options.make (JStr "abc") (JNum 500) None None None))
    as (res & E & P & L & _ & _ & _ & _ & _ & N & _).
  - intros n H. discriminate H.
  - intros n H. injection H as <-. vm_compute. discriminate.
  - exists res. split; [exact E|]. split; [exact P|]. split; [exact L|].
    injection E as <-. reflexivity.
Defined.

Lemma compare_nullable_antisym (a b : option string) :
  SQLite.compare_nullable b a = CompOpp (SQLite.compare_nullable a b).
Proof.
  destruct a, b; try reflexivity. cbn. apply String.compare_antisym.
Qed.

Lemma compare_on_antisym (c : SQLite.column) (a b : SQLite.row) :
  SQLite.compare_on c b a = CompOpp (SQLite.compare_on c a b).
Proof.
  destruct c; cbn [SQLite.compare_on];
    first [ apply Z.compare_antisym
          | apply String.compare_antisym
          | apply compare_nullable_antisym ].
Qed.

Lemma before_total (c : SQLite.column) (d : SQLite.direction)
    (a b : SQLite.row) :
  SQLite.before c d a b = false -> SQLite.before c d b a = true.
Proof.
  unfold SQLite.before. rewrite (compare_on_antisym c a b).
  destruct d, (SQLite.compare_on c a b); cbn; congruence.
Qed.

Lemma place_sorted (c : SQLite.column) (d : SQLite.direction)
    (x : SQLite.row) (l : list SQLite.row) :
  Sorted (fun a b => SQLite.before c d a b = true) l ->
  Sorted (fun a b => SQLite.before c d a b = true) (SQLite.place c d x l).
Proof.
  induction l as [|y l IH]; intro S; cbn [SQLite.place].
  - constructor; constructor.
  - destruct (SQLite.before c d x y) eqn:B.
    + constructor; [exact S | now constructor].
    + inversion S as [|? ? S' H]; subst. constructor; [now apply IH|].
      destruct l as [|z l]; cbn [SQLite.place].
      * constructor. now apply before_total.
      * destruct (SQLite.before c d x z); constructor.
        -- now apply before_total.
        -- now inversion H.
Qed.

Lemma order_by_sorted (c : SQLite.column) (d : SQLite.direction)
    (l : list SQLite.row) :
  Sorted (fun a b => SQLite.before c d a b = true) (SQLite.order_by c d l).
Proof.
  induction l as [|x l IH]; [constructor|].
  change (SQLite.order_by c d (x :: l))
    with (SQLite.place c d x (SQLite.order_by c d l)).
  now apply place_sorted.
Qed.

Lemma place_perm (c : SQLite.column) (d : SQLite.direction)
    (x : SQLite.row) (l : list SQLite.row) :
  Permutation (x :: l) (SQLite.place c d x l).
Proof.
  induction l as [|y l IH]; cbn [SQLite.place]; [reflexivity|].
  destruct (SQLite.before c d x y); [reflexivity|].
  rewrite perm_swap. now constructor.
Qed.

Lemma order_by_perm (c : SQLite.column) (d : SQLite.direction)
    (l : list SQLite.row) :
  Permutation l (SQLite.order_by c d l).
Proof.
  induction l as [|x l IH]; [constructor|].
  change (SQLite.order_by c d (x :: l))
    with (SQLite.place c d x (SQLite.order_by c d l)).
  rewrite <- place_perm. now constructor.
Qed.

Lemma Sorted_skipn {A : Type} (R : A -> A -> Prop) (n : nat) (l : list A) :
  Sorted R l -> Sorted R (skipn n l).
Proof.
  revert l. induction n as [|n IH]; intros l S; [exact S|].
  destruct l as [|x l]; [constructor|]. cbn [skipn]. apply IH.
  now inversion S.
Qed.

Lemma Sorted_firstn {A : Type} (R : A -> A -> Prop) (n : nat) (l : list A) :
  Sorted R l -> Sorted R (firstn n l).
Proof.
  revert l. induction n as [|n IH]; intros l S; [constructor|].
  destruct l as [|x l]; [constructor|]. cbn [firstn].
  inversion S as [|? ? S' H]; subst. constructor; [now apply IH|].
  destruct l as [|y l]; [rewrite firstn_nil; constructor|].
  destruct n; cbn [firstn]; constructor. now inversion H.
Qed.

(** X12.  The records [findAll] returns are in the order asked for: each
    record stands before the next under the validated sort column and the
    direction, NULL phones first when ascending.  The page is cut from a
    rearrangement of exactly the rows the WHERE clause keeps: sorting loses
    and adds none. *)
Theorem findAll_sorted (db : SQLite.database) (o : Options.t)
    (res : Listing.t) :
  Client.findAll db o = Ok res ->
  exists c,
    SQLite.column_of_name
      (Client._validateSortField (Client.or_string (Options.sortBy o) "created_at"))
    = Some c
    /\ Sorted (fun a b => SQLite.before c (sort_direction (Options.order o)) a b
                          = true)
              (Listing.clients res)
    /\ Listing.clients res
       = page_slice (Listing.page res) (Listing.limit res)
           (SQLite.order_by c (sort_direction (Options.order o))
              (matching db (Options.search o)))
    /\ Permutation (matching db (Options.search o))
         (SQLite.order_by c (sort_direction (Options.order o))
            (matching db (Options.search o))).
Proof.
  intro H. destruct (findAll_unfold db o) as (c & C & E). cbv zeta in E.
  rewrite E in H. injection H as <-. exists c. split; [exact C|].
  cbn [Listing.clients Listing.page Listing.limit].
  split; [|split; [reflexivity | apply order_by_perm]].
  unfold page_slice. apply Sorted_firstn, Sorted_skipn, order_by_sorted.
Qed.

Lemma findAll_sorted_witness :
  exists c,
    Sorted (fun a b => SQLite.before c SQLite.ASC a b = true)
           [Sample.jane_row; Sample.john_row].
Proof.
  destruct (findAll_sorted Sample.db2
              (Options.make (JNum 1) (JNum 10) None (Some "name") (Some "asc"))
              (Listing.make [Sample.jane_row; Sample.john_row] 2 1 10 1 false false)
              eq_refl) as (c & _ & S & _).
  exists c. exact S.
Defined.

End ListingShape.

(** ** Pages cover the result *)

Section Pages.

Import JS.

Lemma firstn_add {A : Type} (a b : nat) (l : list A) :
  firstn (a + b) l = (firstn a l ++ firstn b (skipn a l))%list.
Proof.
  revert l. induction a as [|a IH]; intro l; [reflexivity|].
  destruct l as [|x l]; cbn [Nat.add firstn skipn app].
  - now rewrite firstn_nil.
  - now rewrite IH.
Qed.

Lemma concat_chunks {A : Type} (l : nat) (L : list A) (n : nat) :
  List.concat (map (fun k => firstn l (skipn (k * l) L)) (List.seq 0 n))
  = firstn (n * l) L.
Proof.
  induction n as [|n IH]; [reflexivity|].
  rewrite seq_S, map_app, concat_app, IH. cbn [Nat.add map List.concat].
  rewrite app_nil_r. replace (S n * l)%nat with (n * l + l)%nat by lia.
  now rewrite firstn_add.
Qed.

Lemma page_slice_chunk (k : nat) (l : Z) (sorted : list SQLite.row) :
  0 <= l ->
  page_slice (Z.of_nat k + 1) l sorted
  = firstn (Z.to_nat l) (skipn (k * Z.to_nat l) sorted).
Proof.
  intro H. unfold page_slice. do 2 f_equal.
  replace (Z.of_nat k + 1 - 1) with (Z.of_nat k) by lia.
  rewrite Z2Nat.inj_mul by lia. now rewrite Nat2Z.id.
Qed.

Lemma findAll_page (db : SQLite.database) (p l : Z)
    (search sortBy order : option string) (c : SQLite.column) :
  1 <= p -> 1 <= l <= 100 ->
  SQLite.column_of_name
    (Client._validateSortField (Client.or_string sortBy "created_at")) = Some c ->
  exists res,
    Client.findAll db (Options.make (JNum p) (JNum l) search sortBy order)
    = Ok res
    /\ Listing.clients res
       = page_slice p l
           (SQLite.order_by c (sort_direction order) (matching db search)).
Proof.
  intros Hp Hl C.
  destruct (findAll_unfold db (Options.make (JNum p) (JNum l) search sortBy order))
    as (c' & C' & E).
  cbv zeta in E.
  cbn [Options.page Options.limit Options.search Options.sortBy Options.order]
    in E, C'.
  rewrite C in C'. injection C' as <-.
  rewrite !parseInt_Number in E by lia.
  assert (Np : number_or (Some p) 1 = p).
  { unfold number_or. destruct (p =? 0) eqn:Z0; [apply Z.eqb_eq in Z0; lia|reflexivity]. }
  assert (Nl : number_or (Some l) 10 = l).
  { unfold number_or. destruct (l =? 0) eqn:Z0; [apply Z.eqb_eq in Z0; lia|reflexivity]. }
  rewrite Np, Nl in E.
  replace (Z.max 1 p) with p in E by lia.
  replace (Z.min 100 (Z.max 1 l)) with l in E by lia.
  eexists. split; [exact E | reflexivity].
Qed.

(** X13.  For a page size [l] in 1..100, the pages 1, ..., [totalPages]
    that [findAll] returns, one after the other, are the sorted matching
    rows: every matching record is on one page, at its place in the order,
    and no page shows a record twice or one that does not match. *)
Theorem pages_cover_the_result (db : SQLite.database) (l : Z)
    (search sortBy order : option string) :
  1 <= l <= 100 ->
  exists c,
    SQLite.column_of_name
      (Client._validateSortField (Client.or_string sortBy "created_at")) = Some c
    /\ let rows :=
         SQLite.order_by c (sort_direction order) (matching db search) in
       let totalPages := Client.ceil_div (SQLite.count rows) l in
       List.concat
         (map (fun p =>
                 match Client.findAll db
                         (Options.make (JNum p) (JNum l) search sortBy order)
                 with
                 | Ok res => Listing.clients res
                 | Throw _ => []
                 end)
              (page_numbers (Z.to_nat totalPages)))
       = rows.
Proof.
  intro Hl.
  destruct (_validateSortField_column (Client.or_string sortBy "created_at"))
    as [c C].
  exists c. split; [exact C|]. cbv zeta.
  set (rows := SQLite.order_by c (sort_direction order) (matching db search)).
  unfold page_numbers. rewrite map_map.
  rewrite (map_ext_in _ (fun k => firstn (Z.to_nat l) (skipn (k * Z.to_nat l) rows))).
  - rewrite concat_chunks. apply firstn_all2.
    assert (T0 : 0 <= SQLite.count rows) by (unfold SQLite.count; lia).
    pose proof (ceil_div_covers (SQLite.count rows) l T0 ltac:(lia)) as Cov.
    assert (Q0 : 0 <= Client.ceil_div (SQLite.count rows) l).
    { unfold Client.ceil_div. apply Z.div_pos; lia. }
    unfold SQLite.count in *.
    apply Nat2Z.inj_le. rewrite Nat2Z.inj_mul, !Z2Nat.id by lia. exact Cov.
  - intros k _.
    destruct (findAll_page db (Z.of_nat k + 1) l search sortBy order c
                ltac:(lia) Hl C) as (res & -> & ->).
    apply page_slice_chunk. lia.
Qed.

Lemma pages_cover_the_result_witness :
  List.concat
    (map (fun p =>
            match Client.findAll Sample.db2
                    (Options.make (JNum p) (JNum 1) None (Some "id") (Some "ASC"))
            with
            | Ok res => Listing.clients res
            | Throw _ => []
            end)
         [1; 2])
  = [Sample.john_row; Sample.jane_row].
Proof.
  destruct (pages_cover_the_result Sample.db2 1 None (Some "id") (Some "ASC"))
    as (c & C & H); [split; discriminate|].
  injection C as <-. exact H.
Defined.

End Pages.

(** ** Search *)

Section Search.

Import JS History.

Lemma like_percent (p t : string) :
  SQLite.like (String "%" p) t
  = SQLite.like p t ||
    match t with
    | EmptyString => false
    | String _ t' => SQLite.like (String "%" p) t'
    end.
Proof. destruct t; reflexivity. Qed.

Lemma like_char (c : ascii) (p t : string) :
  Ascii.eqb c "%" = false -> Ascii.eqb c "_" = false ->
  SQLite.like (String c p) t
  = match t with
    | EmptyString => false
    | String d t' =>
        Ascii.eqb (SQLite.fold_case c) (SQLite.fold_case d) && SQLite.like p t'
    end.
Proof.
  destruct c as [[] [] [] [] [] [] [] []]; intros H1 H2;
    try discriminate H1; try discriminate H2; reflexivity.
Qed.

Lemma like_all (t : string) : SQLite.like "%" t = true.
Proof.
  induction t as [|d t IH]; [reflexivity|].
  rewrite like_percent. cbn [SQLite.like]. exact IH.
Qed.

Lemma prefix_cons (a b : ascii) (s t : string) :
  String.prefix (String a s) (String b t) = Ascii.eqb a b && String.prefix s t.
Proof.
  cbn [String.prefix]. destruct (ascii_dec a b) as [->|N].
  - now rewrite Ascii.eqb_refl.
  - apply Ascii.eqb_neq in N. now rewrite N.
Qed.

(** A pattern of plain characters followed by [%] matches the strings that
    begin with it, letters compared without case. *)
Lemma like_prefix (s t : string) :
  no_wildcard s = true ->
  SQLite.like (s ++ "%") t = String.prefix (fold_string s) (fold_string t).
Proof.
  revert t. induction s as [|c s IH]; intros t N.
  - cbn [append]. rewrite like_all. destruct t; reflexivity.
  - cbn [no_wildcard] in N. apply andb_true_iff in N. destruct N as [N N3].
    apply andb_true_iff in N. destruct N as [N1 N2].
    apply negb_true_iff in N1, N2.
    cbn [append]. rewrite (like_char c _ t N1 N2).
    destruct t as [|d t]; [reflexivity|].
    unfold fold_string in *. cbn [map_string]. rewrite prefix_cons.
    now rewrite IH.
Qed.

Lemma like_contains (s t : string) :
  no_wildcard s = true ->
  SQLite.like ("%" ++ s ++ "%") t = includes (fold_string t) (fold_string s).
Proof.
  intro N. change ("%" ++ s ++ "%") with (String "%" (s ++ "%")).
  induction t as [|d t IH].
  - rewrite like_percent, (like_prefix s "" N). cbn [includes fold_string map_string].
    now rewrite orb_false_r.
  - rewrite like_percent, (like_prefix s _ N), IH.
    unfold fold_string. cbn [map_string includes]. reflexivity.
Qed.

Lemma filter_all {A : Type} (p : A -> bool) (l : list A) :
  (forall x, In x l -> p x = true) -> filter p l = l.
Proof.
  induction l as [|x l IH]; intro H; [reflexivity|].
  cbn [filter]. rewrite (H x (or_introl eq_refl)). f_equal.
  apply IH. intros y I. apply H. now right.
Qed.

(** X14.  A search term that, trimmed, is not empty and has no [%] and no
    [_] keeps exactly the records whose name or whose email contains the
    trimmed term, ASCII letters compared without regard to case.  An absent
    term, or one that trims to the empty string, keeps every record. *)
Theorem search_is_substring_match (db : SQLite.database) (s : string) :
  (trim s <> "" -> no_wildcard (trim s) = true ->
   matching db (Some s)
   = filter (fun r =>
               includes (fold_string (SQLite.name r)) (fold_string (trim s))
               || includes (fold_string (SQLite.email r)) (fold_string (trim s)))
            (SQLite.rows db))
  /\ (trim s = "" -> matching db (Some s) = SQLite.rows db)
  /\ matching db None = SQLite.rows db.
Proof.
  assert (T : trim (Client.or_string (Some s) "") = trim s).
  { unfold Client.or_string. destruct (Client.nonempty s) eqn:E; [reflexivity|].
    unfold Client.nonempty in E. apply negb_false_iff, String.eqb_eq in E.
    now subst s. }
  split; [|split].
  - intros NE N. unfold matching, search_pattern. rewrite T.
    assert (E : Client.nonempty (trim s) = true).
    { unfold Client.nonempty. now apply negb_true_iff, String.eqb_neq. }
    rewrite E. apply filter_ext. intro r. cbn [SQLite.where_clause].
    now rewrite !like_contains.
  - intro E. unfold matching, search_pattern. rewrite T, E. cbn.
    now apply filter_all.
  - unfold matching. cbn. now apply filter_all.
Qed.

Lemma search_is_substring_match_witness :
  matching Sample.db2 (Some " JOHN@ex ") = [Sample.john_row].
Proof.
  destruct (search_is_substring_match Sample.db2 " JOHN@ex ") as [H _].
  rewrite H; [reflexivity | discriminate | reflexivity].
Defined.

(** X15.  The search term is bound into the LIKE pattern as it is: a term of
    [%] keeps every record, and a term of [_] keeps every record of a
    reachable table, whatever the names and emails are. *)
Theorem search_wildcards_are_not_escaped :
  (forall db, matching db (Some "%") = SQLite.rows db)
  /\ (forall t db, reachable t db -> matching db (Some "_") = SQLite.rows db).
Proof.
  split.
  - intro db. unfold matching. apply filter_all. intros r _.
    change (SQLite.where_clause (search_pattern (Some "%")) r)
      with (SQLite.like "%%%" (SQLite.name r) || SQLite.like "%%%" (SQLite.email r)).
    assert (A : forall x, SQLite.like "%%%" x = true).
    { induction x as [|d x IH]; [reflexivity|].
      rewrite like_percent, IH. apply orb_true_r. }
    now rewrite A.
  - intros t db R. unfold matching. apply filter_all. intros r I.
    change (SQLite.where_clause (search_pattern (Some "_")) r)
      with (SQLite.like "%_%" (SQLite.name r) || SQLite.like "%_%" (SQLite.email r)).
    destruct (reachable_ok t db R) as [_ F]. rewrite Forall_forall in F.
    destruct (F r I) as (_ & _ & _ & N & _).
    destruct (SQLite.name r) as [|d x]; [contradiction|].
    rewrite like_percent.
    change (SQLite.like "_%" (String d x)) with (SQLite.like "%" x).
    now rewrite like_all.
Qed.

Lemma search_wildcards_are_not_escaped_witness :
  matching Sample.db2 (Some "_") = SQLite.rows Sample.db2.
Proof.
  destruct search_wildcards_are_not_escaped as [_ H].
  apply (H 200 Sample.db2 sample_db2_reachable).
Defined.

End Search.

(** ** Reads after writes *)

Section ReadsAfterWrites.

Import JS Controller.

Lemma getClientById_Number (db : SQLite.database) (n : Z) (r : SQLite.row) :
  0 < n -> SQLite.select_by_id db n = Some r ->
  getClientById db (Number_toString n)
  = Json 200 (DClient (Some r)) "Client retrieved successfully".
Proof.
  intros P S.
  rewrite (getClientById_valid db (Number_toString n) n (parseInt_Number n P) P).
  now rewrite S.
Qed.

(** X16.  What a write returns is what a read then finds: after a create or
    an update that returned a record, [findById] with that record's id and
    GET /clients/:id with its decimal numeral answer that same record. *)
Theorem reads_see_the_write (db : SQLite.database) (now : Z) :
  (forall d r db',
      Client.create db now d = (Ok r, db') ->
      Client.findById db' (JNum (SQLite.id r)) = Ok (Some r)
      /\ getClientById db' (Number_toString (SQLite.id r))
         = Json 200 (DClient (Some r)) "Client retrieved successfully")
  /\ (forall id d r db',
        Client.update db now id d = (Ok (Some r), db') ->
        Client.findById db' (JNum (SQLite.id r)) = Ok (Some r)
        /\ getClientById db' (Number_toString (SQLite.id r))
           = Json 200 (DClient (Some r)) "Client retrieved successfully").
Proof.
  split.
  - intros d r db' H. apply create_racing_Ok in H.
    destruct H as (v & n & _ & _ & _ & _ & -> & ->).
    pose proof (inserted_id_pos db now n (normalized (Data.email d))
                  (Client.flatten (Validated.phone v))) as P.
    pose proof (select_inserted db now n (normalized (Data.email d))
                  (Client.flatten (Validated.phone v))) as S.
    split; [now rewrite (findById_Num _ _ P), S|].
    now apply getClientById_Number.
  - intros id d r db' H. apply update_racing_Ok in H.
    destruct H as (i & existing & v & I & X & _ & C).
    pose proof (_validateId_pos _ _ I) as P.
    assert (S : SQLite.select_by_id db' (SQLite.id r) = Some r
                /\ SQLite.id r = i).
    { destruct C as [(_ & -> & ->)|(_ & old & O & -> & S)].
      - destruct (select_by_id_id db i existing X) as [_ E]. now rewrite E.
      - destruct (select_by_id_id db i old O) as [_ E].
        cbn [SQLite.assign SQLite.id]. rewrite E. now split. }
    destruct S as [S E]. rewrite E in *.
    split; [now rewrite (findById_Num _ _ P), S|].
    now apply getClientById_Number.
Qed.

Lemma reads_see_the_write_witness :
  getClientById Sample.db2 "2"
  = Json 200 (DClient (Some Sample.jane_row)) "Client retrieved successfully".
Proof.
  destruct (reads_see_the_write Sample.db1 200) as [H _].
  destruct (H Sample.jane Sample.jane_row Sample.db2 eq_refl) as [_ G].
  exact G.
Defined.

End ReadsAfterWrites.

(** ** GET /clients *)

Section GetAllClients.

Import JS Controller.

Lemma trimEnd_idempotent (s : string) : trimEnd (trimEnd s) = trimEnd s.
Proof.
  induction s as [|c s IH]; [reflexivity|].
  cbn [trimEnd]. destruct (trimEnd s) as [|d t] eqn:E.
  - destruct (isWhiteSpace c) eqn:W; [reflexivity|].
    cbn [trimEnd]. now rewrite W.
  - change (trimEnd (String c (String d t)))
      with (match trimEnd (String d t) with
            | EmptyString => if isWhiteSpace c then EmptyString
                             else String c EmptyString
            | u => String c u
            end).
    now rewrite IH.
Qed.

Lemma trimStart_fixed (c : ascii) (s : string) :
  isWhiteSpace c = false -> trimStart (String c s) = String c s.
Proof. intro W. cbn [trimStart]. now rewrite W. Qed.

Lemma trimStart_head (s : string) :
  trimStart s = "" \/
  exists c t, trimStart s = String c t /\ isWhiteSpace c = false.
Proof.
  induction s as [|c s IH]; [now left|].
  cbn [trimStart]. destruct (isWhiteSpace c) eqn:W; [exact IH|].
  right. now exists c, s.
Qed.

Lemma trimEnd_head (c : ascii) (s : string) :
  isWhiteSpace c = false -> exists t, trimEnd (String c s) = String c t.
Proof.
  intro W. cbn [trimEnd]. destruct (trimEnd s); rewrite ?W; eauto.
Qed.

Lemma trim_idempotent (s : string) : trim (trim s) = trim s.
Proof.
  unfold trim. destruct (trimStart_head s) as [->|(c & t & -> & W)];
    [reflexivity|].
  destruct (trimEnd_head c t W) as [u E]. rewrite E.
  rewrite (trimStart_fixed c u W), <- E. apply trimEnd_idempotent.
Qed.

Lemma search_pattern_trimmed (s : option string) :
  search_pattern (Some (trim (Client.or_string s ""))) = search_pattern s.
Proof.
  unfold search_pattern.
  assert (E : trim (Client.or_string (Some (trim (Client.or_string s ""))) "")
              = trim (Client.or_string s "")).
  { set (x := trim (Client.or_string s "")).
    unfold Client.or_string at 1. destruct (Client.nonempty x) eqn:N.
    - apply trim_idempotent.
    - unfold Client.nonempty in N. apply negb_false_iff, String.eqb_eq in N.
      now rewrite N. }
  now rewrite E.
Qed.

Lemma or_string_default (s : option string) (d : string) :
  Client.nonempty d = true ->
  Client.or_string (Some (Client.or_string s d)) d = Client.or_string s d.
Proof.
  intro D.
  assert (N : Client.nonempty (Client.or_string s d) = true).
  { unfold Client.or_string. destruct s as [x|]; [|exact D].
    destruct (Client.nonempty x) eqn:X; [exact X | exact D]. }
  unfold Client.or_string at 1. now rewrite N.
Qed.

Lemma sort_direction_query (order : option string) :
  sort_direction
    (Some (if (toLowerCase (Client.or_string order "desc") =? "asc")%string
           then "ASC" else "DESC"))
  = query_direction order.
Proof.
  unfold query_direction.
  destruct (toLowerCase (Client.or_string order "desc") =? "asc")%string;
    reflexivity.
Qed.

Lemma or_string_method_plain (x : Query.param) (d callee : string)
    (method : string -> string) :
  Query.plain x ->
  or_string_method x d callee method
  = Ok (method (Client.or_string (Query.string_of x) d)).
Proof. destruct x; intro P; [reflexivity | reflexivity | destruct P]. Qed.

Lemma sortBy_of_validated (x : Query.param) :
  Client._validateSortField
    (Client.or_string (Some (sortBy_of x)) "created_at")
  = Client._validateSortField
      (Client.or_string (Query.string_of x) "created_at").
Proof.
  destruct x as [|s|t]; [reflexivity | | reflexivity].
  unfold sortBy_of. cbn [Query.string_of].
  now rewrite or_string_default.
Qed.

(** X17.  GET /clients answers 200 when the [search] and [order] parameters
    are absent or strings and the page read is at most [MAX_SAFE_INTEGER].
    The page is the [page] parameter read by [parseInt], 1 when it is absent,
    unreadable or below 1; the limit is the [limit] parameter, 10 when absent
    or unreadable, cut to 1..100.  The data are that page of the records
    matching the trimmed search term, in an order sorted by the validated
    sort column ([created_at] when [sortBy] is no allowed name), ascending
    exactly when the [order] parameter in lower case is "asc"; the meta and
    the message count them.  When [search] or [order] is an array or an
    object the answer is 500 INTERNAL_ERROR. *)
Theorem getAllClients_answers (db : SQLite.database) (q : Query.t) :
  let page :=
    Z.max 1 (number_or (parseInt (string_of_field (Query.page q))) 1) in
  let limit :=
    Z.min 100
      (Z.max 1 (number_or (parseInt (string_of_field (Query.limit q))) 10)) in
  (page <= MAX_SAFE_INTEGER ->
   Query.plain (Query.search q) ->
   Query.plain (Query.order q) ->
   exists c sorted,
     SQLite.column_of_name
       (Client._validateSortField
          (Client.or_string (Query.string_of (Query.sortBy q)) "created_at"))
     = Some c
     /\ Permutation (matching db (Query.string_of (Query.search q))) sorted
     /\ Sorted (fun a b =>
                  SQLite.before c
                    (query_direction (Query.string_of (Query.order q))) a b
                  = true) sorted
     /\ let total := SQLite.count sorted in
        let clients := page_slice page limit sorted in
        getAllClients db q
        = Json 200
            (DClients clients
               (Listing.make clients total page limit
                  (Client.ceil_div total limit)
                  (page <? Client.ceil_div total limit) (1 <? page)))
            ("Retrieved " ++ Number_toString (SQLite.count clients) ++ " clients"))
  /\ (~ Query.plain (Query.search q) \/ ~ Query.plain (Query.order q) ->
      exists details,
        getAllClients db q
        = Next 500 "INTERNAL_ERROR" "Failed to retrieve clients" details).
Proof.
  cbv zeta.
  set (page := Z.max 1 (number_or (parseInt (string_of_field (Query.page q))) 1)).
  set (limit := Z.min 100
                  (Z.max 1 (number_or (parseInt (string_of_field (Query.limit q))) 10))).
  split.
  - intros _ Ps Po.
    set (search := trim (Client.or_string (Query.string_of (Query.search q)) "")).
    set (order := if (toLowerCase
                        (Client.or_string (Query.string_of (Query.order q)) "desc")
                      =? "asc")%string then "ASC" else "DESC").
    set (opts := Options.make (JNum page) (JNum limit) (Some search)
                   (Some (sortBy_of (Query.sortBy q))) (Some order)).
    assert (X : extractQueryOptions q = Ok opts).
    { unfold extractQueryOptions.
      rewrite (or_string_method_plain _ _ _ _ Ps). cbn [bind].
      rewrite (or_string_method_plain _ _ _ _ Po). reflexivity. }
    destruct (findAll_unfold db opts) as (c & C & E).
    cbv zeta in E. unfold opts in E, C.
    cbn [Options.page Options.limit Options.search Options.sortBy Options.order]
      in E, C.
    assert (Hp : 1 <= page) by (unfold page; lia).
    assert (Hl : 1 <= limit <= 100) by (unfold limit; lia).
    rewrite !parseInt_Number in E by lia.
    assert (Np : number_or (Some page) 1 = page).
    { unfold number_or.
      destruct (page =? 0) eqn:Z0; [apply Z.eqb_eq in Z0; lia|reflexivity]. }
    assert (Nl : number_or (Some limit) 10 = limit).
    { unfold number_or.
      destruct (limit =? 0) eqn:Z0; [apply Z.eqb_eq in Z0; lia|reflexivity]. }
    rewrite Np, Nl in E.
    replace (Z.max 1 page) with page in E by lia.
    replace (Z.min 100 (Z.max 1 limit)) with limit in E by lia.
    unfold order in E. rewrite sort_direction_query in E.
    unfold matching, search in E. rewrite search_pattern_trimmed in E.
    fold (matching db (Query.string_of (Query.search q))) in E.
    rewrite sortBy_of_validated in C.
    set (rows := matching db (Query.string_of (Query.search q))) in *.
    set (dir := query_direction (Query.string_of (Query.order q))) in *.
    exists c, (SQLite.order_by c dir rows).
    split; [exact C|]. split; [apply order_by_perm|].
    split; [apply order_by_sorted|].
    assert (Len : SQLite.count (SQLite.order_by c dir rows) = SQLite.count rows).
    { unfold SQLite.count. now rewrite order_by_length. }
    rewrite Len. unfold getAllClients. rewrite X. cbn [bind].
    unfold opts, search, order. rewrite E. reflexivity.
  - intros [N|N]; unfold getAllClients, extractQueryOptions.
    + destruct (Query.search q) as [|s|t]; try (exfalso; apply N; exact I).
      eexists. reflexivity.
    + destruct (Query.order q) as [|s|t]; try (exfalso; apply N; exact I).
      destruct (or_string_method (Query.search q) _ _ _); eexists; reflexivity.
Qed.

Lemma getAllClients_answers_witness :
  (exists clients meta message,
     getAllClients Sample.db2
       (Query.make (Query.Str "0") (Query.Str "500") Query.Absent
          (Query.Str "name") (Query.Str "ASC"))
     = Json 200 (DClients clients meta) message
     /\ Listing.page meta = 1 /\ Listing.limit meta = 100)
  /\ status_of
       (getAllClients Sample.db2
          (Query.make Query.Absent Query.Absent (Query.Obj "a,b")
             Query.Absent Query.Absent))
     = 500.
Proof.
  split.
  - destruct (getAllClients_answers Sample.db2
                (Query.make (Query.Str "0") (Query.Str "500") Query.Absent
                   (Query.Str "name") (Query.Str "ASC")))
      as [H _].
    destruct H as (c & sorted & _ & _ & _ & H);
      [vm_compute; discriminate | exact I | exact I |].
    cbv zeta in H. eexists. eexists. eexists. split; [exact H|].
    split; reflexivity.
  - destruct (getAllClients_answers Sample.db2
                (Query.make Query.Absent Query.Absent (Query.Obj "a,b")
                   Query.Absent Query.Absent))
      as [_ H].
    destruct H as (details & ->); [|reflexivity].
    left. intro P. exact P.
Defined.

End GetAllClients.

(** ** Statistics, computed *)

Section StatsFacts.

Lemma min_created_spec (l : list SQLite.row) :
  match Client.min_created l with
  | None => l = []
  | Some o => (forall r, In r l -> o <= SQLite.created_at r)
              /\ exists r, In r l /\ SQLite.created_at r = o
  end.
Proof.
  induction l as [|x l IH]; [reflexivity|].
  unfold Client.min_created in *. cbn [fold_right].
  destruct (fold_right _ None l) as [o|].
  - destruct IH as [B (r & I & E)]. split.
    + intros y [<-|Iy]; [lia | specialize (B y Iy); lia].
    + destruct (Z.le_ge_cases (SQLite.created_at x) o) as [L|L].
      * exists x. split; [now left | lia].
      * exists r. split; [now right | lia].
  - subst l. split.
    + intros y [<-|[]]. lia.
    + exists x. split; [now left | reflexivity].
Qed.

Lemma max_created_spec (l : list SQLite.row) :
  match Client.max_created l with
  | None => l = []
  | Some n => (forall r, In r l -> SQLite.created_at r <= n)
              /\ exists r, In r l /\ SQLite.created_at r = n
  end.
Proof.
  induction l as [|x l IH]; [reflexivity|].
  unfold Client.max_created in *. cbn [fold_right].
  destruct (fold_right _ None l) as [o|].
  - destruct IH as [B (r & I & E)]. split.
    + intros y [<-|Iy]; [lia | specialize (B y Iy); lia].
    + destruct (Z.le_ge_cases (SQLite.created_at x) o) as [L|L].
      * exists r. split; [now right | lia].
      * exists x. split; [now left | lia].
  - subst l. split.
    + intros y [<-|[]]. lia.
    + exists x. split; [now left | reflexivity].
Qed.

Lemma filter_full {A : Type} (p : A -> bool) (l : list A) :
  List.length (filter p l) = List.length l -> forall x, In x l -> p x = true.
Proof.
  induction l as [|y l IH]; intros E x I; [destruct I|].
  cbn [filter List.length] in E. pose proof (filter_length_le p l) as Le.
  destruct (p y) eqn:P; cbn [List.length] in E; [|lia].
  destruct I as [<-|I]; [exact P|]. apply IH; [lia | exact I].
Qed.

(** X18.  The statistics of an empty table are a total of 0 and no oldest
    or newest time.  Otherwise the oldest and the newest time are the least
    and the greatest [created_at] of the table, each that of some record.
    The count of recent records never exceeds the total, and equals it
    exactly when every record was created within the last seven days. *)
Theorem getStats_counts (db : SQLite.database) (now : Z) :
  exists s,
    Client.getStats db now = Ok s
    /\ 0 <= Stats.recentlyAdded s <= Stats.total s
    /\ (Stats.recentlyAdded s = Stats.total s
        <-> forall r, In r (SQLite.rows db) ->
                      now - 7 * 86400 <= SQLite.created_at r)
    /\ (SQLite.rows db = [] ->
        Stats.total s = 0 /\ Stats.oldestCreated s = None
        /\ Stats.newestCreated s = None)
    /\ (SQLite.rows db <> [] ->
        exists o n a b,
          Stats.oldestCreated s = Some o /\ Stats.newestCreated s = Some n
          /\ In a (SQLite.rows db) /\ SQLite.created_at a = o
          /\ In b (SQLite.rows db) /\ SQLite.created_at b = n
          /\ forall r, In r (SQLite.rows db) ->
                       o <= SQLite.created_at r <= n).
Proof.
  eexists. split; [reflexivity|].
  cbn [Stats.total Stats.recentlyAdded Stats.oldestCreated Stats.newestCreated].
  set (recent := fun r => now - Client.seven_days <=? SQLite.created_at r).
  pose proof (filter_length_le recent (SQLite.rows db)) as Le.
  split; [unfold SQLite.count; lia|]. split; [|split].
  - unfold SQLite.count. split.
    + intros E r I. apply Nat2Z.inj in E.
      pose proof (filter_full recent _ E r I) as P.
      unfold recent, Client.seven_days in P. apply Z.leb_le in P. lia.
    + intro H. f_equal. f_equal. apply filter_all. intros r I.
      unfold recent, Client.seven_days. apply Z.leb_le. specialize (H r I). lia.
  - intros ->. repeat split.
  - intro NE. pose proof (min_created_spec (SQLite.rows db)) as Mi.
    pose proof (max_created_spec (SQLite.rows db)) as Ma.
    destruct (Client.min_created (SQLite.rows db)) as [o|]; [|contradiction].
    destruct (Client.max_created (SQLite.rows db)) as [n|]; [|contradiction].
    destruct Mi as [Bo (a & Ia & Ea)]. destruct Ma as [Bn (b & Ib & Eb)].
    exists o, n, a, b. repeat split; try assumption.
    + now apply Bo.
    + now apply Bn.
Qed.

Lemma getStats_counts_witness :
  exists s, Client.getStats Sample.db2 (200 + 7 * 86400) = Ok s
            /\ Stats.recentlyAdded s <> Stats.total s.
Proof.
  destruct (getStats_counts Sample.db2 (200 + 7 * 86400))
    as (s & E & _ & [H _] & _).
  exists s. split; [exact E|]. intro Q.
  specialize (H Q Sample.john_row (or_introl eq_refl)).
  vm_compute in H. now apply H.
Defined.

End StatsFacts.

(** ** Seeding *)

Section Seeding.

Import History Integrity.

Lemma email_taken_snoc (db : SQLite.database) (r : SQLite.row) (i : Z)
    (e : string) :
  email_taken (SQLite.mkDb (SQLite.rows db ++ [r]) i) e
  <-> email_taken db e \/ SQLite.email r = e.
Proof.
  unfold email_taken. cbn [SQLite.rows]. split.
  - intros (x & I & E). apply in_app_or in I. destruct I as [I|[<-|[]]].
    + left. now exists x.
    + now right.
  - intros [(x & I & E)|E].
    + exists x. split; [apply in_or_app; now left | exact E].
    + exists r. split; [apply in_or_app; right; now left | exact E].
Qed.

Lemma insertClient_fresh (db : SQLite.database) (now : Z) (c : Seed.sample) :
  ~ email_taken db (Seed.email c) ->
  let r := inserted db now (Seed.name c) (Seed.email c) (Seed.phone c) in
  Seed.insertClient db now c
  = (Ok (Some r), SQLite.mkDb (SQLite.rows db ++ [r]) (SQLite.id r)).
Proof.
  intros T r. unfold Seed.insertClient. rewrite insert_fresh by assumption.
  fold r. unfold r. now rewrite select_inserted.
Qed.

(** A sample whose email is taken is skipped: [null], nothing stored. *)
Lemma insertClient_taken (db : SQLite.database) (now : Z) (c : Seed.sample) :
  email_taken db (Seed.email c) ->
  Seed.insertClient db now c = (Ok None, db).
Proof.
  intro T. unfold Seed.insertClient. now rewrite insert_taken.
Qed.

(** The loop inserts every sample when the emails are new and distinct. *)
Lemma insert_each_fresh (clients : list Seed.sample) :
  forall (db : SQLite.database) (clock : nat -> Z) (k : nat),
    NoDup (map Seed.email clients) ->
    (forall c, In c clients -> ~ email_taken db (Seed.email c)) ->
    let out := Seed.insert_each clients db clock k in
    SQLite.rows (snd out) = (SQLite.rows db ++ fst out)%list
    /\ map sample_of (fst out) = clients
    /\ map SQLite.created_at (fst out)
       = map clock (List.seq k (List.length clients))
    /\ map SQLite.updated_at (fst out)
       = map clock (List.seq k (List.length clients))
    /\ SQLite.seq db <= SQLite.seq (snd out).
Proof.
  induction clients as [|c rest IH]; intros db clock k N F; cbv zeta.
  - cbn. rewrite app_nil_r. repeat split; reflexivity || lia.
  - cbn [Seed.insert_each].
    rewrite insertClient_fresh by (apply F; now left).
    set (r := inserted db (clock k) (Seed.name c) (Seed.email c) (Seed.phone c)).
    set (db1 := SQLite.mkDb (SQLite.rows db ++ [r]) (SQLite.id r)).
    cbn [map] in N. inversion N as [|? ? X N']; subst.
    assert (F1 : forall c', In c' rest -> ~ email_taken db1 (Seed.email c')).
    { intros c' I T. apply email_taken_snoc in T. destruct T as [T|T].
      - apply (F c'); [now right | exact T].
      - apply X. cbn [r inserted SQLite.email] in T. rewrite T.
        now apply in_map. }
    specialize (IH db1 clock (S k) N' F1). cbv zeta in IH.
    destruct (Seed.insert_each rest db1 clock (S k)) as [ins db2].
    cbn [fst snd] in *. destruct IH as (R & S & C & U & Q).
    split; [rewrite R; cbn [db1 SQLite.rows]; now rewrite <- app_assoc|].
    split; [cbn [map]; rewrite S; now destruct c|].
    split; [cbn [map List.length List.seq]; now rewrite C|].
    split; [cbn [map List.length List.seq]; now rewrite U|].
    cbn [db1 SQLite.seq r inserted SQLite.id] in Q. lia.
Qed.

Lemma sample_emails_distinct : NoDup (map Seed.email Seed.SAMPLE_CLIENTS).
Proof.
  assert (E : nodup string_dec (map Seed.email Seed.SAMPLE_CLIENTS)
              = map Seed.email Seed.SAMPLE_CLIENTS) by reflexivity.
  rewrite <- E. apply NoDup_nodup.
Qed.

Lemma seedDatabase_rows (db : SQLite.database) (clock : nat -> Z)
    (clearFirst : bool) :
  clearFirst = true \/ SQLite.rows db = [] ->
  let out := Seed.seedDatabase clearFirst db clock in
  SQLite.rows (snd out) = fst out
  /\ map sample_of (fst out) = Seed.SAMPLE_CLIENTS
  /\ map SQLite.created_at (fst out) = map clock (List.seq 0 10)
  /\ map SQLite.updated_at (fst out) = map clock (List.seq 0 10)
  /\ SQLite.seq db <= SQLite.seq (snd out).
Proof.
  intros H. cbv zeta. unfold Seed.seedDatabase.
  set (db1 := if clearFirst then Seed.delete_all db else db).
  assert (E : SQLite.rows db1 = [] /\ SQLite.seq db1 = SQLite.seq db).
  { unfold db1. destruct clearFirst; [now split|].
    destruct H as [H|H]; [discriminate H | now split]. }
  destruct E as [E Q]. rewrite E. cbn [SQLite.count List.length Z.of_nat].
  cbn [Z.ltb Z.compare andb].
  pose proof (insert_each_fresh Seed.SAMPLE_CLIENTS db1 clock 0
                sample_emails_distinct) as K.
  cbv zeta in K. rewrite E in K. cbn [app] in K. rewrite <- Q.
  apply K. intros c _ (x & I & _). rewrite E in I. destruct I.
Qed.

(** X19.  Seeding a table that holds records, without clearing it, inserts
    nothing and returns the empty list.  Seeding an empty table, or any
    table after clearing it, leaves exactly the ten samples, in their order
    and with their names, emails and phones as written, each stamped with
    the clock reading of its INSERT; the list returned is the stored rows,
    and the AUTOINCREMENT counter does not start over.  [insertClient] on a
    sample whose email a record carries answers [null] and stores nothing. *)
Theorem seedDatabase_fills (db : SQLite.database) (clock : nat -> Z) :
  (SQLite.rows db <> [] -> Seed.seedDatabase false db clock = ([], db))
  /\ (forall now c,
        email_taken db (Seed.email c) ->
        Seed.insertClient db now c = (Ok None, db))
  /\ (forall clearFirst,
        clearFirst = true \/ SQLite.rows db = [] ->
        let out := Seed.seedDatabase clearFirst db clock in
        SQLite.rows (snd out) = fst out
        /\ map sample_of (fst out) = Seed.SAMPLE_CLIENTS
        /\ map SQLite.created_at (fst out) = map clock (List.seq 0 10)
        /\ map SQLite.updated_at (fst out) = map clock (List.seq 0 10)
        /\ SQLite.seq db <= SQLite.seq (snd out)).
Proof.
  split.
  - intro NE. unfold Seed.seedDatabase. cbn [negb andb].
    destruct (SQLite.rows db) as [|x l] eqn:R; [contradiction|].
    rewrite andb_true_r.
    assert (P : (0 <? SQLite.count (x :: l)) = true).
    { apply Z.ltb_lt. unfold SQLite.count. cbn [List.length]. lia. }
    now rewrite P.
  - split; [intros now c T; now apply insertClient_taken|].
    intros clearFirst H. now apply seedDatabase_rows.
Qed.

Lemma seedDatabase_fills_witness :
  Seed.seedDatabase false Sample.db2 (fun k => 300 + Z.of_nat k)
  = ([], Sample.db2).
Proof.
  destruct (seedDatabase_fills Sample.db2 (fun k => 300 + Z.of_nat k)) as [H _].
  apply H. discriminate.
Defined.

Lemma occurrences_count_occ (db : SQLite.database) (e : string) :
  Seed.occurrences e db = Z.of_nat (count_occ string_dec (emails db) e).
Proof.
  unfold Seed.occurrences, SQLite.count, emails. f_equal.
  induction (SQLite.rows db) as [|x l IH]; [reflexivity|].
  cbn [filter map count_occ].
  destruct (string_dec (SQLite.email x) e) as [->|N].
  - rewrite String.eqb_refl. cbn [List.length]. now rewrite IH.
  - apply String.eqb_neq in N. now rewrite N.
Qed.

Lemma duplicateEmails_nil (db : SQLite.database) :
  Seed.duplicateEmails db = [] <-> NoDup (emails db).
Proof.
  rewrite (NoDup_count_occ string_dec). unfold Seed.duplicateEmails. split.
  - intros H e.
    destruct (in_dec string_dec e (emails db)) as [I|I].
    + assert (G : In (e, Seed.occurrences e db)
                     (map (fun e => (e, Seed.occurrences e db))
                        (nodup string_dec (map SQLite.email (SQLite.rows db))))).
      { apply in_map_iff. exists e. split; [reflexivity|].
        now apply nodup_In. }
      destruct (1 <? Seed.occurrences e db) eqn:L.
      * assert (B : In (e, Seed.occurrences e db) []).
        { rewrite <- H. apply filter_In. now split. }
        destruct B.
      * apply Z.ltb_ge in L. rewrite occurrences_count_occ in L. lia.
    + apply (count_occ_not_In string_dec) in I. lia.
  - intro H.
    destruct (filter _ _) as [|[e n] rest] eqn:F; [reflexivity|].
    assert (B : In (e, n) (filter (fun g : string * Z => 1 <? snd g)
                  (map (fun e => (e, Seed.occurrences e db))
                     (nodup string_dec (map SQLite.email (SQLite.rows db))))))
      by (rewrite F; now left).
    apply filter_In in B. destruct B as [B L]. cbn [snd] in L.
    apply in_map_iff in B. destruct B as (e' & Q & _). injection Q as -> <-.
    apply Z.ltb_lt in L. rewrite occurrences_count_occ in L.
    specialize (H e). lia.
Qed.

Lemma invalidClients_nil (db : SQLite.database) :
  Seed.invalidClients db = []
  <-> forall r, In r (SQLite.rows db) ->
                SQLite.name r <> "" /\ SQLite.email r <> "".
Proof.
  unfold Seed.invalidClients. split.
  - intros H r I.
    destruct ((SQLite.name r =? "")%string || (SQLite.email r =? "")%string) eqn:B.
    + assert (G : In r []) by (rewrite <- H; apply filter_In; now split).
      destruct G.
    + apply orb_false_iff in B. destruct B as [B1 B2].
      split; now apply String.eqb_neq.
  - intro H. destruct (filter _ _) as [|r rest] eqn:F; [reflexivity|].
    assert (G : In r (filter (fun r => (SQLite.name r =? "")%string
                                       || (SQLite.email r =? "")%string)
                             (SQLite.rows db))) by (rewrite F; now left).
    apply filter_In in G. destruct G as [I B]. destruct (H r I) as [N E].
    apply String.eqb_neq in N, E. rewrite N, E in B. discriminate B.
Qed.

(** X20.  [verifySeedData] reports a table valid exactly when no record has
    an empty name or email and no email occurs twice.  It does so for every
    table reachable by creates, updates and deletes, and for every table
    just seeded from empty or after clearing. *)
Theorem verifySeedData_accepts (db : SQLite.database) :
  (Seed.verifySeedData db = true
   <-> (forall r, In r (SQLite.rows db) ->
                  SQLite.name r <> "" /\ SQLite.email r <> "")
       /\ NoDup (emails db))
  /\ (forall t, reachable t db -> Seed.verifySeedData db = true)
  /\ (forall clock clearFirst,
        clearFirst = true \/ SQLite.rows db = [] ->
        Seed.verifySeedData (snd (Seed.seedDatabase clearFirst db clock)) = true).
Proof.
  assert (W : forall d,
             Seed.verifySeedData d = true
             <-> (forall r, In r (SQLite.rows d) ->
                            SQLite.name r <> "" /\ SQLite.email r <> "")
                 /\ NoDup (emails d)).
  { intro d.
    assert (V : Seed.verifySeedData d = true
                <-> Seed.invalidClients d = [] /\ Seed.duplicateEmails d = []).
    { unfold Seed.verifySeedData.
      destruct (Seed.invalidClients d) as [|x l];
        destruct (Seed.duplicateEmails d) as [|y m]; cbn; split;
        try discriminate; try (intros [A B]; discriminate A || discriminate B);
        auto. }
    now rewrite invalidClients_nil, duplicateEmails_nil in V. }
  split; [apply W|]. split.
  - intros t R. apply W. split.
    + intros r I. destruct (reachable_ok t db R) as [_ F].
      rewrite Forall_forall in F. destruct (F r I) as (_ & _ & _ & N & E).
      now split.
    + now destruct (reachable_keys t db R) as (_ & Ne & _).
  - intros clock clearFirst H.
    destruct (seedDatabase_rows db clock clearFirst H) as (R & S & _).
    apply W. rewrite R.
    set (ins := fst (Seed.seedDatabase clearFirst db clock)) in *.
    assert (Sm : forall r, In r ins -> In (sample_of r) Seed.SAMPLE_CLIENTS).
    { intros r I. rewrite <- S. now apply in_map. }
    split.
    + intros r I. specialize (Sm r I).
      assert (A : Forall (fun c => Seed.name c <> "" /\ Seed.email c <> "")
                         Seed.SAMPLE_CLIENTS)
        by (repeat constructor; discriminate).
      rewrite Forall_forall in A. apply (A _ Sm).
    + unfold emails. rewrite R. fold ins.
      replace (map SQLite.email ins) with (map Seed.email (map sample_of ins))
        by (rewrite map_map; reflexivity).
      rewrite S. apply sample_emails_distinct.
Qed.

Lemma verifySeedData_accepts_witness : Seed.verifySeedData Sample.db2 = true.
Proof.
  destruct (verifySeedData_accepts Sample.db2) as (_ & H & _).
  apply (H 200 sample_db2_reachable).
Defined.

End Seeding.

(** ** Updating a record with its own email *)

Section OwnEmail.

Import JS History Integrity.

(** X21.  In a reachable table, an update that gives a record its own email
    again, in whatever case and with whatever surrounding white space, is not
    a duplicate: it succeeds, the email, the name and the phone stay as they
    were, and [updated_at] is the time of the UPDATE. *)
Theorem update_with_own_email (t : Z) (db : SQLite.database) (now n : Z)
    (old : SQLite.row) (v : jsval) :
  reachable t db ->
  SQLite.select_by_id db n = Some old ->
  normalized v = SQLite.email old ->
  exists r db',
    Client.update db now (JNum n) (Data.make JUndefined v JUndefined)
    = (Ok (Some r), db')
    /\ SQLite.email r = SQLite.email old
    /\ SQLite.name r = SQLite.name old
    /\ SQLite.phone r = SQLite.phone old
    /\ SQLite.created_at r = SQLite.created_at old
    /\ SQLite.updated_at r = now.
Proof.
  intros R S E.
  destruct (select_by_id_id db n old S) as [I Ei].
  destruct (reachable_ok t db R) as [_ F]. rewrite Forall_forall in F.
  destruct (F old I) as (P & _ & _ & _ & Ne).
  destruct (reachable_keys t db R) as (_ & Nd & _).
  assert (Va : row_valid old).
  { pose proof (reachable_valid t db R) as Fv.
    rewrite Forall_forall in Fv. now apply Fv. }
  destruct Va as (_ & (Ve & Le & _) & _).
  assert (Pn : 0 < n) by lia.
  assert (Vm : Client.validate_email v false = Ok (Some (SQLite.email old))).
  { unfold Client.validate_email. fold (normalized v). rewrite E.
    destruct (Client.is_undefined v) eqn:Un.
    { exfalso. apply Ne. rewrite <- E. unfold normalized.
      now rewrite (or_empty_undefined v Un). }
    cbn [negb andb].
    assert (X : Client.nonempty (SQLite.email old) = true).
    { unfold Client.nonempty. now apply negb_true_iff, String.eqb_neq. }
    rewrite X, Ve. cbn [negb andb].
    assert (L : (100 <? String.length (SQLite.email old))%nat = false)
      by (now apply Nat.ltb_ge).
    now rewrite L. }
  assert (V : Client._validateClientData (Data.make JUndefined v JUndefined) false
              = Ok (Validated.make None (Some (SQLite.email old)) None)).
  { unfold Client._validateClientData. cbn [Data.name Data.email Data.phone].
    rewrite Vm. reflexivity. }
  assert (D : Client.differs (Some (SQLite.email old)) (SQLite.email old) = false).
  { unfold Client.differs. rewrite String.eqb_refl. apply andb_false_r. }
  destruct (update_present db now
              (Client.updateFields (Validated.make None (Some (SQLite.email old)) None))
              n old S) as [Th|(d' & Up & G)].
  - exfalso. unfold SQLite.update in Th. rewrite S in Th.
    cbn [Client.updateFields SQLite.set_email Validated.email] in Th.
    destruct (existsb _ _) eqn:X; [|discriminate Th].
    apply existsb_exists in X. destruct X as (x & Ix & B).
    apply andb_true_iff in B. destruct B as [B1 B2].
    apply String.eqb_eq in B1. apply negb_true_iff, Z.eqb_neq in B2.
    apply B2. rewrite <- Ei. f_equal.
    now apply (NoDup_map_injective SQLite.email (SQLite.rows db)).
  - eexists. exists d'. split.
    + unfold Client.update, Client.update_racing.
      rewrite (_validateId_Num n Pn). cbn [bind].
      rewrite (findById_Num db n Pn), S. cbn [bind]. rewrite V. cbn [bind].
      cbn [Validated.email]. rewrite D. cbn [bind].
      cbn [Client.no_fields Client.updateFields SQLite.set_name SQLite.set_email
           SQLite.set_phone Validated.name Validated.email Validated.phone].
      cbn [Client.updateFields Validated.name Validated.email Validated.phone]
        in Up.
      rewrite Up, (findById_Num d' n Pn), G. reflexivity.
    + repeat split.
Qed.

Lemma update_with_own_email_witness :
  exists r db',
    Client.update Sample.db2 300 (JNum 1)
      (Data.make JUndefined (JStr " John@Ex.COM ") JUndefined)
    = (Ok (Some r), db')
    /\ SQLite.email r = "john@ex.com".
Proof.
  destruct (update_with_own_email 200 Sample.db2 300 1 Sample.john_row
              (JStr " John@Ex.COM ") sample_db2_reachable eq_refl eq_refl)
    as (r & db' & E & M & _).
  exists r, db'. split; [exact E | exact M].
Defined.

End OwnEmail.

(** ** The embedding with doubles, within the safe range *)

Section Doubles.

Import JS Controller.

Lemma round_magnitude_small (a : Z) :
  a < 2 ^ 53 -> Number.round_magnitude a = Some a.
Proof.
  intro H. unfold Number.round_magnitude.
  destruct (a <? 2 ^ 53) eqn:E; [reflexivity | apply Z.ltb_ge in E; lia].
Qed.

Lemma round_magnitude_large (a v : Z) :
  2 ^ 53 <= a -> Number.round_magnitude a = Some v -> 2 ^ 53 <= v.
Proof.
  intros H. unfold Number.round_magnitude.
  destruct (a <? 2 ^ 53) eqn:E; [apply Z.ltb_lt in E; lia|].
  cbv zeta.
  set (e := Z.log2 a - 52).
  set (q := Z.shiftr a e).
  set (b := (_ || _)%bool).
  set (q' := if b then q + 1 else q).
  destruct (2 ^ 1024 <=? Z.shiftl q' e); [discriminate|].
  intro V. injection V as <-.
  assert (A0 : 0 < a) by lia.
  pose proof (Z.log2_spec a A0) as [L1 L2].
  assert (L53 : 53 <= Z.log2 a) by (apply Z.log2_le_pow2; lia).
  assert (E0 : 0 <= e) by (unfold e; lia).
  rewrite Z.shiftl_mul_pow2 by exact E0.
  assert (Q : 2 ^ 52 <= q).
  { unfold q. rewrite Z.shiftr_div_pow2 by exact E0.
    apply Z.div_le_lower_bound; [apply Z.pow_pos_nonneg; lia|].
    rewrite <- Z.pow_add_r by lia. replace (e + 52) with (Z.log2 a) by (unfold e; lia).
    exact L1. }
  assert (Q' : q <= q') by (unfold q'; destruct b; lia).
  assert (P : 0 < 2 ^ e) by (apply Z.pow_pos_nonneg; lia).
  assert (2 ^ 53 <= 2 ^ 52 * 2 ^ e).
  { rewrite <- Z.pow_add_r by lia. apply Z.pow_le_mono_r; lia. }
  nia.
Qed.

(** Up to [MAX_SAFE_INTEGER] an integer is its own Number. *)
Lemma of_Z_safe (z : Z) :
  Z.abs z <= JS.MAX_SAFE_INTEGER -> Number.of_Z z = Number.Finite z.
Proof.
  intro H. unfold Number.of_Z.
  rewrite round_magnitude_small by (unfold JS.MAX_SAFE_INTEGER in H; lia).
  f_equal. lia.
Qed.

(** A positive integer rounds to a positive Number or to [Infinity]. *)
Lemma of_Z_positive (z : Z) :
  0 < z ->
  (exists v, 0 < v /\ Number.of_Z z = Number.Finite v)
  \/ Number.of_Z z = Number.Infinity false.
Proof.
  intro H. unfold Number.of_Z.
  destruct (Number.round_magnitude (Z.abs z)) as [v|] eqn:R.
  - left. exists (Z.sgn z * v). split; [|reflexivity].
    destruct (Z.lt_ge_cases (Z.abs z) (2 ^ 53)) as [S|L].
    + rewrite round_magnitude_small in R by exact S. injection R as <-. lia.
    + pose proof (round_magnitude_large _ _ L R). lia.
  - right. f_equal. apply Z.ltb_ge. lia.
Qed.

Lemma of_Z_not_positive (z : Z) :
  z <= 0 ->
  Number.isNaN (Number.of_Z z) || Number.leb (Number.of_Z z) (Number.Finite 0)
  = true.
Proof.
  intro H. unfold Number.of_Z.
  destruct (Number.round_magnitude (Z.abs z)) as [v|] eqn:R.
  - cbn [Number.isNaN Number.leb orb]. apply Z.leb_le.
    destruct (Z.lt_ge_cases (Z.abs z) (2 ^ 53)) as [S|L].
    + rewrite round_magnitude_small in R by exact S. injection R as <-. lia.
    + pose proof (round_magnitude_large _ _ L R). lia.
  - cbn [Number.isNaN Number.leb orb].
    destruct (Z.lt_ge_cases (Z.abs z) (2 ^ 53)) as [S|L].
    + rewrite round_magnitude_small in R by exact S. discriminate R.
    + apply Z.ltb_lt. lia.
Qed.

Lemma reads_as_safe (x c : Z) :
  0 <= x <= JS.MAX_SAFE_INTEGER -> 0 <= c ->
  Number.reads_as x c = true -> c = x.
Proof.
  intros Hx Hc. unfold Number.reads_as, Number.of_Z.
  destruct (Number.round_magnitude (Z.abs c)) as [v|] eqn:R; [|discriminate].
  intro E. apply Z.eqb_eq in E.
  destruct (Z.lt_ge_cases (Z.abs c) (2 ^ 53)) as [S|L].
  - rewrite round_magnitude_small in R by exact S. injection R as <-. lia.
  - pose proof (round_magnitude_large _ _ L R).
    unfold JS.MAX_SAFE_INTEGER in Hx. lia.
Qed.

Lemma shortest_from_safe (fuel : nat) (k n x : Z) :
  0 <= x <= JS.MAX_SAFE_INTEGER -> Number.shortest_from fuel k n x = x.
Proof.
  intro Hx. revert k. induction fuel as [|fuel IH]; intro k; [reflexivity|].
  cbn [Number.shortest_from]. cbv zeta.
  set (scale := 10 ^ (n - k)).
  assert (S0 : 0 <= scale) by (apply Z.pow_nonneg; lia).
  assert (Lo : 0 <= x / scale * scale).
  { destruct (Z.eq_dec scale 0) as [->|N]; [rewrite Z.mul_0_r; lia|].
    apply Z.mul_nonneg_nonneg; [apply Z.div_pos; lia | lia]. }
  destruct (Number.reads_as x (x / scale * scale)) eqn:A;
    destruct (Number.reads_as x (x / scale * scale + scale)) eqn:B.
  - apply reads_as_safe in A; [|exact Hx|exact Lo].
    apply reads_as_safe in B; [|exact Hx|lia].
    destruct (_ || _); [exact A | exact B].
  - apply reads_as_safe in A; [exact A|exact Hx|exact Lo].
  - apply reads_as_safe in B; [exact B|exact Hx|lia].
  - apply IH.
Qed.

(** Up to [MAX_SAFE_INTEGER] a Number is printed digit by digit. *)
Lemma toString_safe (z : Z) :
  Z.abs z <= JS.MAX_SAFE_INTEGER ->
  Number.toString (Number.Finite z) = JS.Number_toString z.
Proof.
  intro H. unfold Number.toString, Number.shortest. cbv zeta.
  rewrite shortest_from_safe by lia.
  assert (M : JS.MAX_SAFE_INTEGER < 10 ^ 21) by (vm_compute; reflexivity).
  destruct (Z.abs z <? 10 ^ 21) eqn:E; [|apply Z.ltb_ge in E; lia].
  destruct z as [|p|p]; try reflexivity.
Qed.

Lemma round_magnitude_upper (a : Z) :
  2 ^ 53 <= a < 2 ^ 1000 ->
  exists v, Number.round_magnitude a = Some v /\ v <= 2 * a.
Proof.
  intros [H U]. unfold Number.round_magnitude.
  destruct (a <? 2 ^ 53) eqn:E; [apply Z.ltb_lt in E; lia|].
  cbv zeta.
  set (e := Z.log2 a - 52).
  set (q := Z.shiftr a e).
  set (b := (_ || _)%bool).
  set (q' := if b then q + 1 else q).
  assert (A0 : 0 < a) by lia.
  pose proof (Z.log2_spec a A0) as [L1 L2].
  assert (L53 : 53 <= Z.log2 a) by (apply Z.log2_le_pow2; lia).
  assert (E0 : 0 <= e) by (unfold e; lia).
  assert (P : 0 < 2 ^ e) by (apply Z.pow_pos_nonneg; lia).
  assert (Pe : 2 ^ e <= a).
  { apply Z.le_trans with (2 ^ Z.log2 a); [|exact L1].
    apply Z.pow_le_mono_r; unfold e; lia. }
  assert (Q : q * 2 ^ e <= a).
  { unfold q. rewrite Z.shiftr_div_pow2 by exact E0.
    rewrite Z.mul_comm. apply Z.mul_div_le. exact P. }
  assert (Q' : q' <= q + 1) by (unfold q'; destruct b; lia).
  assert (V : Z.shiftl q' e <= 2 * a).
  { rewrite Z.shiftl_mul_pow2 by exact E0. nia. }
  assert (W : 2 * a < 2 ^ 1024).
  { apply Z.lt_le_trans with (2 ^ 1001).
    - change (2 ^ 1001) with (2 * 2 ^ 1000). lia.
    - apply Z.pow_le_mono_r; lia. }
  destruct (2 ^ 1024 <=? Z.shiftl q' e) eqn:O.
  - apply Z.leb_le in O. lia.
  - eexists. split; [reflexivity | exact V].
Qed.

Lemma Double_parseInt_Num (n : Z) :
  0 < n <= MAX_SAFE_INTEGER ->
  Double.parseInt (Double.Num (Number.Finite n)) = Number.Finite n.
Proof.
  intro H. unfold Double.parseInt, Double.toString, Number.parseInt.
  rewrite toString_safe by lia.
  change (parseInt_string (Number_toString n)) with (parseInt (JNum n)).
  rewrite parseInt_Number by lia. apply of_Z_safe. lia.
Qed.

Lemma Double_validateIdParameter_Throw (id : string) :
  (forall n, parseInt_string id = Some n -> n <= 0) ->
  Double.validateIdParameter id = Throw invalid_id_message.
Proof.
  intro H. unfold Double.validateIdParameter, Number.parseInt. cbv zeta.
  destruct (parseInt_string id) as [n|]; [|reflexivity].
  now rewrite (of_Z_not_positive n (H n eq_refl)).
Qed.

Lemma Double_validateIdParameter_Ok (id : string) (n : Z) :
  parseInt_string id = Some n -> 0 < n ->
  Double.validateIdParameter id = Ok (Number.of_Z n)
  /\ ((exists v, 0 < v /\ Number.of_Z n = Number.Finite v)
      \/ Number.of_Z n = Number.Infinity false).
Proof.
  intros P H. unfold Double.validateIdParameter, Number.parseInt. cbv zeta.
  rewrite P. pose proof (of_Z_positive n H) as C. split; [|exact C].
  destruct C as [(v & V & ->)| ->]; cbn [Number.isNaN Number.leb orb];
    [|reflexivity].
  destruct (v <=? 0) eqn:E; [apply Z.leb_le in E; lia | reflexivity].
Qed.

(** [findById] never throws: an id [_validateId] refuses is answered [null]. *)
Lemma Double_findById_total (db : SQLite.database) (id : Double.value) :
  exists r, Double.findById db id = Ok r.
Proof.
  unfold Double.findById, Double._validateId. cbv zeta.
  destruct (_ || _); eexists; reflexivity.
Qed.

Lemma Double_findById_Num (db : SQLite.database) (n : Z) :
  0 < n <= MAX_SAFE_INTEGER ->
  Double.findById db (Double.Num (Number.Finite n))
  = Ok (SQLite.select_by_id db n).
Proof.
  intro H. unfold Double.findById, Double._validateId. cbv zeta.
  rewrite (Double_parseInt_Num n H). cbn [Number.isNaN Number.leb orb].
  destruct (n <=? 0) eqn:E; [apply Z.leb_le in E; lia | reflexivity].
Qed.

(** X22.  GET /clients/:id, computed with doubles.  It is answered 400
    exactly when [parseInt] reads no positive integer from the parameter,
    however large the number read; a parameter read as a positive integer is
    answered 200 or 404.  When the integer read is at most
    [MAX_SAFE_INTEGER] the answer is 200 with the record of that id, or 404
    naming the id when no record has it: the answer the embedding with exact
    integers gives. *)
Theorem getClientById_over_doubles (db : SQLite.database) (id : string) :
  (status_of (Double.getClientById db id) = 400
   <-> forall n, parseInt_string id = Some n -> n <= 0)
  /\ ((forall n, parseInt_string id = Some n -> n <= 0) ->
      Double.getClientById db id
      = Next 400 "VALIDATION_ERROR" "Invalid client ID" invalid_id_message)
  /\ (forall n, parseInt_string id = Some n -> 0 < n ->
        In (status_of (Double.getClientById db id)) [200; 404])
  /\ (forall n, parseInt_string id = Some n -> 0 < n <= MAX_SAFE_INTEGER ->
        Double.getClientById db id
        = match SQLite.select_by_id db n with
          | Some client =>
              Json 200 (DClient (Some client)) "Client retrieved successfully"
          | None =>
              Next 404 "NOT_FOUND" "Client not found"
                ("No client found with ID " ++ Number_toString n)
          end
        /\ Double.getClientById db id = getClientById db id).
Proof.
  assert (I : (forall n, parseInt_string id = Some n -> n <= 0) ->
              Double.getClientById db id
              = Next 400 "VALIDATION_ERROR" "Invalid client ID" invalid_id_message).
  { intro H. unfold Double.getClientById.
    rewrite (Double_validateIdParameter_Throw id H). reflexivity. }
  assert (V : forall n, parseInt_string id = Some n -> 0 < n ->
              In (status_of (Double.getClientById db id)) [200; 404]).
  { intros n P H. unfold Double.getClientById.
    destruct (Double_validateIdParameter_Ok id n P H) as [-> _]. cbn [bind].
    destruct (Double_findById_total db (Double.Num (Number.of_Z n))) as [r ->].
    cbn [bind]. destruct r; cbn; auto. }
  split; [|split; [exact I|split; [exact V|]]].
  - split.
    + intros S n P. destruct (Z.leb_spec n 0) as [L|L]; [exact L|].
      specialize (V n P L). rewrite S in V. cbn in V.
      destruct V as [V|[V|[]]]; discriminate V.
    + intro H. now rewrite (I H).
  - intros n P H.
    assert (E : Double.getClientById db id
                = match SQLite.select_by_id db n with
                  | Some client =>
                      Json 200 (DClient (Some client)) "Client retrieved successfully"
                  | None =>
                      Next 404 "NOT_FOUND" "Client not found"
                        ("No client found with ID " ++ Number_toString n)
                  end).
    { unfold Double.getClientById.
      destruct (Double_validateIdParameter_Ok id n P ltac:(lia)) as [-> _].
      rewrite (of_Z_safe n) by lia. cbn [bind].
      rewrite (Double_findById_Num db n H). cbn [bind].
      rewrite toString_safe by lia.
      destruct (SQLite.select_by_id db n); reflexivity. }
    split; [exact E|]. rewrite E. symmetry.
    apply getClientById_valid; [exact P | lia].
Qed.

Lemma getClientById_over_doubles_witness :
  Double.getClientById Sample.db2 "2"
  = Json 200 (DClient (Some Sample.jane_row)) "Client retrieved successfully"
  /\ In (status_of
           (Double.getClientById Sample.db2 "99999999999999999999999999"))
        [200; 404].
Proof.
  split.
  - destruct (getClientById_over_doubles Sample.db2 "2") as (_ & _ & _ & H).
    destruct (H 2 eq_refl) as [E _];
      [vm_compute; split; [reflexivity | discriminate]|].
    exact E.
  - destruct (getClientById_over_doubles Sample.db2
                "99999999999999999999999999") as (_ & _ & H & _).
    apply (H 99999999999999999999999999 eq_refl). reflexivity.
Defined.

(** Below [2^46] rows the rounding of [total / limit] does not show in the
    ceiling. *)
Lemma ceil_positive_exact (t l : Z) :
  0 <= t < 2 ^ 46 -> 1 <= l <= 100 ->
  Number.ceil_positive t l = Client.ceil_div t l.
Proof.
  intros Ht Hl. unfold Number.ceil_positive.
  destruct (t =? 0) eqn:T0.
  { apply Z.eqb_eq in T0. subst t. unfold Client.ceil_div.
    rewrite Z.div_small; lia. }
  apply Z.eqb_neq in T0.
  pose proof (ceil_div_covers t l ltac:(lia) ltac:(lia)) as Cov.
  destruct (ceil_div_least t l ltac:(lia) ltac:(lia)) as [Least|[Z0 _]]; [|lia].
  set (C := Client.ceil_div t l) in *.
  destruct (t <? l) eqn:TL.
  { apply Z.ltb_lt in TL. nia. }
  apply Z.ltb_ge in TL.
  unfold Number.rounded_quotient. cbv zeta.
  set (k := t / l).
  assert (K1 : 1 <= k) by (unfold k; apply Z.div_le_lower_bound; lia).
  assert (K2 : k < 2 ^ 46).
  { unfold k. apply Z.le_lt_trans with t; [|lia].
    apply Z.div_le_upper_bound; [lia|]. nia. }
  assert (L0 : 0 <= Z.log2 k) by apply Z.log2_nonneg.
  assert (L1 : Z.log2 k < 46) by (apply Z.log2_lt_pow2; lia).
  set (e := Z.log2 k - 52).
  destruct (0 <=? e) eqn:E; [apply Z.leb_le in E; unfold e in E; lia|].
  set (P := 2 ^ (- e)).
  assert (HP : 128 <= P).
  { unfold P. change 128 with (2 ^ 7). apply Z.pow_le_mono_r; unfold e; lia. }
  set (n := t * P).
  pose proof (Z.div_mod n l ltac:(lia)) as D.
  pose proof (Z.mod_pos_bound n l ltac:(lia)) as B.
  set (m := n / l) in *. set (r := n mod l) in *.
  set (b := (_ || _)%bool).
  assert (Hb : b = true -> 1 <= r).
  { unfold b. intro X. apply orb_true_iff in X. destruct X as [X|X].
    - apply Z.ltb_lt in X. lia.
    - apply andb_true_iff in X. destruct X as [X _]. apply Z.eqb_eq in X. lia. }
  set (m' := if b then m + 1 else m).
  assert (Up : m' <= C * P).
  { unfold m'. destruct b.
    - specialize (Hb eq_refl). unfold n in D. nia.
    - unfold n in D. nia. }
  assert (Lo : (C - 1) * P < m').
  { assert (m <= m') by (unfold m'; destruct b; lia).
    unfold n in D. nia. }
  assert (Q : (- m') / P = - C).
  { symmetry. apply (Z.div_unique_pos (- m') P (- C) (C * P - m')); lia. }
  rewrite Q. lia.
Qed.

Lemma Number_max_1 (p : Z) :
  1 <= p -> Number.max (Number.Finite 1) (Number.Finite p) = Number.Finite p.
Proof.
  intro H. unfold Number.max, Number.ltb.
  destruct (1 <? p) eqn:E; [reflexivity|].
  apply Z.ltb_ge in E. f_equal. lia.
Qed.

Lemma Number_min_100 (l : Z) :
  l <= 100 -> Number.min (Number.Finite 100) (Number.Finite l) = Number.Finite l.
Proof.
  intro H. unfold Number.min, Number.ltb.
  destruct (l <? 100) eqn:E; [reflexivity|].
  apply Z.ltb_ge in E. f_equal. lia.
Qed.

Lemma Number_or_else_nonzero (p d : Z) :
  p <> 0 -> Number.or_else (Number.Finite p) d = Number.Finite p.
Proof.
  intro H. unfold Number.or_else.
  destruct (p =? 0) eqn:E; [apply Z.eqb_eq in E; contradiction | reflexivity].
Qed.

(** The offset of a page in range is bound as an integer, and is the exact
    offset or, like it, beyond every row. *)
Lemma offset_in_range (p l count : Z) :
  1 <= p <= MAX_SAFE_INTEGER -> 1 <= l <= 100 -> count <= MAX_SAFE_INTEGER ->
  exists v,
    Double.must_be_int
      (Number.mul (Number.sub (Number.Finite p) (Number.Finite 1))
         (Number.Finite l)) = Ok v
    /\ (v = (p - 1) * l \/ (count <= v /\ count <= (p - 1) * l)).
Proof.
  unfold MAX_SAFE_INTEGER. intros Hp Hl Hc.
  cbn [Number.sub]. rewrite (of_Z_safe (p - 1)) by (unfold MAX_SAFE_INTEGER; lia).
  cbn [Number.mul].
  destruct (Z.lt_ge_cases ((p - 1) * l) (2 ^ 53)) as [S|L].
  - rewrite of_Z_safe by (unfold MAX_SAFE_INTEGER; nia).
    exists ((p - 1) * l). split; [|now left].
    unfold Double.must_be_int.
    destruct (- (2 ^ 63) <? (p - 1) * l) eqn:A; [|apply Z.ltb_ge in A; nia].
    destruct ((p - 1) * l <? 2 ^ 63) eqn:B; [reflexivity|apply Z.ltb_ge in B; lia].
  - assert (U : (p - 1) * l < 2 ^ 61).
    { change (2 ^ 61) with (2 ^ 53 * 256). nia. }
    destruct (round_magnitude_upper ((p - 1) * l)) as (v & R & V).
    { split; [exact L|]. apply Z.lt_le_trans with (2 ^ 61); [exact U|].
      apply Z.pow_le_mono_r; lia. }
    pose proof (round_magnitude_large _ _ L R) as W.
    exists v. unfold Number.of_Z.
    rewrite Z.abs_eq by lia. rewrite R.
    replace (Z.sgn ((p - 1) * l)) with 1 by lia. rewrite Z.mul_1_l.
    split; [|right; lia].
    unfold Double.must_be_int.
    assert (V63 : v < 2 ^ 63).
    { change (2 ^ 63) with (2 ^ 61 * 4). lia. }
    destruct (- (2 ^ 63) <? v) eqn:A; [|apply Z.ltb_ge in A; lia].
    destruct (v <? 2 ^ 63) eqn:B; [reflexivity|apply Z.ltb_ge in B; lia].
Qed.

Lemma skipn_beyond (count v : Z) (sorted : list SQLite.row) :
  SQLite.count sorted <= count -> count <= v ->
  skipn (Z.to_nat v) sorted = [].
Proof.
  intros H1 H2. apply skipn_all2. unfold SQLite.count in H1. lia.
Qed.

(** X23.  [findAll], computed with doubles, on a page number between 1 and
    [MAX_SAFE_INTEGER] and a page size between 1 and 100, for a table of
    fewer than [2^46] rows.  It succeeds, with the listing that exact
    integer arithmetic gives: the rows the search keeps, in an order sorted
    by the validated column, cut at offset [(page - 1) * limit]; [totalPages]
    is the least number of pages that hold them, a page beyond the last is
    the empty list and every page up to the last has a record. *)
Theorem findAll_over_doubles (db : SQLite.database) (p l : Z)
    (search sortBy order : option string) :
  1 <= p <= MAX_SAFE_INTEGER -> 1 <= l <= 100 ->
  SQLite.count (SQLite.rows db) < 2 ^ 46 ->
  exists c sorted,
    SQLite.column_of_name
      (Client._validateSortField (Client.or_string sortBy "created_at"))
    = Some c
    /\ Permutation (matching db search) sorted
    /\ Sorted (fun a b => SQLite.before c (sort_direction order) a b = true)
         sorted
    /\ let total := SQLite.count sorted in
       let totalPages := Client.ceil_div total l in
       let clients := page_slice p l sorted in
       Double.findAll db
         (Double.Options.make (Double.Num (Number.Finite p))
            (Double.Num (Number.Finite l)) search sortBy order)
       = Ok (Double.Listing.make clients total (Number.Finite p)
               (Number.Finite l) (Number.Finite totalPages)
               (p <? totalPages) (1 <? p))
       /\ Client.findAll db (Options.make (JNum p) (JNum l) search sortBy order)
          = Ok (Listing.make clients total p l totalPages
                  (p <? totalPages) (1 <? p))
       /\ (totalPages - 1) * l < total <= totalPages * l
       /\ (totalPages < p -> clients = [])
       /\ (p <= totalPages -> clients <> []).
Proof.
  intros Hp Hl Hc.
  assert (M100 : 100 <= MAX_SAFE_INTEGER) by (vm_compute; discriminate).
  destruct (findAll_unfold db (Options.make (JNum p) (JNum l) search sortBy order))
    as (c & C & E).
  cbv zeta in E.
  cbn [Options.page Options.limit Options.search Options.sortBy Options.order]
    in E, C.
  rewrite !parseInt_Number in E by lia.
  assert (Np : number_or (Some p) 1 = p).
  { unfold number_or. destruct (p =? 0) eqn:Z0; [apply Z.eqb_eq in Z0; lia|reflexivity]. }
  assert (Nl : number_or (Some l) 10 = l).
  { unfold number_or. destruct (l =? 0) eqn:Z0; [apply Z.eqb_eq in Z0; lia|reflexivity]. }
  rewrite Np, Nl in E.
  replace (Z.max 1 p) with p in E by lia.
  replace (Z.min 100 (Z.max 1 l)) with l in E by lia.
  set (rows := matching db search) in *.
  set (dir := sort_direction order) in *.
  set (sorted := SQLite.order_by c dir rows) in *.
  assert (Len : SQLite.count sorted = SQLite.count rows).
  { unfold sorted, SQLite.count. now rewrite order_by_length. }
  assert (T0 : 0 <= SQLite.count rows) by (unfold SQLite.count; lia).
  assert (T2 : SQLite.count rows < 2 ^ 46).
  { apply Z.le_lt_trans with (SQLite.count (SQLite.rows db)); [|exact Hc].
    unfold rows, matching, SQLite.count.
    pose proof (filter_length_le
                  (SQLite.where_clause (search_pattern search)) (SQLite.rows db)).
    lia. }
  assert (T1 : SQLite.count rows <= MAX_SAFE_INTEGER).
  { apply Z.le_trans with (2 ^ 46); [lia | vm_compute; discriminate]. }
  pose proof (ceil_div_covers (SQLite.count rows) l T0 ltac:(lia)) as Cov.
  pose proof (ceil_div_least (SQLite.count rows) l T0 ltac:(lia)) as Least.
  exists c, sorted. split; [exact C|]. split; [apply order_by_perm|].
  split; [apply order_by_sorted|]. cbv zeta. rewrite Len.
  split; [|split; [exact E|split; [|split]]].
  - unfold Double.findAll.
    cbn [Double.Options.page Double.Options.limit Double.Options.search
         Double.Options.sortBy Double.Options.order].
    rewrite (Double_parseInt_Num p) by lia.
    rewrite (Double_parseInt_Num l) by lia.
    rewrite !Number_or_else_nonzero by lia.
    rewrite Number_max_1 by lia. rewrite Number_max_1 by lia.
    rewrite Number_min_100 by lia.
    fold (search_pattern search).
    unfold Double.select_page. rewrite C.
    destruct (offset_in_range p l (SQLite.count rows) Hp Hl T1) as (v & -> & O).
    assert (Ml : Double.must_be_int (Number.Finite l) = Ok l).
    { unfold Double.must_be_int.
      destruct (- (2 ^ 63) <? l) eqn:A; [|apply Z.ltb_ge in A; lia].
      destruct (l <? 2 ^ 63) eqn:B; [reflexivity|apply Z.ltb_ge in B; lia]. }
    rewrite Ml. cbn [bind]. unfold SQLite.select_page. rewrite C.
    cbn [bind try_catch]. unfold SQLite.select_count.
    fold (matching db search). fold rows.
    cbn [Number.ceil_quotient].
    destruct (l =? 0) eqn:L0; [apply Z.eqb_eq in L0; lia|].
    replace ((0 <=? SQLite.count rows) && (0 <? l)
             || (SQLite.count rows <=? 0) && (l <? 0)) with true
      by (symmetry; apply orb_true_iff; left; apply andb_true_iff;
          split; [apply Z.leb_le | apply Z.ltb_lt]; lia).
    rewrite !Z.abs_eq by lia.
    rewrite ceil_positive_exact by lia.
    cbn [Number.ltb].
    f_equal. f_equal. unfold page_slice, SQLite.nat_of.
    change (firstn (Z.to_nat l) (skipn (Z.to_nat v) sorted)
            = firstn (Z.to_nat l) (skipn (Z.to_nat ((p - 1) * l)) sorted)).
    destruct O as [->|[O1 O2]]; [reflexivity|].
    rewrite (skipn_beyond (SQLite.count rows) v sorted) by lia.
    rewrite (skipn_beyond (SQLite.count rows) ((p - 1) * l) sorted) by lia.
    reflexivity.
  - split; [|exact Cov].
    destruct Least as [L|[L1 L2]]; [exact L | rewrite L2, L1; lia].
  - intro Beyond. apply page_slice_beyond; [lia|]. rewrite Len. nia.
  - intro Within. apply page_slice_within; [lia|lia|]. rewrite Len.
    destruct Least as [L|[_ L]]; nia.
Qed.

Lemma findAll_over_doubles_witness :
  exists res,
    Double.findAll Sample.db2
      (Double.Options.make (Double.Num (Number.Finite 2))
         (Double.Num (Number.Finite 5)) None None None) = Ok res
    /\ Double.Listing.clients res = []
    /\ Double.Listing.total res = 2.
Proof.
  destruct (findAll_over_doubles Sample.db2 2 5 None None None)
    as (c & sorted & _ & Pm & _ & H);
    [vm_compute; split; discriminate | lia | vm_compute; reflexivity |].
  cbv zeta in H. destruct H as (E & _ & _ & B & _).
  assert (T : SQLite.count sorted = 2).
  { unfold SQLite.count. rewrite <- (Permutation_length Pm). reflexivity. }
  rewrite T in E, B. eexists. split; [exact E|].
  cbn [Double.Listing.clients Double.Listing.total].
  split; [apply B; vm_compute; reflexivity | reflexivity].
Defined.

End Doubles.
